(** * Voice recorder: the audio encoding pipeline and the recording state machine

    A shallow embedding of the audio core of the voice-recorder components
    ([AudioRecorder.tsx] and the [VoiceMessageRecorder] component), with the
    properties of its WAV encoders, of its MP3 encoding path and of its
    recording state machine.

    Numbers.  Every sample the code touches is an element of a
    [Float32Array], that is a binary32 value read back as a JavaScript
    Number (binary64).  The only arithmetic done on samples is a comparison
    with a constant, [Math.min]/[Math.max] with a constant, and one
    multiplication by 32768 or 32767.  On binary32 inputs these are exact in
    binary64 (a 24-bit significand times a 15-bit constant needs at most 39
    bits), so a finite sample is modelled by the rational it denotes and the
    operations by exact rational arithmetic; the three special values are
    kept apart.  Negative zero is identified with zero: every operation of
    the modelled code treats the two alike ([-0 < 0] is false and both
    convert to the integer 0).

    Components.  A component is its React state, its refs and the platform
    objects they hold; what the platform answers (device access, decoding,
    the clock) is a parameter.  A handler is a function on that world: it
    runs to completion on the state committed by the previous one, and an
    [async] handler is taken with the answers it awaits. *)

From Stdlib Require Import ZArith QArith Qabs Qround Lia String Ascii.
From stdpp Require Import base option list.
From Equations Require Import Equations.

Local Open Scope Z_scope.

(** ** JavaScript numbers and integer conversions *)

Module JS.

Inductive number : Type :=
| NaN
| PosInf
| NegInf
| Fin (q : Q).

Definition ofZ (z : Z) : number := Fin (inject_Z z).

(** [a < b] on Numbers; any comparison with [NaN] is false. *)
Definition lessThan (a b : number) : bool :=
  match a, b with
  | NaN, _ | _, NaN => false
  | _, NegInf => false
  | NegInf, _ => true
  | PosInf, _ => false
  | Fin _, PosInf => true
  | Fin p, Fin q =>
      match Qcompare p q with Lt => true | _ => false end
  end.

(** [Math.min(a, b)] and [Math.max(a, b)]: [NaN] if either is [NaN]. *)
Definition Math_min (a b : number) : number :=
  match a, b with
  | NaN, _ | _, NaN => NaN
  | _, _ => if lessThan b a then b else a
  end.

Definition Math_max (a b : number) : number :=
  match a, b with
  | NaN, _ | _, NaN => NaN
  | _, _ => if lessThan a b then b else a
  end.

(** [a * b] on Numbers. *)
Definition sign (q : Q) : comparison := Qcompare q 0.

Definition inf_of (c : comparison) : number :=
  match c with Gt => PosInf | Lt => NegInf | Eq => NaN end.

Definition mul (a b : number) : number :=
  match a, b with
  | NaN, _ | _, NaN => NaN
  | Fin p, Fin q => Fin (p * q)
  | PosInf, Fin q | Fin q, PosInf => inf_of (sign q)
  | NegInf, Fin q | Fin q, NegInf => inf_of (CompOpp (sign q))
  | PosInf, PosInf | NegInf, NegInf => PosInf
  | PosInf, NegInf | NegInf, PosInf => NegInf
  end.

(** Truncation toward zero of a rational. *)
Definition trunc (q : Q) : Z := Z.quot (Qnum q) (Z.pos (Qden q)).

(** [ToIntegerOrInfinity] followed by the modulo step shared by
    [ToInt16], [ToUint8], [ToUint16] and [ToUint32]: [NaN] and the
    infinities convert to 0. *)
Definition ToInteger (x : number) : Z :=
  match x with
  | Fin q => trunc q
  | _ => 0
  end.

Definition wrap_signed (bits : Z) (n : Z) : Z :=
  let m := n mod 2 ^ bits in
  if Z.ltb m (2 ^ (bits - 1)) then m else m - 2 ^ bits.

Definition ToInt16 (x : number) : Z := wrap_signed 16 (ToInteger x).
Definition ToUint8 (x : number) : Z := ToInteger x mod 2 ^ 8.
Definition ToUint16 (x : number) : Z := ToInteger x mod 2 ^ 16.
Definition ToUint32 (x : number) : Z := ToInteger x mod 2 ^ 32.

(** [a >= b] on Numbers; false as soon as one is [NaN]. *)
Definition greaterEqual (a b : number) : bool :=
  match a, b with
  | NaN, _ | _, NaN => false
  | _, _ => negb (lessThan a b)
  end.

(** [!x] on a Number: 0 and [NaN] are falsy. *)
Definition falsy (x : number) : bool :=
  match x with
  | NaN => true
  | Fin q => Qeq_bool q 0
  | _ => false
  end.

End JS.

Import JS.

(** ** Typed arrays, [ArrayBuffer] and [DataView]

    An [ArrayBuffer] is the list of its bytes (each in [0, 256)); a
    [DataView] over the whole buffer is the same list.  Every setter checks
    the whole range it writes before writing and throws [RangeError]
    otherwise: the setters return [None] in that case. *)

Module DataView.

(** In-place overwrite of [src] into [target] starting at index [off];
    [None] stands for the [RangeError] of an out-of-range write.  This is
    both [TypedArray.prototype.set(src, off)] and the byte store underlying
    the [DataView] setters. *)
Definition overwrite {A} (target : list A) (off : nat) (src : list A)
  : option (list A) :=
  if decide (off + length src <= length target)%nat
  then Some (take off target ++ src ++ drop (off + length src) target)
  else None.

(** The [w] little-endian bytes of an integer (two's complement for a
    negative one). *)
Fixpoint le_bytes (w : nat) (n : Z) : list Z :=
  match w with
  | O => []
  | S w' => n mod 256 :: le_bytes w' (n / 256)
  end.

Definition setUint8 (view : list Z) (off : nat) (v : number) :=
  overwrite view off (le_bytes 1 (ToUint8 v)).

(** The calls of the modelled code all pass [littleEndian = true]. *)
Definition setUint16 (view : list Z) (off : nat) (v : number) :=
  overwrite view off (le_bytes 2 (ToUint16 v)).

Definition setUint32 (view : list Z) (off : nat) (v : number) :=
  overwrite view off (le_bytes 4 (ToUint32 v)).

Definition setInt16 (view : list Z) (off : nat) (v : number) :=
  overwrite view off (le_bytes 2 (ToInt16 v)).

(** [new ArrayBuffer(n)]: [n] zero bytes. *)
Definition ArrayBuffer (n : nat) : list Z := replicate n 0.

(** [new Float32Array(n)]: [n] zeros. *)
Definition Float32Array (n : nat) : list number := replicate n (ofZ 0).

End DataView.

Import DataView.

(** ** Values shared by the two components *)

Record Blob : Type := mkBlob { bytes : list Z; type : string }.


(** The lamejs codec, as the capability the component uses: a constructor
    and the two methods of an encoder object.  The encoder is stateful;
    each method returns the new state with its output (an [Int8Array],
    here the list of its elements). *)
Class Mp3Codec : Type := {
  encoder : Type;
  Mp3Encoder : Z -> Z -> Z -> encoder;
  encodeBuffer : encoder -> list Z -> list Z -> encoder * list Z;
  flush : encoder -> encoder * list Z;
}.

(** A decoded [AudioBuffer]: [numberOfChannels] is the number of channel
    arrays; [getChannelData] throws [IndexSizeError] past it. *)
Record AudioBuffer : Type := mkAudioBuffer {
  sampleRate : Z;
  channelData : list (list number);
}.

Definition numberOfChannels (b : AudioBuffer) : nat := length (channelData b).

(** What a rejected operation carries. *)
Inductive exn : Type :=
| NoAudioToProcess
| DecodeRejected (err : string)
| FailedToLoadLamejs
| IndexSizeError
| RangeError.

Definition message (e : exn) : string :=
  match e with
  | NoAudioToProcess => "No audio to process"
  | DecodeRejected err => err
  | FailedToLoadLamejs => "Failed to load lamejs"
  | IndexSizeError => "IndexSizeError"
  | RangeError => "RangeError"
  end.

Definition getChannelData (b : AudioBuffer) (i : nat) : list number + exn :=
  match channelData b !! i with
  | Some c => inl c
  | None => inr IndexSizeError
  end.

(** The calls made on the encoder object, in order. *)
Inductive codec_call : Type :=
| NewEncoderCall (channels sampleRate kbps : Z)
| EncodeBufferCall (left right : list Z)
| FlushCall.

(** A [File] built from a blob. *)
Record File : Type := mkFile {
  contents : Blob;
  name : string;
  fileType : string;
}.

(** The platform objects the components hold references to.  Each is held
    through exactly one ref, so the object is stored in the ref itself.

    A [MediaRecorder] is [inactive] or [recording] (the components never
    pause it).  [stop()] on a recording one makes it inactive and queues
    the [stop] event; on an inactive one it returns without doing anything
    (MediaStream Recording, stop(), step 2). *)
Inductive RecorderState : Type := rs_inactive | rs_recording.

Record MediaRecorderObj : Type := mkRecorder {
  rstate : RecorderState;
  stop_event_queued : bool;
}.

Definition MediaRecorder_stop (r : MediaRecorderObj) : MediaRecorderObj :=
  match rstate r with
  | rs_inactive => r
  | rs_recording => mkRecorder rs_inactive true
  end.

Inductive ContextState : Type := ctx_running | ctx_suspended | ctx_closed.

Record AudioContextObj : Type := mkContext {
  ctx_state : ContextState;
  ctx_sampleRate : Z;
}.

(** [suspend()] and [close()] have no effect on a closed context (the
    promise they return rejects, and nobody awaits it). *)
Definition AudioContext_suspend (c : AudioContextObj) : AudioContextObj :=
  match ctx_state c with
  | ctx_closed => c
  | _ => mkContext ctx_suspended (ctx_sampleRate c)
  end.

Definition AudioContext_close (c : AudioContextObj) : AudioContextObj :=
  mkContext ctx_closed (ctx_sampleRate c).

(** An audio node, with whether its output is connected. *)
Record NodeObj : Type := mkNode { connected : bool }.

Definition Node_disconnect (n : NodeObj) : NodeObj := mkNode false.

(** A [MediaStream], with whether its tracks are live. *)
Record MediaStreamObj : Type := mkStream { live : bool }.

Definition stop_tracks (s : MediaStreamObj) : MediaStreamObj := mkStream false.

(** [URL.createObjectURL] hands out a fresh URL; the one made for the
    [n]-th call is [n]. *)
Definition ObjectURL : Type := nat.

(** ** AudioRecorder.tsx *)

Module AudioRecorder.

(** *** The WAV encoder *)

(** [writeAscii(view, offset, text)] of AudioRecorder.tsx: the loop over
    [i] from 0, writing [text.charCodeAt(i)] at [offset + i]. *)
Fixpoint writeAscii_from (i : nat) (rest : string) (view : list Z)
  (offset : nat) : option (list Z) :=
  match rest with
  | EmptyString => Some view
  | String c rest' =>
      view' ← setUint8 view (offset + i) (ofZ (Z.of_nat (nat_of_ascii c)));
      writeAscii_from (S i) rest' view' offset
  end.

Definition writeAscii (view : list Z) (offset : nat) (text : string) :=
  writeAscii_from 0 text view offset.

(** [for (const c of chunks) total += c.length]. *)
Definition total_length (chunks : list (list number)) : nat :=
  fold_left (fun total c => (total + length c)%nat) chunks 0%nat.

(** [for (const c of chunks) { pcm.set(c, off); off += c.length; }]. *)
Fixpoint copy_chunks (chunks : list (list number)) (pcm : list number)
  (off : nat) : option (list number) :=
  match chunks with
  | [] => Some pcm
  | c :: rest =>
      pcm' ← overwrite pcm off c;
      copy_chunks rest pcm' (off + length c)
  end.

(** The quantisation of one sample:
    [s = Math.max(-1, Math.min(1, x))], then
    [s < 0 ? s * 0x8000 : s * 0x7fff]. *)
Definition quantize (x : number) : number :=
  let s := Math_max (ofZ (-1)) (Math_min (ofZ 1) x) in
  if lessThan s (ofZ 0) then mul s (ofZ 0x8000) else mul s (ofZ 0x7fff).

(** [for (let i = 0; i < pcm.length; i++, idx += 2) view.setInt16(idx, ..)]. *)
Fixpoint write_samples (pcm : list number) (view : list Z) (idx : nat)
  : option (list Z) :=
  match pcm with
  | [] => Some view
  | x :: rest =>
      view' ← setInt16 view idx (quantize x);
      write_samples rest view' (idx + 2)
  end.

Definition buildWavFromFloat32 (chunks : list (list number))
  (sampleRate : Z) : option Blob :=
  let total := total_length chunks in
  pcm ← copy_chunks chunks (Float32Array total) 0;
  let bytesPerSample := 2 in
  let blockAlign := 1 * bytesPerSample in
  let n := Z.of_nat (length pcm) in
  let view := ArrayBuffer (Z.to_nat (44 + n * bytesPerSample)) in
  view ← writeAscii view 0 "RIFF";
  view ← setUint32 view 4 (ofZ (36 + n * bytesPerSample));
  view ← writeAscii view 8 "WAVE";
  view ← writeAscii view 12 "fmt ";
  view ← setUint32 view 16 (ofZ 16);
  view ← setUint16 view 20 (ofZ 1);
  view ← setUint16 view 22 (ofZ 1);
  view ← setUint32 view 24 (ofZ sampleRate);
  view ← setUint32 view 28 (ofZ (sampleRate * blockAlign));
  view ← setUint16 view 32 (ofZ blockAlign);
  view ← setUint16 view 34 (ofZ 16);
  view ← writeAscii view 36 "data";
  view ← setUint32 view 40 (ofZ (n * bytesPerSample));
  view ← write_samples pcm view 44;
  Some (mkBlob view "audio/wav").

(** *** The MP3 encoding path *)

(** One element of the conversion loop:
    [Math.max(-32768, Math.min(32767, x * 32768))], stored into an
    [Int16Array]. *)
Definition toInt16Sample (x : number) : Z :=
  ToInt16 (Math_max (ofZ (-32768)) (Math_min (ofZ 32767) (mul x (ofZ 32768)))).

(** Reading a typed array past its end gives [undefined], which the
    multiplication turns into [NaN]. *)
Definition read (a : list number) (i : nat) : number :=
  default NaN (a !! i).

(** [new Int16Array(n)]. *)
Definition Int16Array (n : nat) : list Z := replicate n 0.

(** The conversion loop, [i] running over the indices of the left channel.
    A typed-array store past the end is ignored, as is [<[i:=_]>]. *)
Fixpoint convert_loop (leftChannel rightChannel : list number)
  (indices : list nat) (leftInt16 rightInt16 : list Z)
  : list Z * list Z :=
  match indices with
  | [] => (leftInt16, rightInt16)
  | i :: rest =>
      let leftInt16' := <[i := toInt16Sample (read leftChannel i)]> leftInt16 in
      let rightInt16' :=
        <[i := toInt16Sample (read rightChannel i)]> rightInt16 in
      convert_loop leftChannel rightChannel rest leftInt16' rightInt16'
  end.

(** [a.subarray(i, j)]: the elements from [i] up to [j], cut at the end. *)
Definition subarray (a : list Z) (i j : nat) : list Z :=
  take (j - i) (drop i a).

(** [new Uint8Array(out)]: element-wise [ToUint8]. *)
Definition Uint8Array_of (out : list Z) : list Z :=
  map (fun z => z mod 2 ^ 8) out.

(** [if (out && out.length) mp3Chunks.push(new Uint8Array(out))]. *)
Definition push_nonempty (mp3Chunks : list (list Z)) (out : list Z)
  : list (list Z) :=
  match out with
  | [] => mp3Chunks
  | _ :: _ => mp3Chunks ++ [Uint8Array_of out]
  end.

Definition frame : nat := 1152.

(** The state carried through the frame loop: the encoder object, the
    chunks pushed so far and the calls made so far. *)
Record loop_state `{Mp3Codec} : Type := mkLoop {
  enc : encoder;
  mp3Chunks : list (list Z);
  calls : list codec_call;
}.

(** [for (let i = 0; i < leftInt16.length; i += frame) { ... }]. *)
Equations encode_frames `{Mp3Codec} (leftInt16 rightInt16 : list Z)
  (i : nat) (st : loop_state) : loop_state
  by wf (length leftInt16 - i)%nat Nat.lt :=
encode_frames leftInt16 rightInt16 i st
  with decide (i < length leftInt16)%nat := {
  | left _ =>
      let l := subarray leftInt16 i (i + frame) in
      let r := subarray rightInt16 i (i + frame) in
      let '(e, out) := encodeBuffer (enc st) l r in
      encode_frames leftInt16 rightInt16 (i + frame)
        (mkLoop _ e (push_nonempty (mp3Chunks st) out)
                (calls st ++ [EncodeBufferCall l r]))
  | right _ => st
  }.
Next Obligation. unfold frame. lia. Qed.

(** The two [forEach] passes that concatenate the chunks into [all]:
    the total length, then [all.set(c, off)] chunk by chunk. *)
Definition chunks_length (mp3Chunks : list (list Z)) : nat :=
  fold_left (fun total c => (total + length c)%nat) mp3Chunks 0%nat.

Fixpoint set_chunks (mp3Chunks : list (list Z)) (all : list Z) (off : nat)
  : option (list Z) :=
  match mp3Chunks with
  | [] => Some all
  | c :: rest =>
      all' ← overwrite all off c;
      set_chunks rest all' (off + length c)
  end.

(** The calls of the capture set-up that can throw, in the order of
    [requestPermissionAndStart]: the first two on the [MediaRecorder]
    path, the others on the Web Audio path. *)
Inductive SetupStep : Type :=
| new_MediaRecorder
| MediaRecorder_start
| new_AudioContext
| createMediaStreamSource
| createScriptProcessor
| source_connect
| processor_connect.

(** What the platform answers to the component. *)
Record Platform : Type := mkPlatform {
  (* navigator.mediaDevices.getUserMedia: grants ([None]) or rejects;
     a rejection carries [Some message] when it is an [Error]. *)
  getUserMedia : option (option string);
  (* window.MediaRecorder is defined *)
  window_MediaRecorder : bool;
  (* state and sample rate of a freshly constructed AudioContext, and
     whether [resume()] on it succeeds *)
  new_context_state : ContextState;
  device_sampleRate : Z;
  resume_succeeds : bool;
  (* the user-agent test of handleRecordingStop *)
  isIOS : bool;
  (* decodeAudioData on the bytes of a blob: the decoded buffer, or the
     message of the rejection *)
  decodeAudioData : list Z -> AudioBuffer + string;
  (* window.lamejs is already defined; the script loads when injected *)
  window_lamejs : bool;
  lamejs_script_loads : bool;
  (* the clock, as it appears in the two file names *)
  isoTime : string;
  epochMillis : string;
  (* the call of the capture set-up that throws, if one does, with the
     message of what it throws when that is an [Error] *)
  setup_throws : option (SetupStep * option string);
}.

Definition getMp3Blob `{Mp3Codec} (p : Platform) (audioBlob : option Blob)
  : list codec_call * (Blob + exn) :=
  match audioBlob with
  | None => ([], inr NoAudioToProcess)
  | Some blob =>
  let arrayBuffer := bytes blob in
  match decodeAudioData p arrayBuffer with
  | inr err => ([], inr (DecodeRejected err))
  | inl audioBuffer =>
  match getChannelData audioBuffer 0 with
  | inr e => ([], inr e)
  | inl leftChannel =>
  match (if decide (1 < numberOfChannels audioBuffer)%nat
         then getChannelData audioBuffer 1 else inl leftChannel) with
  | inr e => ([], inr e)
  | inl rightChannel =>
  let '(leftInt16, rightInt16) :=
    convert_loop leftChannel rightChannel (seq 0 (length leftChannel))
      (Int16Array (length leftChannel)) (Int16Array (length rightChannel)) in
  if negb (window_lamejs p) && negb (lamejs_script_loads p)
  then ([], inr FailedToLoadLamejs)
  else
  let encoder := Mp3Encoder 2 (sampleRate audioBuffer) 128 in
  let st :=
    encode_frames leftInt16 rightInt16 0
      (mkLoop _ encoder []
         [NewEncoderCall 2 (sampleRate audioBuffer) 128]) in
  let '(_, end_) := flush (enc st) in
  let mp3Chunks := push_nonempty (mp3Chunks st) end_ in
  let calls := calls st ++ [FlushCall] in
  let total := chunks_length mp3Chunks in
  match set_chunks mp3Chunks (replicate total 0) 0 with
  | None => (calls, inr RangeError)
  | Some all => (calls, inl (mkBlob all "audio/mpeg"))
  end end end end end.

(** *** The component: state, refs and what it does to the outside *)

Inductive RecordingStatus : Type :=
| idle
| permission_pending
| recording
| stopped
| error.

Record AudioRecorderState : Type := mkState {
  status : RecordingStatus;
  audioBlob : option Blob;
  audioURL : option ObjectURL;
  errorMessage : option string;
  isProcessing : bool;
}.

Inductive CaptureMode : Type := mediarecorder | webaudio.

Record Refs : Type := mkRefs {
  mediaRecorderRef : option MediaRecorderObj;
  audioChunksRef : list (list Z);
  audioContextRef : option AudioContextObj;
  mediaStreamRef : option MediaStreamObj;
  sourceNodeRef : option NodeObj;
  processorRef : option NodeObj;
  pcmBuffersRef : list (list number);
  captureModeRef : option CaptureMode;
}.

(** What the component has done to its collaborators: device-access
    requests issued, messages passed to [onError], files passed to
    [onSave] and accepted by [onUpload], calls made on the codec, and the
    number of object URLs created. *)
Record Outside : Type := mkOutside {
  deviceRequests : nat;
  errorsReported : list string;
  filesSaved : list File;
  filesUploaded : list File;
  codecCalls : list codec_call;
  objectURLs : nat;
}.

Record World : Type := mkWorld {
  state : AudioRecorderState;
  refs : Refs;
  outside : Outside;
}.

(** The props: a callback that is provided is [Some]; applied to a file it
    returns [None] when it completes and [Some message] when it throws;
    [onUpload] is awaited, so for it a rejected promise counts as a throw,
    [onSave] is not. *)
Record Props : Type := mkProps {
  onUpload : option (File -> option string);
  onError : bool;
  onSave : option (File -> option string);
}.

Definition initial : World :=
  mkWorld (mkState idle None None None false)
          (mkRefs None [] None None None None [] None)
          (mkOutside 0 [] [] [] [] 0).

Definition set_status (s : RecordingStatus) (st : AudioRecorderState) :=
  mkState s (audioBlob st) (audioURL st) (errorMessage st) (isProcessing st).

(** [onError?.(msg)]. *)
Definition report (props : Props) (msg : string) (o : Outside) : Outside :=
  if onError props
  then mkOutside (deviceRequests o) (errorsReported o ++ [msg])
         (filesSaved o) (filesUploaded o) (codecCalls o) (objectURLs o)
  else o.

(** [requestPermissionAndStart], up to its first [await]: the status is
    set and the device-access request is issued. *)
Definition requestPermissionAndStart_request (w : World) : World :=
  let o := outside w in
  mkWorld (set_status permission_pending (state w)) (refs w)
    (mkOutside (S (deviceRequests o)) (errorsReported o) (filesSaved o)
       (filesUploaded o) (codecCalls o) (objectURLs o)).

(** The [catch] block of [requestPermissionAndStart]: [thrown] is the
    message of what was thrown when that is an [Error]. *)
Definition start_failed (props : Props) (thrown : option string)
  (st : AudioRecorderState) (r : Refs) (o : Outside) : World :=
  let errorMessage :=
    match thrown with
    | Some m => m
    | None => "Microphone permission denied."%string
    end in
  let msg := ("Microphone access denied: " ++ errorMessage)%string in
  mkWorld
    (mkState error (audioBlob st) (audioURL st) (Some msg) (isProcessing st))
    r (report props msg o).

(** What the set-up of the path the platform takes throws, if it
    throws. *)
Definition setup_failure (p : Platform) : option (option string) :=
  match setup_throws p with
  | Some (step, thrown) =>
      if window_MediaRecorder p
      then
        match step with
        | new_MediaRecorder | MediaRecorder_start => Some thrown
        | _ => None
        end
      else
        match step with
        | new_MediaRecorder | MediaRecorder_start => None
        | _ => Some thrown
        end
  | None => None
  end.

(** The rest of [requestPermissionAndStart], once the request settles.
    Every statement after the [await] is inside the [try]: when a call
    of the set-up throws, the refs assigned before it keep their new
    values and the [catch] block runs. *)
Definition requestPermissionAndStart_resume (p : Platform) (props : Props)
  (w : World) : World :=
  let st := state w in
  let r := refs w in
  match getUserMedia p with
  | Some rejection => start_failed props rejection st r (outside w)
  | None =>
      let stream := mkStream true in
      if window_MediaRecorder p
      then
        match setup_throws p with
        | Some (new_MediaRecorder, thrown) =>
            start_failed props thrown st
              (mkRefs (mediaRecorderRef r) (audioChunksRef r)
                 (audioContextRef r) (Some stream) (sourceNodeRef r)
                 (processorRef r) (pcmBuffersRef r) (captureModeRef r))
              (outside w)
        | Some (MediaRecorder_start, thrown) =>
            start_failed props thrown st
              (mkRefs (Some (mkRecorder rs_inactive false)) []
                 (audioContextRef r) (Some stream) (sourceNodeRef r)
                 (processorRef r) (pcmBuffersRef r) (Some mediarecorder))
              (outside w)
        | _ =>
            mkWorld (set_status recording st)
              (mkRefs (Some (mkRecorder rs_recording false)) []
                 (audioContextRef r) (Some stream) (sourceNodeRef r)
                 (processorRef r) (pcmBuffersRef r) (Some mediarecorder))
              (outside w)
        end
      else
        let ctx_st :=
          match new_context_state p with
          | ctx_suspended =>
              if resume_succeeds p then ctx_running else ctx_suspended
          | other => other
          end in
        let ctx := mkContext ctx_st (device_sampleRate p) in
        match setup_throws p with
        | Some (new_AudioContext, thrown) =>
            start_failed props thrown st
              (mkRefs (mediaRecorderRef r) (audioChunksRef r)
                 (audioContextRef r) (Some stream) (sourceNodeRef r)
                 (processorRef r) (pcmBuffersRef r) (Some webaudio))
              (outside w)
        | Some (createMediaStreamSource, thrown) =>
            start_failed props thrown st
              (mkRefs (mediaRecorderRef r) (audioChunksRef r) (Some ctx)
                 (Some stream) (sourceNodeRef r) (processorRef r)
                 (pcmBuffersRef r) (Some webaudio))
              (outside w)
        | Some (createScriptProcessor, thrown) =>
            start_failed props thrown st
              (mkRefs (mediaRecorderRef r) (audioChunksRef r) (Some ctx)
                 (Some stream) (Some (mkNode false)) (processorRef r)
                 (pcmBuffersRef r) (Some webaudio))
              (outside w)
        | Some (source_connect, thrown) =>
            start_failed props thrown st
              (mkRefs (mediaRecorderRef r) (audioChunksRef r) (Some ctx)
                 (Some stream) (Some (mkNode false)) (Some (mkNode false)) []
                 (Some webaudio))
              (outside w)
        | Some (processor_connect, thrown) =>
            start_failed props thrown st
              (mkRefs (mediaRecorderRef r) (audioChunksRef r) (Some ctx)
                 (Some stream) (Some (mkNode true)) (Some (mkNode false)) []
                 (Some webaudio))
              (outside w)
        | _ =>
            mkWorld (set_status recording st)
              (mkRefs (mediaRecorderRef r) (audioChunksRef r) (Some ctx)
                 (Some stream) (Some (mkNode true)) (Some (mkNode true)) []
                 (Some webaudio))
              (outside w)
        end
  end.

Definition requestPermissionAndStart (p : Platform) (props : Props)
  (w : World) : World :=
  requestPermissionAndStart_resume p props
    (requestPermissionAndStart_request w).

(** [mediaRecorder.ondataavailable]. *)
Definition ondataavailable (data : list Z) (w : World) : World :=
  let r := refs w in
  match data with
  | [] => w
  | _ :: _ =>
      mkWorld (state w)
        (mkRefs (mediaRecorderRef r) (audioChunksRef r ++ [data])
           (audioContextRef r) (mediaStreamRef r) (sourceNodeRef r)
           (processorRef r) (pcmBuffersRef r) (captureModeRef r))
        (outside w)
  end.

(** [processor.onaudioprocess]: the input frame is copied and pushed. *)
Definition onaudioprocess (input : list number) (w : World) : World :=
  let r := refs w in
  mkWorld (state w)
    (mkRefs (mediaRecorderRef r) (audioChunksRef r) (audioContextRef r)
       (mediaStreamRef r) (sourceNodeRef r) (processorRef r)
       (pcmBuffersRef r ++ [input]) (captureModeRef r))
    (outside w).

(** [URL.createObjectURL] and the [setState] shared by the two branches
    of [handleRecordingStop]. *)
Definition finish (blob : Blob) (w : World) : World :=
  let st := state w in
  let o := outside w in
  mkWorld
    (mkState stopped (Some blob) (Some (objectURLs o)) (errorMessage st)
       (isProcessing st))
    (refs w)
    (mkOutside (deviceRequests o) (errorsReported o) (filesSaved o)
       (filesUploaded o) (codecCalls o) (S (objectURLs o))).

Definition handleRecordingStop (p : Platform) (w : World) : World :=
  let r := refs w in
  match captureModeRef r with
  | Some mediarecorder =>
      let blobType := (if isIOS p then "audio/mp4" else "audio/webm")%string in
      finish (mkBlob (concat (audioChunksRef r)) blobType) w
  | _ =>
      let sampleRate :=
        match audioContextRef r with
        | Some c => if ctx_sampleRate c =? 0 then 44100 else ctx_sampleRate c
        | None => 44100
        end in
      match buildWavFromFloat32 (pcmBuffersRef r) sampleRate with
      | Some wavBlob => finish wavBlob w
      | None => w
      end
  end.

(** The [stop] event of the recorder, dispatched by the platform after
    [stop()]: it runs [mediaRecorder.onstop]. *)
Definition onstop (p : Platform) (w : World) : World :=
  let r := refs w in
  match mediaRecorderRef r with
  | Some rec =>
      if stop_event_queued rec
      then
        handleRecordingStop p
          (mkWorld (state w)
             (mkRefs (Some (mkRecorder (rstate rec) false))
                (audioChunksRef r) (audioContextRef r) (mediaStreamRef r)
                (sourceNodeRef r) (processorRef r) (pcmBuffersRef r)
                (captureModeRef r))
             (outside w))
      else w
  | None => w
  end.

Definition stopRecording (p : Platform) (w : World) : World :=
  let r := refs w in
  match status (state w) with
  | recording =>
      match captureModeRef r with
      | Some mediarecorder =>
          match mediaRecorderRef r with
          | Some rec =>
              mkWorld (state w)
                (mkRefs (Some (MediaRecorder_stop rec)) (audioChunksRef r)
                   (audioContextRef r) (mediaStreamRef r) (sourceNodeRef r)
                   (processorRef r) (pcmBuffersRef r) (captureModeRef r))
                (outside w)
          | None => w
          end
      | _ =>
          handleRecordingStop p
            (mkWorld (state w)
               (mkRefs (mediaRecorderRef r) (audioChunksRef r)
                  (AudioContext_suspend <$> audioContextRef r)
                  (mediaStreamRef r)
                  (Node_disconnect <$> sourceNodeRef r)
                  (Node_disconnect <$> processorRef r)
                  (pcmBuffersRef r) (captureModeRef r))
               (outside w))
      end
  | _ => w
  end.

(** The [catch] block shared by [uploadMp3] and [handleSave]. *)
Definition failed (props : Props) (msg : string) (w : World) : World :=
  let st := state w in
  mkWorld (mkState error (audioBlob st) (audioURL st) (Some msg) false)
    (refs w) (report props msg (outside w)).

Definition add_calls (calls : list codec_call) (w : World) : World :=
  let o := outside w in
  mkWorld (state w) (refs w)
    (mkOutside (deviceRequests o) (errorsReported o) (filesSaved o)
       (filesUploaded o) (codecCalls o ++ calls) (objectURLs o)).

Definition done_processing (w : World) : World :=
  let st := state w in
  mkWorld
    (mkState (status st) (audioBlob st) (audioURL st) (errorMessage st) false)
    (refs w) (outside w).

Definition uploadMp3 `{Mp3Codec} (p : Platform) (props : Props) (w : World)
  : World :=
  match audioBlob (state w), onUpload props with
  | Some _, Some upload =>
      let '(calls, result) := getMp3Blob p (audioBlob (state w)) in
      let w := add_calls calls w in
      match result with
      | inr e => failed props (message e) w
      | inl mp3 =>
          let filename := ("voice-" ++ isoTime p ++ ".mp3")%string in
          let file := mkFile mp3 filename "audio/mpeg" in
          match upload file with
          | Some err => failed props err w
          | None =>
              let o := outside w in
              done_processing
                (mkWorld (state w) (refs w)
                   (mkOutside (deviceRequests o) (errorsReported o)
                      (filesSaved o) (filesUploaded o ++ [file])
                      (codecCalls o) (objectURLs o)))
          end
      end
  | _, _ => w
  end.

Definition handleSave `{Mp3Codec} (p : Platform) (props : Props) (w : World)
  : World :=
  match audioBlob (state w), onSave props with
  | Some _, Some save =>
      let '(calls, result) := getMp3Blob p (audioBlob (state w)) in
      let w := add_calls calls w in
      match result with
      | inr e => failed props (message e) w
      | inl mp3 =>
          let filename := ("VOICE-" ++ epochMillis p ++ ".mp3")%string in
          let file := mkFile mp3 filename "audio/mpeg" in
          match save file with
          | Some err => failed props err w
          | None =>
              let o := outside w in
              done_processing
                (mkWorld (state w) (refs w)
                   (mkOutside (deviceRequests o) (errorsReported o)
                      (filesSaved o ++ [file]) (filesUploaded o)
                      (codecCalls o) (objectURLs o)))
          end
      end
  | _, _ => w
  end.

(** *** What the component offers in each state

    The operations bound to the controls the render function draws (a
    disabled button offers nothing), followed by the methods of the
    imperative handle. *)
Inductive operation : Type :=
| op_requestPermissionAndStart
| op_stopRecording
| op_togglePlayPause
| op_reset
| op_handleSave
| op_uploadMp3
| op_getMp3Blob.

Definition rendered (props : Props) (st : AudioRecorderState)
  : list operation :=
  match status st with
  | idle => [op_requestPermissionAndStart]
  | permission_pending => [op_stopRecording]
  | recording => [op_stopRecording]
  | stopped =>
      [op_togglePlayPause]
      ++ (if isProcessing st then [] else [op_reset])
      ++ (match onSave props with
          | Some _ => if isProcessing st then [] else [op_handleSave]
          | None => []
          end)
  | error => []
  end.

Definition handle : list operation := [op_uploadMp3; op_reset; op_getMp3Blob].

Definition offered (props : Props) (st : AudioRecorderState)
  : list operation :=
  rendered props st ++ handle.

(** *** The support check made on mount *)

(** [checkBrowserSupport], with the two facts it reads: whether the page
    is in a secure context (or on https, localhost or 127.0.0.1) and
    whether [navigator.mediaDevices.getUserMedia] exists. *)
Definition checkBrowserSupport (isSecureContext hasGetUserMedia : bool)
  (w : World) : World :=
  let st := state w in
  if negb isSecureContext
  then
    mkWorld
      (mkState error (audioBlob st) (audioURL st)
         (Some "Audio recording requires HTTPS or localhost. Please use a secure connection."%string)
         (isProcessing st))
      (refs w) (outside w)
  else if negb hasGetUserMedia
  then
    mkWorld
      (mkState error (audioBlob st) (audioURL st)
         (Some "Your browser does not support audio recording. Please use a modern browser like Chrome, Firefox, Safari, or Edge."%string)
         (isProcessing st))
      (refs w) (outside w)
  else w.

(** *** The recording timer and the stop at the maximum duration *)

(** The callback of the recording timer, run every 500 ms while the
    status is [recording]: [elapsedSec] after it has run at time [now]
    (milliseconds, as [Date.now()] counts them).  It does nothing when
    [startedAtRef.current] is [null] or 0. *)
Definition onInterval (now : Z) (startedAtRef : option Z) (elapsedSec : Z)
  : Z :=
  match startedAtRef with
  | Some startedAt =>
      if startedAt =? 0 then elapsedSec else (now - startedAt) / 1000
  | None => elapsedSec
  end.

(** The effect on [elapsedSec]: nothing unless the status is [recording]
    and [maxDurationSeconds] is given and truthy; then [stopRecording]
    once [elapsedSec >= maxDurationSeconds]. *)
Definition autoStop (p : Platform) (maxDurationSeconds : option number)
  (elapsedSec : Z) (w : World) : World :=
  match status (state w), maxDurationSeconds with
  | recording, Some m =>
      if falsy m then w
      else if greaterEqual (ofZ elapsedSec) m then stopRecording p w else w
  | _, _ => w
  end.

(** *** Playback *)

(** The [<audio>] element: the duration and position it reports, whether
    it is paused, and how many [handleSeeked] listeners wait for its next
    [seeked] event. *)
Record AudioElement : Type := mkAudio {
  duration : number;
  currentTime : number;
  paused : bool;
  seeked_listeners : nat;
}.

(** The playback state and refs.  [framesRequested] counts the calls of
    [requestAnimationFrame], whose results are 0, 1, 2, ...;
    [framesPending] lists the frames requested and neither run nor
    cancelled. *)
Record Playback : Type := mkPlayback {
  audioElRef : option AudioElement;
  playbackRafIdRef : option nat;
  playbackSec : number;
  durationSec : number;
  isPlaying : bool;
  framesRequested : nat;
  framesPending : list nat;
}.

Definition isFinite (x : number) : bool :=
  match x with
  | Fin _ => true
  | _ => false
  end.

(** [x === 0]. *)
Definition is_zero (x : number) : bool :=
  match x with
  | Fin q => Qeq_bool q 0
  | _ => false
  end.

(** [x || 0]: a number is falsy when it is 0 or [NaN]. *)
Definition or_zero (x : number) : number :=
  match x with
  | NaN => ofZ 0
  | _ => if is_zero x then ofZ 0 else x
  end.

Definition stopPlaybackTicker (pb : Playback) : Playback :=
  match playbackRafIdRef pb with
  | Some id =>
      mkPlayback (audioElRef pb) None (playbackSec pb) (durationSec pb)
        (isPlaying pb) (framesRequested pb)
        (filter (fun i => i <> id) (framesPending pb))
  | None => pb
  end.

(** [window.requestAnimationFrame(tick)] and the store of its result in
    [playbackRafIdRef]. *)
Definition requestFrame (pb : Playback) : Playback :=
  mkPlayback (audioElRef pb) (Some (framesRequested pb)) (playbackSec pb)
    (durationSec pb) (isPlaying pb) (S (framesRequested pb))
    (framesPending pb ++ [framesRequested pb]).

Definition startPlaybackTicker (pb : Playback) : Playback :=
  requestFrame (stopPlaybackTicker pb).

(** The platform runs the pending frame [id]: the body of [tick]. *)
Definition tick (id : nat) (pb : Playback) : Playback :=
  if bool_decide (id ∈ framesPending pb)
  then
    let pending := filter (fun i => i <> id) (framesPending pb) in
    let sec :=
      match audioElRef pb with
      | Some el => or_zero (currentTime el)
      | None => playbackSec pb
      end in
    requestFrame
      (mkPlayback (audioElRef pb) (playbackRafIdRef pb) sec (durationSec pb)
         (isPlaying pb) (framesRequested pb) pending)
  else pb.

(** [ensureFiniteDuration(el)], [el] being the element of the component. *)
Definition ensureFiniteDuration (pb : Playback) : Playback :=
  match audioElRef pb with
  | Some el =>
      let d := duration el in
      if negb (isFinite d) || is_zero d
      then
        mkPlayback
          (Some (mkAudio (duration el) (ofZ 10000000) (paused el)
                   (S (seeked_listeners el))))
          (playbackRafIdRef pb) (playbackSec pb) (durationSec pb)
          (isPlaying pb) (framesRequested pb) (framesPending pb)
      else
        mkPlayback (audioElRef pb) (playbackRafIdRef pb) (playbackSec pb) d
          (isPlaying pb) (framesRequested pb) (framesPending pb)
  | None => pb
  end.

(** The [seeked] event: the element reports the duration it has measured
    and the [handleSeeked] listeners run, each registered once. *)
Definition seeked (measured : number) (pb : Playback) : Playback :=
  match audioElRef pb with
  | Some el =>
      match seeked_listeners el with
      | O =>
          mkPlayback
            (Some (mkAudio measured (currentTime el) (paused el) 0))
            (playbackRafIdRef pb) (playbackSec pb) (durationSec pb)
            (isPlaying pb) (framesRequested pb) (framesPending pb)
      | S _ =>
          mkPlayback (Some (mkAudio measured (ofZ 0) (paused el) 0))
            (playbackRafIdRef pb) (playbackSec pb)
            (if isFinite measured then measured else ofZ 0)
            (isPlaying pb) (framesRequested pb) (framesPending pb)
      end
  | None => pb
  end.

(** [onLoadedMetadata]. *)
Definition onLoadedMetadata (pb : Playback) : Playback :=
  match audioElRef pb with
  | Some el =>
      if negb (isFinite (duration el)) || is_zero (duration el)
      then ensureFiniteDuration pb
      else
        mkPlayback (audioElRef pb) (playbackRafIdRef pb) (playbackSec pb)
          (duration el) (isPlaying pb) (framesRequested pb)
          (framesPending pb)
  | None => pb
  end.

(** [onTimeUpdate]. *)
Definition onTimeUpdate (pb : Playback) : Playback :=
  match audioElRef pb with
  | Some el =>
      mkPlayback (audioElRef pb) (playbackRafIdRef pb) (currentTime el)
        (durationSec pb) (isPlaying pb) (framesRequested pb)
        (framesPending pb)
  | None => pb
  end.

Definition handleAudioPause (pb : Playback) : Playback :=
  stopPlaybackTicker
    (mkPlayback (audioElRef pb) (playbackRafIdRef pb) (playbackSec pb)
       (durationSec pb) false (framesRequested pb) (framesPending pb)).

Definition handleAudioEnded (pb : Playback) : Playback :=
  match audioElRef pb with
  | Some el =>
      stopPlaybackTicker
        (mkPlayback
           (Some (mkAudio (duration el) (ofZ 0) true (seeked_listeners el)))
           (playbackRafIdRef pb) (ofZ 0) (durationSec pb) false
           (framesRequested pb) (framesPending pb))
  | None => pb
  end.

(** [togglePlayPause], [play_resolves] telling whether [el.play()]
    resolves. *)
Definition togglePlayPause (play_resolves : bool) (pb : Playback) : Playback :=
  match audioElRef pb with
  | Some el =>
      let paused' :=
        if isPlaying pb then true
        else if play_resolves then false else paused el in
      mkPlayback
        (Some (mkAudio (duration el) (currentTime el) paused'
                 (seeked_listeners el)))
        (playbackRafIdRef pb) (playbackSec pb) (durationSec pb)
        (isPlaying pb) (framesRequested pb) (framesPending pb)
  | None => pb
  end.

(** The objects a reset lets go of, as it leaves them. *)
Inductive released_object : Type :=
| released_node (n : NodeObj)
| released_context (c : AudioContextObj)
| released_stream (s : MediaStreamObj).

(** The whole component: the recording side, the playback side, the
    object URLs revoked and the objects let go of. *)
Record Page : Type := mkPage {
  world : World;
  playback : Playback;
  revoked : list ObjectURL;
  released : list released_object;
}.

Definition initial_playback : Playback :=
  mkPlayback None None (ofZ 0) (ofZ 0) false 0 [].

Definition initial_page : Page := mkPage initial initial_playback [] [].

(** [handleAudioPlay]: it also resumes the recording context when that
    one is suspended. *)
Definition handleAudioPlay (p : Platform) (pg : Page) : Page :=
  let w := world pg in
  let r := refs w in
  let pb := playback pg in
  let pb :=
    mkPlayback (audioElRef pb) (playbackRafIdRef pb) (playbackSec pb)
      (durationSec pb) true (framesRequested pb) (framesPending pb) in
  let ctx :=
    match audioContextRef r with
    | Some c =>
        match ctx_state c with
        | ctx_suspended =>
            if resume_succeeds p
            then Some (mkContext ctx_running (ctx_sampleRate c))
            else Some c
        | _ => Some c
        end
    | None => None
    end in
  mkPage
    (mkWorld (state w)
       (mkRefs (mediaRecorderRef r) (audioChunksRef r) ctx
          (mediaStreamRef r) (sourceNodeRef r) (processorRef r)
          (pcmBuffersRef r) (captureModeRef r))
       (outside w))
    (ensureFiniteDuration (startPlaybackTicker pb))
    (revoked pg) (released pg).

(** What [reset] leaves of the recording side. *)
Definition reset_world (w : World) : World :=
  mkWorld (mkState idle None None None false)
    (mkRefs None [] None None None None [] None)
    (outside w).

Definition option_list {A} (o : option A) : list A :=
  match o with
  | Some a => [a]
  | None => []
  end.

Definition reset (pg : Page) : Page :=
  let w := world pg in
  let r := refs w in
  let pb := playback pg in
  let el :=
    (fun el => mkAudio (duration el) (ofZ 0) true (seeked_listeners el))
      <$> audioElRef pb in
  mkPage (reset_world w)
    (stopPlaybackTicker
       (mkPlayback el (playbackRafIdRef pb) (ofZ 0) (durationSec pb) false
          (framesRequested pb) (framesPending pb)))
    (revoked pg ++ option_list (audioURL (state w)))
    (released pg
     ++ option_list (released_node <$> (Node_disconnect <$> processorRef r))
     ++ option_list (released_node <$> (Node_disconnect <$> sourceNodeRef r))
     ++ option_list
          (released_context <$> (AudioContext_close <$> audioContextRef r))
     ++ option_list (released_stream <$> (stop_tracks <$> mediaStreamRef r))).

(** The element appears with the preview of a stopped recording and goes
    with it; React then sets the ref. *)
Definition mount (reported : number) (pb : Playback) : Playback :=
  mkPlayback (Some (mkAudio reported (ofZ 0) true 0)) (playbackRafIdRef pb)
    (playbackSec pb) (durationSec pb) (isPlaying pb) (framesRequested pb)
    (framesPending pb).

Definition unmount (pb : Playback) : Playback :=
  mkPlayback None (playbackRafIdRef pb) (playbackSec pb) (durationSec pb)
    (isPlaying pb) (framesRequested pb) (framesPending pb).

(** *** The cleanup of the effect on [state.audioURL]

    React runs it after a render in which [state.audioURL] has changed
    and when the component goes; [url] is the value of the render that
    installed the effect.  The refs keep the objects. *)
Definition cleanup (url : option ObjectURL) (pg : Page) : Page :=
  let w := world pg in
  let r := refs w in
  mkPage
    (mkWorld (state w)
       (mkRefs (mediaRecorderRef r) (audioChunksRef r)
          (AudioContext_close <$> audioContextRef r)
          (stop_tracks <$> mediaStreamRef r)
          (Node_disconnect <$> sourceNodeRef r)
          (Node_disconnect <$> processorRef r)
          (pcmBuffersRef r) (captureModeRef r))
       (outside w))
    (playback pg) (revoked pg ++ option_list url) (released pg).

Definition rerender (url : option ObjectURL) (pg : Page) : Page :=
  if decide (audioURL (state (world pg)) = url) then pg else cleanup url pg.

(** *** What can happen to the component

    Every handler and every event of the platform, at any time and with
    any answer of the platform.  This is more than the controls allow, so
    that what holds along these events holds of the component.  The
    [stop] event of a recorder the component no longer refers to runs
    [handleRecordingStop] directly. *)
Inductive event : Type :=
| ev_checkBrowserSupport (isSecureContext hasGetUserMedia : bool)
| ev_requestPermissionAndStart
| ev_permission_settled (p : Platform)
| ev_dataavailable (data : list Z)
| ev_audioprocess (input : list number)
| ev_recorder_stop (p : Platform)
| ev_detached_recorder_stop (p : Platform)
| ev_stopRecording (p : Platform)
| ev_elapsed (p : Platform) (maxDurationSeconds : option number)
    (elapsedSec : Z)
| ev_uploadMp3 (p : Platform)
| ev_handleSave (p : Platform)
| ev_reset
| ev_play (p : Platform)
| ev_pause
| ev_ended
| ev_togglePlayPause (play_resolves : bool)
| ev_frame (id : nat)
| ev_seeked (measured : number)
| ev_loadedmetadata
| ev_timeupdate
| ev_mount (reported : number)
| ev_unmount.

Definition on_world (f : World -> World) (pg : Page) : Page :=
  mkPage (f (world pg)) (playback pg) (revoked pg) (released pg).

Definition on_playback (f : Playback -> Playback) (pg : Page) : Page :=
  mkPage (world pg) (f (playback pg)) (revoked pg) (released pg).

Definition handler `{Mp3Codec} (props : Props) (e : event) : Page -> Page :=
  match e with
  | ev_checkBrowserSupport secure supported =>
      on_world (checkBrowserSupport secure supported)
  | ev_requestPermissionAndStart => on_world requestPermissionAndStart_request
  | ev_permission_settled p =>
      on_world (requestPermissionAndStart_resume p props)
  | ev_dataavailable data => on_world (ondataavailable data)
  | ev_audioprocess input => on_world (onaudioprocess input)
  | ev_recorder_stop p => on_world (onstop p)
  | ev_detached_recorder_stop p => on_world (handleRecordingStop p)
  | ev_stopRecording p => on_world (stopRecording p)
  | ev_elapsed p m elapsedSec => on_world (autoStop p m elapsedSec)
  | ev_uploadMp3 p => on_world (uploadMp3 p props)
  | ev_handleSave p => on_world (handleSave p props)
  | ev_reset => reset
  | ev_play p => handleAudioPlay p
  | ev_pause => on_playback handleAudioPause
  | ev_ended => on_playback handleAudioEnded
  | ev_togglePlayPause ok => on_playback (togglePlayPause ok)
  | ev_frame id => on_playback (tick id)
  | ev_seeked measured => on_playback (seeked measured)
  | ev_loadedmetadata => on_playback onLoadedMetadata
  | ev_timeupdate => on_playback onTimeUpdate
  | ev_mount reported => on_playback (mount reported)
  | ev_unmount => on_playback unmount
  end.

(** One event: its handler runs on the committed state, the component
    renders, and the effect on [state.audioURL] is cleaned up when that
    value has changed. *)
Definition dispatch `{Mp3Codec} (props : Props) (pg : Page) (e : event)
  : Page :=
  rerender (audioURL (state (world pg))) (handler props e pg).

Definition run_events `{Mp3Codec} (props : Props) (es : list event)
  (pg : Page) : Page :=
  foldl (dispatch props) pg es.

Definition page_reachable `{Mp3Codec} (props : Props) (pg : Page) : Prop :=
  exists es, pg = run_events props es initial_page.

End AudioRecorder.

(** ** App.tsx

    The page that uses the component: it passes a limit of 50 seconds and
    a save callback that stores the file in [savedFile], and neither an
    upload nor an error callback. *)

Module App.

Definition maxDurationSeconds : option number := Some (ofZ 50).

Definition props : AudioRecorder.Props :=
  AudioRecorder.mkProps None false (Some (fun _ => None)).



End App.

(** ** The frame loop of the MP3 path, as the specification words it *)

Module Mp3Trace.

(** The number of frames of [frame] samples needed for [n] samples, the
    last one possibly short: the ceiling of [n / frame]. *)
Definition frame_count (n : nat) : nat :=
  ((n + (AudioRecorder.frame - 1)) / AudioRecorder.frame)%nat.

(** The [k]-th frame of a channel. *)
Definition nth_frame (a : list Z) (k : nat) : list Z :=
  AudioRecorder.subarray a (k * AudioRecorder.frame)
    (k * AudioRecorder.frame + AudioRecorder.frame).

(** The encode-frame calls for a pair of channels, in order. *)
Definition encode_calls (leftInt16 rightInt16 : list Z) : list codec_call :=
  map (fun k => EncodeBufferCall (nth_frame leftInt16 k) (nth_frame rightInt16 k))
      (seq 0 (frame_count (length leftInt16))).

(** The samples of the left channel carried by a call. *)
Definition left_samples (c : codec_call) : list Z :=
  match c with
  | EncodeBufferCall l _ => l
  | _ => []
  end.

Definition is_encode (c : codec_call) : bool :=
  match c with
  | EncodeBufferCall _ _ => true
  | _ => false
  end.

(** Running the codec along a list of calls: the final encoder and the
    output of each method call, in order. *)
Fixpoint run `{Mp3Codec} (e : encoder) (cs : list codec_call)
  : encoder * list (list Z) :=
  match cs with
  | [] => (e, [])
  | NewEncoderCall ch sr kb :: rest => run (Mp3Encoder ch sr kb) rest
  | EncodeBufferCall l r :: rest =>
      let '(e', out) := encodeBuffer e l r in
      let '(e'', outs) := run e' rest in
      (e'', out :: outs)
  | FlushCall :: rest =>
      let '(e', out) := flush e in
      let '(e'', outs) := run e' rest in
      (e'', out :: outs)
  end.

(** The outputs that are not empty, each as the bytes of a [Uint8Array]. *)
Definition kept (outs : list (list Z)) : list (list Z) :=
  map AudioRecorder.Uint8Array_of (filter (fun out => out <> []) outs).

(** The two channels the path reads from a decoded buffer: channel 0,
    and channel 1 when there is one, channel 0 again otherwise. *)
Definition left_channel (b : AudioBuffer) : list number :=
  default [] (channelData b !! 0%nat).

Definition right_channel (b : AudioBuffer) : list number :=
  default (left_channel b) (channelData b !! 1%nat).

(** A decoded buffer has at least one channel, and its channels have the
    same length. *)
Definition well_formed (b : AudioBuffer) : Prop :=
  channelData b <> [] /\
  Forall (fun c => length c = length (left_channel b)) (channelData b).

(** The codec is there: already loaded, or its script loads. *)
Definition lamejs_available (p : AudioRecorder.Platform) : bool :=
  AudioRecorder.window_lamejs p || AudioRecorder.lamejs_script_loads p.

(** A small codec to run the path on: the encoder counts its calls, a
    frame is answered by its two lengths and the flush by the count. *)
Definition counting_codec : Mp3Codec := {|
  encoder := nat;
  Mp3Encoder := fun _ _ _ => 0%nat;
  encodeBuffer := fun e l r =>
    (S e, [Z.of_nat (length l); Z.of_nat (length r)]);
  flush := fun e => (e, [Z.of_nat e]);
|}.

(** Two platforms to run it on: one that decodes every blob to a mono
    buffer of 1153 samples 0.5 at 44100 Hz, and one whose decoder rejects
    every blob.  Both grant device access, have no [MediaRecorder] and
    have the codec loaded. *)
Definition decoding_platform : AudioRecorder.Platform :=
  AudioRecorder.mkPlatform None false ctx_running 44100 true false
    (fun _ => inl (mkAudioBuffer 44100 [replicate 1153 (Fin (1 # 2))]))
    true true "2025-01-01T00-00-00" "1735689600000" None.

Definition rejecting_platform : AudioRecorder.Platform :=
  AudioRecorder.mkPlatform None false ctx_running 44100 true false
    (fun _ => inr "Unable to decode audio data"%string)
    true true "2025-01-01T00-00-00" "1735689600000" None.

End Mp3Trace.

(** ** The VoiceMessageRecorder component *)

Module VoiceMessageRecorder.

(** [Array.prototype.flat] flattens only elements for which [IsArray]
    holds; a [Float32Array] is not an Array, so on a [Float32Array[]] the
    call returns a copy of the array with the same elements. *)
Definition Array_flat (samples : list (list number)) : list (list number) :=
  samples.

(** [ToNumber] of a [Float32Array]: [ToPrimitive] falls through [valueOf]
    to [toString], which is [join(",")]; the resulting string converts back
    to the element for a one-element array, to 0 for the empty string and
    to [NaN] as soon as it contains a comma. *)
Definition ToNumber_Float32Array (a : list number) : number :=
  match a with
  | [] => ofZ 0
  | [x] => x
  | _ :: _ :: _ => NaN
  end.

(** [Float32Array.from(items)]: one element per item, each converted with
    [ToNumber]. *)
Definition Float32Array_from (items : list (list number)) : list number :=
  map ToNumber_Float32Array items.

Fixpoint writeString_from (i : nat) (rest : string) (view : list Z)
  (offset : nat) : option (list Z) :=
  match rest with
  | EmptyString => Some view
  | String c rest' =>
      view' ← setUint8 view (offset + i) (ofZ (Z.of_nat (nat_of_ascii c)));
      writeString_from (S i) rest' view' offset
  end.

Definition writeString (view : list Z) (offset : nat) (str : string) :=
  writeString_from 0 str view offset.

(** The PCM loop of [encodeWAV]: the same clamp and scale as
    [AudioRecorder.quantize]. *)
Fixpoint write_samples (flat : list number) (view : list Z) (offset : nat)
  : option (list Z) :=
  match flat with
  | [] => Some view
  | x :: rest =>
      let s := Math_max (ofZ (-1)) (Math_min (ofZ 1) x) in
      view' ← setInt16 view offset
                (if lessThan s (ofZ 0) then mul s (ofZ 0x8000)
                 else mul s (ofZ 0x7fff));
      write_samples rest view' (offset + 2)
  end.

Definition encodeWAV (samples : list (list number)) (sampleRate : Z)
  : option Blob :=
  let flat := Float32Array_from (Array_flat samples) in
  let n := Z.of_nat (length flat) in
  let view := ArrayBuffer (Z.to_nat (44 + n * 2)) in
  view ← writeString view 0 "RIFF";
  view ← setUint32 view 4 (ofZ (36 + n * 2));
  view ← writeString view 8 "WAVE";
  view ← writeString view 12 "fmt ";
  view ← setUint32 view 16 (ofZ 16);
  view ← setUint16 view 20 (ofZ 1);
  view ← setUint16 view 22 (ofZ 1);
  view ← setUint32 view 24 (ofZ sampleRate);
  view ← setUint32 view 28 (ofZ (sampleRate * 2));
  view ← setUint16 view 32 (ofZ 2);
  view ← setUint16 view 34 (ofZ 16);
  view ← writeString view 36 "data";
  view ← setUint32 view 40 (ofZ (n * 2));
  view ← write_samples flat view 44;
  Some (mkBlob view "audio/wav").

(** *** The component: state, refs and the platform *)

Record Platform : Type := mkPlatform {
  (* isAudioRecordingSupported(): fixed for the life of the page *)
  isAudioRecordingSupported : bool;
  isAndroid : bool;
  (* getUserMedia resolves *)
  getUserMedia_grants : bool;
  (* recorder.start() throws *)
  start_throws : bool;
  context_sampleRate : Z;
}.

Definition getBlobType (p : Platform) : string :=
  if isAndroid p then "audio/webm"%string else "audio/mp4"%string.

Record ComponentState : Type := mkState {
  recording : bool;
  audioUrl : option ObjectURL;
  error : option string;
  pulse : bool;
  uploadSrc : option ObjectURL;
  isWavFallback : bool;
  audioMime : option string;
}.

(** [recorderStream] is the [stream] variable the handlers of the
    recorder close over. *)
Record Refs : Type := mkRefs {
  mediaRecorderRef : option MediaRecorderObj;
  recorderStream : option MediaStreamObj;
  audioChunksRef : list (list Z);
  audioContextRef : option AudioContextObj;
  inputRef : option NodeObj;
  procRef : option NodeObj;
  bufferRef : list (list number);
  wavStreamRef : option MediaStreamObj;
  wavSampleRateRef : Z;
}.

(** [objects] lists the blobs and files object URLs were created for; the
    URL of the [n]-th one is [n]. *)
Record World : Type := mkWorld {
  state : ComponentState;
  refs : Refs;
  objects : list Blob;
}.

Definition initial : World :=
  mkWorld (mkState false None None false None false None)
          (mkRefs None None [] None None None [] None 44100)
          [].

Definition startRecording (p : Platform) (w : World) : World :=
  let st := state w in
  let r := refs w in
  (* setError(null); setAudioMime(null); setIsWavFallback(false);
     bufferRef.current = [] *)
  let st := mkState (recording st) (audioUrl st) None (pulse st)
              (uploadSrc st) false None in
  let r := mkRefs (mediaRecorderRef r) (recorderStream r) (audioChunksRef r)
             (audioContextRef r) (inputRef r) (procRef r) []
             (wavStreamRef r) (wavSampleRateRef r) in
  if isAudioRecordingSupported p
  then
    if getUserMedia_grants p
    then
      if start_throws p
      then
        mkWorld
          (mkState false (audioUrl st)
             (Some "Recording could not be started on this browser/device."%string)
             false (uploadSrc st) (isWavFallback st) (audioMime st))
          (mkRefs (Some (mkRecorder rs_inactive false))
             (Some (mkStream false)) [] (audioContextRef r) (inputRef r)
             (procRef r) (bufferRef r) (wavStreamRef r) (wavSampleRateRef r))
          (objects w)
      else
        mkWorld
          (mkState true None (error st) true (uploadSrc st) false
             (audioMime st))
          (mkRefs (Some (mkRecorder rs_recording false))
             (Some (mkStream true)) [] (audioContextRef r) (inputRef r)
             (procRef r) (bufferRef r) (wavStreamRef r) (wavSampleRateRef r))
          (objects w)
    else
      mkWorld
        (mkState (recording st) (audioUrl st)
           (Some "Microphone access denied or not supported."%string)
           (pulse st) (uploadSrc st) (isWavFallback st) (audioMime st))
        r (objects w)
  else
    (* setIsWavFallback(true) *)
    let st := mkState (recording st) (audioUrl st) (error st) (pulse st)
                (uploadSrc st) true (audioMime st) in
    if getUserMedia_grants p
    then
      mkWorld
        (mkState true None (error st) true (uploadSrc st) (isWavFallback st)
           (audioMime st))
        (mkRefs (mediaRecorderRef r) (recorderStream r) (audioChunksRef r)
           (Some (mkContext ctx_running (context_sampleRate p)))
           (Some (mkNode true)) (Some (mkNode true)) (bufferRef r)
           (Some (mkStream true)) (context_sampleRate p))
        (objects w)
    else
      mkWorld
        (mkState (recording st) (audioUrl st)
           (Some "Microphone access denied or not supported (WAV fallback failed)."%string)
           (pulse st) (uploadSrc st) (isWavFallback st) (audioMime st))
        r (objects w).

Definition stopRecording (w : World) : World :=
  let st := state w in
  let r := refs w in
  (* setRecording(false); setPulse(false) *)
  let st := mkState false (audioUrl st) (error st) false (uploadSrc st)
              (isWavFallback st) (audioMime st) in
  match isWavFallback st, audioContextRef r, procRef r, inputRef r,
        wavStreamRef r with
  | true, Some ctx, Some proc, Some input, Some stream =>
      (* the nodes are disconnected, the context closed and the tracks
         stopped before the references are dropped *)
      match encodeWAV (bufferRef r) (wavSampleRateRef r) with
      | Some blob =>
          mkWorld
            (mkState (recording st) (Some (length (objects w))) (error st)
               (pulse st) (uploadSrc st) (isWavFallback st)
               (Some "audio/wav"%string))
            (mkRefs (mediaRecorderRef r) (recorderStream r)
               (audioChunksRef r) None None None [] None
               (wavSampleRateRef r))
            (objects w ++ [blob])
      | None =>
          mkWorld st
            (mkRefs (mediaRecorderRef r) (recorderStream r)
               (audioChunksRef r) (Some (AudioContext_close ctx))
               (Some (Node_disconnect input)) (Some (Node_disconnect proc))
               (bufferRef r) (Some (stop_tracks stream))
               (wavSampleRateRef r))
            (objects w)
      end
  | _, _, _, _, _ =>
      (* mediaRecorderRef.current?.stop() *)
      mkWorld st
        (mkRefs (MediaRecorder_stop <$> mediaRecorderRef r)
           (recorderStream r) (audioChunksRef r) (audioContextRef r)
           (inputRef r) (procRef r) (bufferRef r) (wavStreamRef r)
           (wavSampleRateRef r))
        (objects w)
  end.

Definition reset (w : World) : World :=
  let r := refs w in
  mkWorld (mkState false None None false None false None)
    (mkRefs (mediaRecorderRef r) (recorderStream r) (audioChunksRef r)
       None None None [] None (wavSampleRateRef r))
    (objects w).

Definition handleFileUpload (file : Blob) (w : World) : World :=
  let st := state w in
  mkWorld
    (mkState (recording st) None None (pulse st)
       (Some (length (objects w))) (isWavFallback st) (Some (type file)))
    (refs w) (objects w ++ [file]).

(** The events of the platform. *)
Definition ondataavailable (data : list Z) (w : World) : World :=
  let r := refs w in
  match mediaRecorderRef r with
  | Some _ =>
      mkWorld (state w)
        (mkRefs (mediaRecorderRef r) (recorderStream r)
           (audioChunksRef r ++ [data]) (audioContextRef r) (inputRef r)
           (procRef r) (bufferRef r) (wavStreamRef r) (wavSampleRateRef r))
        (objects w)
  | None => w
  end.

Definition onaudioprocess (inputData : list number) (w : World) : World :=
  let r := refs w in
  match procRef r with
  | Some _ =>
      mkWorld (state w)
        (mkRefs (mediaRecorderRef r) (recorderStream r) (audioChunksRef r)
           (audioContextRef r) (inputRef r) (procRef r)
           (bufferRef r ++ [inputData]) (wavStreamRef r)
           (wavSampleRateRef r))
        (objects w)
  | None => w
  end.

Definition onstop (p : Platform) (w : World) : World :=
  let st := state w in
  let r := refs w in
  match mediaRecorderRef r with
  | Some rec =>
      if stop_event_queued rec
      then
        let type := getBlobType p in
        let blob := mkBlob (concat (audioChunksRef r)) type in
        mkWorld
          (mkState (recording st) (Some (length (objects w))) (error st)
             (pulse st) (uploadSrc st) (isWavFallback st) (Some type))
          (mkRefs (Some (mkRecorder (rstate rec) false))
             (stop_tracks <$> recorderStream r) (audioChunksRef r)
             (audioContextRef r) (inputRef r) (procRef r) (bufferRef r)
             (wavStreamRef r) (wavSampleRateRef r))
          (objects w ++ [blob])
      else w
  | None => w
  end.

(** An error of the recorder: the platform makes it inactive, then runs
    [recorder.onerror]. *)
Definition onerror (msg : string) (w : World) : World :=
  let st := state w in
  let r := refs w in
  match mediaRecorderRef r with
  | Some rec =>
      mkWorld
        (mkState false (audioUrl st)
           (Some ("Recording failed: " ++ msg)%string) false (uploadSrc st)
           (isWavFallback st) (audioMime st))
        (mkRefs (Some (mkRecorder rs_inactive (stop_event_queued rec)))
           (stop_tracks <$> recorderStream r) (audioChunksRef r)
           (audioContextRef r) (inputRef r) (procRef r) (bufferRef r)
           (wavStreamRef r) (wavSampleRateRef r))
        (objects w)
  | None => w
  end.

(** [fileExt], computed at each render for the name of the download. *)
Definition fileExt (st : ComponentState) : string :=
  match audioMime st with
  | Some mime =>
      if String.eqb mime "audio/wav" then ".wav"%string
      else if String.eqb mime "audio/webm" then ".webm"%string
      else ".mp4"%string
  | None => ".mp4"%string
  end.

(** *** What the render function draws

    The microphone button starts when [recording] is false and stops when
    it is true, and it is disabled while
    [recording && isWavFallback && !audioContextRef.current]; the Delete
    button shows with a recording that is not running, or with an
    uploaded file; the file input shows when nothing is recorded and
    recording is not supported. *)
Definition button_disabled (w : World) : bool :=
  recording (state w) && isWavFallback (state w)
  && negb (bool_decide (is_Some (audioContextRef (refs w)))).

Definition delete_shown (p : Platform) (w : World) : bool :=
  let st := state w in
  (bool_decide (is_Some (audioUrl st)) && negb (recording st))
  || (negb (recording st) && negb (bool_decide (is_Some (audioUrl st)))
      && negb (isAudioRecordingSupported p)
      && bool_decide (is_Some (uploadSrc st))).

Definition upload_shown (p : Platform) (w : World) : bool :=
  let st := state w in
  negb (recording st) && negb (bool_decide (is_Some (audioUrl st)))
  && negb (isAudioRecordingSupported p).

(** *** [startRecording] around its [await]

    The handler suspends at [getUserMedia]; other handlers can run before
    it resumes.  [startRecording_begin] is what runs at the click: the
    first [setState] calls, the emptied frame buffer and, without
    [MediaRecorder], the fallback flag.  [startRecording_settled] is the
    rest, on the state committed when the request settles;
    [startRecording] above is the one after the other. *)
Definition startRecording_begin (p : Platform) (w : World) : World :=
  let st := state w in
  let r := refs w in
  mkWorld
    (mkState (recording st) (audioUrl st) None (pulse st) (uploadSrc st)
       (negb (isAudioRecordingSupported p)) None)
    (mkRefs (mediaRecorderRef r) (recorderStream r) (audioChunksRef r)
       (audioContextRef r) (inputRef r) (procRef r) []
       (wavStreamRef r) (wavSampleRateRef r))
    (objects w).

Definition startRecording_settled (p : Platform) (w : World) : World :=
  let st := state w in
  let r := refs w in
  if isAudioRecordingSupported p
  then
    if getUserMedia_grants p
    then
      if start_throws p
      then
        mkWorld
          (mkState false (audioUrl st)
             (Some "Recording could not be started on this browser/device."%string)
             false (uploadSrc st) (isWavFallback st) (audioMime st))
          (mkRefs (Some (mkRecorder rs_inactive false))
             (Some (mkStream false)) [] (audioContextRef r) (inputRef r)
             (procRef r) (bufferRef r) (wavStreamRef r) (wavSampleRateRef r))
          (objects w)
      else
        mkWorld
          (mkState true None (error st) true (uploadSrc st) false
             (audioMime st))
          (mkRefs (Some (mkRecorder rs_recording false))
             (Some (mkStream true)) [] (audioContextRef r) (inputRef r)
             (procRef r) (bufferRef r) (wavStreamRef r) (wavSampleRateRef r))
          (objects w)
    else
      mkWorld
        (mkState (recording st) (audioUrl st)
           (Some "Microphone access denied or not supported."%string)
           (pulse st) (uploadSrc st) (isWavFallback st) (audioMime st))
        r (objects w)
  else
    if getUserMedia_grants p
    then
      mkWorld
        (mkState true None (error st) true (uploadSrc st) (isWavFallback st)
           (audioMime st))
        (mkRefs (mediaRecorderRef r) (recorderStream r) (audioChunksRef r)
           (Some (mkContext ctx_running (context_sampleRate p)))
           (Some (mkNode true)) (Some (mkNode true)) (bufferRef r)
           (Some (mkStream true)) (context_sampleRate p))
        (objects w)
    else
      mkWorld
        (mkState (recording st) (audioUrl st)
           (Some "Microphone access denied or not supported (WAV fallback failed)."%string)
           (pulse st) (uploadSrc st) (isWavFallback st) (audioMime st))
        r (objects w).

(** The calls of the fallback set-up that can throw, in the order of the
    source.  (With [MediaRecorder], a constructor that throws leaves the
    state a refused request leaves, and [start()] throwing is
    [start_throws].) *)
Inductive FallbackStep : Type :=
| new_AudioContext
| createMediaStreamSource
| createScriptProcessor
| input_connect
| proc_connect.

(** The rest of [startRecording] on the fallback path when access is
    granted and the call [thrower] throws: the refs assigned before it
    keep their new values and the [catch] block sets the error. *)
Definition startRecording_setup_throws (thrower : FallbackStep)
  (sampleRate : Z) (w : World) : World :=
  let st := state w in
  let r := refs w in
  let ctx := Some (mkContext ctx_running sampleRate) in
  let stream := Some (mkStream true) in
  let r' :=
    match thrower with
    | new_AudioContext =>
        mkRefs (mediaRecorderRef r) (recorderStream r) (audioChunksRef r)
          (audioContextRef r) (inputRef r) (procRef r) (bufferRef r) stream
          (wavSampleRateRef r)
    | createMediaStreamSource =>
        mkRefs (mediaRecorderRef r) (recorderStream r) (audioChunksRef r)
          ctx (inputRef r) (procRef r) (bufferRef r) stream sampleRate
    | createScriptProcessor =>
        mkRefs (mediaRecorderRef r) (recorderStream r) (audioChunksRef r)
          ctx (Some (mkNode false)) (procRef r) (bufferRef r) stream
          sampleRate
    | input_connect =>
        mkRefs (mediaRecorderRef r) (recorderStream r) (audioChunksRef r)
          ctx (Some (mkNode false)) (Some (mkNode false)) (bufferRef r)
          stream sampleRate
    | proc_connect =>
        mkRefs (mediaRecorderRef r) (recorderStream r) (audioChunksRef r)
          ctx (Some (mkNode true)) (Some (mkNode false)) (bufferRef r)
          stream sampleRate
    end in
  mkWorld
    (mkState (recording st) (audioUrl st)
       (Some "Microphone access denied or not supported (WAV fallback failed)."%string)
       (pulse st) (uploadSrc st) (isWavFallback st) (audioMime st))
    r' (objects w).

(** *** Events of objects the refs no longer hold

    A second [startRecording] replaces the recorder, or the context and
    its nodes, in the refs; the replaced objects live on with their
    handlers.  A replaced recorder still pushes to [audioChunksRef] (as
    [ondataavailable] above, which only asks that a recorder exists) and
    its [stop] and [error] events run the handlers on its own stream; a
    replaced processor still pushes to [bufferRef]. *)
Definition detached_onstop (p : Platform) (w : World) : World :=
  let st := state w in
  let r := refs w in
  match mediaRecorderRef r with
  | Some _ =>
      let type := getBlobType p in
      let blob := mkBlob (concat (audioChunksRef r)) type in
      mkWorld
        (mkState (recording st) (Some (length (objects w))) (error st)
           (pulse st) (uploadSrc st) (isWavFallback st) (Some type))
        r (objects w ++ [blob])
  | None => w
  end.

Definition detached_onerror (msg : string) (w : World) : World :=
  let st := state w in
  match mediaRecorderRef (refs w) with
  | Some _ =>
      mkWorld
        (mkState false (audioUrl st)
           (Some ("Recording failed: " ++ msg)%string) false (uploadSrc st)
           (isWavFallback st) (audioMime st))
        (refs w) (objects w)
  | None => w
  end.

Definition detached_onaudioprocess (inputData : list number) (w : World)
  : World :=
  let r := refs w in
  mkWorld (state w)
    (mkRefs (mediaRecorderRef r) (recorderStream r) (audioChunksRef r)
       (audioContextRef r) (inputRef r) (procRef r)
       (bufferRef r ++ [inputData]) (wavStreamRef r) (wavSampleRateRef r))
    (objects w).

(** *** What can happen to the component

    Every handler and every event of the platform, at any time and with
    any answer of the platform; only what is fixed for the life of the
    page ([isAudioRecordingSupported], [isAndroid]) is taken from [p].
    This is more than the controls allow, so that what holds along these
    events holds of the component. *)
Inductive event : Type :=
| ev_start
| ev_getUserMedia_settled (grants start_throws : bool) (sampleRate : Z)
| ev_setup_throws (thrower : FallbackStep) (sampleRate : Z)
| ev_stop
| ev_reset
| ev_upload (file : Blob)
| ev_dataavailable (data : list Z)
| ev_audioprocess (inputData : list number)
| ev_recorder_stop
| ev_recorder_error (msg : string)
| ev_detached_recorder_stop
| ev_detached_recorder_error (msg : string)
| ev_detached_audioprocess (inputData : list number).

Definition handler (p : Platform) (e : event) (w : World) : World :=
  match e with
  | ev_start => startRecording_begin p w
  | ev_getUserMedia_settled grants throws sampleRate =>
      startRecording_settled
        (mkPlatform (isAudioRecordingSupported p) (isAndroid p) grants throws
           sampleRate)
        w
  | ev_setup_throws thrower sampleRate =>
      if isAudioRecordingSupported p then w
      else startRecording_setup_throws thrower sampleRate w
  | ev_stop => stopRecording w
  | ev_reset => reset w
  | ev_upload file => handleFileUpload file w
  | ev_dataavailable data => ondataavailable data w
  | ev_audioprocess inputData => onaudioprocess inputData w
  | ev_recorder_stop => onstop p w
  | ev_recorder_error msg => onerror msg w
  | ev_detached_recorder_stop => detached_onstop p w
  | ev_detached_recorder_error msg => detached_onerror msg w
  | ev_detached_audioprocess inputData =>
      if isAudioRecordingSupported p then w
      else detached_onaudioprocess inputData w
  end.

Definition run_events (p : Platform) (es : list event) (w : World) : World :=
  foldl (fun w e => handler p e w) w es.

Definition reachable (p : Platform) (w : World) : Prop :=
  exists es, w = run_events p es initial.




(** What holds of every reachable state: [pulse] follows [recording];
    with [MediaRecorder] the fallback is never engaged; without it there
    is no recorder, and while [recording] the four fallback references
    are set. *)
Definition recorder_idle (r : option MediaRecorderObj) : Prop :=
  match r with
  | Some rec => rstate rec = rs_inactive
  | None => True
  end.

(** The condition under which [stopRecording] takes its fallback
    branch. *)
Definition fallback_engaged (w : World) : Prop :=
  isWavFallback (state w) = true /\
  is_Some (audioContextRef (refs w)) /\ is_Some (procRef (refs w)) /\
  is_Some (inputRef (refs w)) /\ is_Some (wavStreamRef (refs w)).

Definition fallback_released (w : World) : Prop :=
  audioContextRef (refs w) = None /\ procRef (refs w) = None /\
  inputRef (refs w) = None /\ wavStreamRef (refs w) = None.

Definition invariant (p : Platform) (w : World) : Prop :=
  pulse (state w) = recording (state w) /\
  if isAudioRecordingSupported p
  then isWavFallback (state w) = false /\ fallback_released w
  else
    mediaRecorderRef (refs w) = None /\
    (recording (state w) = true ->
     is_Some (audioContextRef (refs w)) /\ is_Some (procRef (refs w)) /\
     is_Some (inputRef (refs w)) /\ is_Some (wavStreamRef (refs w))).

End VoiceMessageRecorder.

(** ** The WAV layout, as the specification words it

    The canonical 44-byte header of a mono 16-bit PCM file and the bytes of
    one sample, against which the encoders above are compared; and a
    decoder of the sample payload with the inverse of the quantisation. *)

Module WavFormat.

Definition ascii_codes (s : string) : list Z :=
  map (fun c => Z.of_nat (nat_of_ascii c)) (list_ascii_of_string s).

Definition wav_header_fields (riffSize sampleRate byteRate dataSize : Z)
  : list Z :=
  ascii_codes "RIFF" ++ le_bytes 4 riffSize
  ++ ascii_codes "WAVE"
  ++ ascii_codes "fmt " ++ le_bytes 4 16
  ++ le_bytes 2 1 ++ le_bytes 2 1
  ++ le_bytes 4 sampleRate
  ++ le_bytes 4 byteRate
  ++ le_bytes 2 2 ++ le_bytes 2 16
  ++ ascii_codes "data" ++ le_bytes 4 dataSize.

(** The header for [n] samples: every 32-bit field holds its value modulo
    [2 ^ 32]. *)
Definition wav_header (n sampleRate : Z) : list Z :=
  wav_header_fields ((36 + n * 2) mod 2 ^ 32) (sampleRate mod 2 ^ 32)
    ((sampleRate * 2) mod 2 ^ 32) ((n * 2) mod 2 ^ 32).

(** Clamp to [-1, 1], then scale by 32768 below zero and by 32767
    otherwise; the conversion to a 16-bit integer drops the fraction. *)
Definition clamp (x : number) : number :=
  Math_max (ofZ (-1)) (Math_min (ofZ 1) x).

Definition quantized (x : number) : Z :=
  let s := clamp x in
  ToInt16 (if lessThan s (ofZ 0) then mul s (ofZ 32768) else mul s (ofZ 32767)).

Definition sample_bytes (x : number) : list Z := le_bytes 2 (quantized x).

(** Reading a field back. *)
Definition read_le (bs : list Z) : Z :=
  fold_right (fun b acc => b + 256 * acc) 0 bs.

Definition field (wav : list Z) (off width : nat) : list Z :=
  take width (drop off wav).

(** The decoder: the 16-bit little-endian signed integers that follow the
    44-byte header. *)
Fixpoint read_int16s (payload : list Z) : list Z :=
  match payload with
  | lo :: hi :: rest => wrap_signed 16 (lo + 256 * hi) :: read_int16s rest
  | _ => []
  end.

Definition decode_samples (wav : list Z) : list Z :=
  read_int16s (drop 44 wav).

(** Inverse quantisation, with the scale by which the sample was
    multiplied, and with the single scale 32768 of common decoders. *)
Definition dequantize (v : Z) : Q :=
  if v <? 0 then v # 32768 else v # 32767.

Definition dequantize_32768 (v : Z) : Q := v # 32768.

(** A sample that is already in [-1, 1]. *)
Definition clamped (x : number) : Prop :=
  match x with
  | Fin q => (-1 <= q <= 1)%Q
  | _ => False
  end.

(** A finite sample strictly between 0 and 1. *)
Definition strictly_inside_unit (x : number) : Prop :=
  match x with
  | Fin q => (0 < q)%Q /\ (q < 1)%Q
  | _ => False
  end.

End WavFormat.

(** ** Scenarios for the state machine of AudioRecorder.tsx *)

Module Scenario.

(** Props with an error observer and a save callback that succeeds. *)
Definition props : AudioRecorder.Props :=
  AudioRecorder.mkProps None true (Some (fun _ => None)).

(** A browser without [MediaRecorder] whose [AudioContext] constructor
    throws. *)
Definition contextless_platform : AudioRecorder.Platform :=
  AudioRecorder.mkPlatform None false ctx_running 44100 true false
    (fun _ => inr "Unable to decode audio data"%string)
    true true "2025-01-01T00-00-00" "1735689600000"
    (Some (AudioRecorder.new_AudioContext,
           Some "AudioContext is not supported"%string)).

(** A recording of one frame made through the Web Audio path on a given
    platform, and stopped. *)
Definition recorded (p : AudioRecorder.Platform) : AudioRecorder.World :=
  AudioRecorder.stopRecording p
    (AudioRecorder.onaudioprocess [Fin (1 # 2); Fin (-1 # 2)]
       (AudioRecorder.requestPermissionAndStart p props
          AudioRecorder.initial)).

(** What a wrapper of [getMp3Blob] leaves when the encoding fails with
    message [msg]: the status is [error] with that message, processing is
    over, the artifact and the refs are as they were, nothing was saved or
    uploaded, no device was requested, and the message went to the error
    observer if there is one. *)
Definition encode_failure_outcome (props : AudioRecorder.Props)
  (msg : string) (calls : list codec_call)
  (w w' : AudioRecorder.World) : Prop :=
  let st := AudioRecorder.state w in
  let st' := AudioRecorder.state w' in
  let o := AudioRecorder.outside w in
  let o' := AudioRecorder.outside w' in
  AudioRecorder.status st' = AudioRecorder.error /\
  AudioRecorder.errorMessage st' = Some msg /\
  AudioRecorder.isProcessing st' = false /\
  AudioRecorder.audioBlob st' = AudioRecorder.audioBlob st /\
  AudioRecorder.audioURL st' = AudioRecorder.audioURL st /\
  AudioRecorder.refs w' = AudioRecorder.refs w /\
  AudioRecorder.filesSaved o' = AudioRecorder.filesSaved o /\
  AudioRecorder.filesUploaded o' = AudioRecorder.filesUploaded o /\
  AudioRecorder.deviceRequests o' = AudioRecorder.deviceRequests o /\
  AudioRecorder.objectURLs o' = AudioRecorder.objectURLs o /\
  AudioRecorder.codecCalls o' = AudioRecorder.codecCalls o ++ calls /\
  AudioRecorder.errorsReported o' =
    AudioRecorder.errorsReported o
    ++ (if AudioRecorder.onError props then [msg] else []).

(** A platform of the VoiceMessageRecorder component without
    [MediaRecorder], and a recording of one frame made and stopped on
    it. *)
Definition fallback_platform : VoiceMessageRecorder.Platform :=
  VoiceMessageRecorder.mkPlatform false false true false 44100.

Definition fallback_recorded : VoiceMessageRecorder.World :=
  VoiceMessageRecorder.stopRecording
    (VoiceMessageRecorder.onaudioprocess [Fin (1 # 2); Fin (-1 # 2)]
       (VoiceMessageRecorder.startRecording fallback_platform
          VoiceMessageRecorder.initial)).

(** The events of: that recording; then Start clicked, Delete clicked
    while device access is pending, access granted, Stop clicked, and
    Start clicked once more; and the state they lead to. *)
Definition interrupted_restart_events : list VoiceMessageRecorder.event :=
  [VoiceMessageRecorder.ev_start;
   VoiceMessageRecorder.ev_getUserMedia_settled true false 44100;
   VoiceMessageRecorder.ev_audioprocess [Fin (1 # 2); Fin (-1 # 2)];
   VoiceMessageRecorder.ev_stop;
   VoiceMessageRecorder.ev_start;
   VoiceMessageRecorder.ev_reset;
   VoiceMessageRecorder.ev_getUserMedia_settled true false 44100;
   VoiceMessageRecorder.ev_stop;
   VoiceMessageRecorder.ev_start].

Definition interrupted_restart : VoiceMessageRecorder.World :=
  VoiceMessageRecorder.run_events fallback_platform
    interrupted_restart_events VoiceMessageRecorder.initial.

End Scenario.

(** ** Predicates on the component of AudioRecorder.tsx

    What the invariants below say, and two states the recordings pass
    through. *)

Module Component.

(** What a handler may do to the recording and its URL: leave them, or
    store a new recording under a fresh URL. *)
Definition keeps_artifact (w w' : AudioRecorder.World) : Prop :=
  AudioRecorder.audioBlob (AudioRecorder.state w') = AudioRecorder.audioBlob (AudioRecorder.state w) /\
  AudioRecorder.audioURL (AudioRecorder.state w') = AudioRecorder.audioURL (AudioRecorder.state w) /\
  AudioRecorder.objectURLs (AudioRecorder.outside w') = AudioRecorder.objectURLs (AudioRecorder.outside w) /\
  ((AudioRecorder.status (AudioRecorder.state w') = AudioRecorder.status (AudioRecorder.state w) /\
    AudioRecorder.errorMessage (AudioRecorder.state w') = AudioRecorder.errorMessage (AudioRecorder.state w)) \/
   AudioRecorder.status (AudioRecorder.state w') = AudioRecorder.permission_pending \/
   AudioRecorder.status (AudioRecorder.state w') = AudioRecorder.recording \/
   (AudioRecorder.status (AudioRecorder.state w') = AudioRecorder.error /\
    is_Some (AudioRecorder.errorMessage (AudioRecorder.state w')))).

Definition stores_artifact (w w' : AudioRecorder.World) : Prop :=
  AudioRecorder.status (AudioRecorder.state w') = AudioRecorder.stopped /\
  is_Some (AudioRecorder.audioBlob (AudioRecorder.state w')) /\
  AudioRecorder.audioURL (AudioRecorder.state w') = Some (AudioRecorder.objectURLs (AudioRecorder.outside w)) /\
  AudioRecorder.objectURLs (AudioRecorder.outside w') = S (AudioRecorder.objectURLs (AudioRecorder.outside w)).

(** What holds of the recording and of the object URLs along every
    sequence of events. *)
Definition artifact_invariant (pg : AudioRecorder.Page) : Prop :=
  let st := AudioRecorder.state (AudioRecorder.world pg) in
  (AudioRecorder.audioBlob st = None <-> AudioRecorder.audioURL st = None) /\
  (AudioRecorder.status st = AudioRecorder.stopped -> is_Some (AudioRecorder.audioBlob st)) /\
  (AudioRecorder.status st = AudioRecorder.error -> is_Some (AudioRecorder.errorMessage st)) /\
  (AudioRecorder.status st = AudioRecorder.idle ->
   AudioRecorder.audioBlob st = None /\ AudioRecorder.errorMessage st = None) /\
  (forall u : nat,
     (u < AudioRecorder.objectURLs (AudioRecorder.outside (AudioRecorder.world pg)))%nat <->
     u ∈ AudioRecorder.revoked pg \/ AudioRecorder.audioURL st = Some u) /\
  (forall u : nat, AudioRecorder.audioURL st = Some u -> u ∉ AudioRecorder.revoked pg).

(** What holds of the playback side along every sequence of events. *)
Definition playback_invariant (pb : AudioRecorder.Playback) : Prop :=
  AudioRecorder.framesPending pb = AudioRecorder.option_list (AudioRecorder.playbackRafIdRef pb) /\
  (forall id, id ∈ AudioRecorder.framesPending pb -> (id < AudioRecorder.framesRequested pb)%nat) /\
  AudioRecorder.isFinite (AudioRecorder.durationSec pb) = true.

(** The context state after the start: a context created suspended is
    resumed when the platform lets it. *)
Definition started_context (p : AudioRecorder.Platform) : AudioContextObj :=
  mkContext
    match AudioRecorder.new_context_state p with
    | ctx_suspended =>
        if AudioRecorder.resume_succeeds p then ctx_running else ctx_suspended
    | other => other
    end
    (AudioRecorder.device_sampleRate p).

(** The page a Web Audio recording of [frames] ends in. *)
Definition webaudio_stopped (p : AudioRecorder.Platform) (frames : list (list number))
  : AudioRecorder.Page :=
  AudioRecorder.mkPage
    (AudioRecorder.mkWorld
       (AudioRecorder.mkState AudioRecorder.stopped
          (AudioRecorder.buildWavFromFloat32 frames
             (if AudioRecorder.device_sampleRate p =? 0 then 44100
              else AudioRecorder.device_sampleRate p))
          (Some 0%nat) None false)
       (AudioRecorder.mkRefs None []
          (Some (mkContext ctx_closed (AudioRecorder.device_sampleRate p)))
          (Some (mkStream false)) (Some (mkNode false)) (Some (mkNode false))
          frames (Some AudioRecorder.webaudio))
       (AudioRecorder.mkOutside 1 [] [] [] [] 1))
    AudioRecorder.initial_playback [] [].

End Component.

(** * Properties *)

(** ** Numbers *)

Lemma trunc_inject_Z (z : Z) : trunc (inject_Z z) = z.
Proof. unfold trunc. simpl. apply Z.quot_1_r. Qed.

Lemma ToInteger_ofZ (z : Z) : ToInteger (ofZ z) = z.
Proof. apply trunc_inject_Z. Qed.

Lemma ToUint32_ofZ (z : Z) : ToUint32 (ofZ z) = z mod 2 ^ 32.
Proof. unfold ToUint32. now rewrite ToInteger_ofZ. Qed.

Lemma ToUint16_ofZ (z : Z) : ToUint16 (ofZ z) = z mod 2 ^ 16.
Proof. unfold ToUint16. now rewrite ToInteger_ofZ. Qed.

Lemma ToUint8_ofZ (z : Z) : ToUint8 (ofZ z) = z mod 2 ^ 8.
Proof. unfold ToUint8. now rewrite ToInteger_ofZ. Qed.

Lemma le_bytes_length (w : nat) (n : Z) : length (le_bytes w n) = w.
Proof. revert n. induction w as [|w IH]; intros n; simpl; [done|]. by rewrite IH. Qed.

Lemma le_bytes_range (w : nat) (n : Z) :
  Forall (fun b => 0 <= b < 256) (le_bytes w n).
Proof.
  revert n. induction w as [|w IH]; intros n; simpl; constructor.
  - apply Z.mod_pos_bound. lia.
  - apply IH.
Qed.

(** ** Overwriting a range *)

Lemma overwrite_middle {A} (pre old post src : list A) :
  length old = length src ->
  overwrite (pre ++ old ++ post) (length pre) src = Some (pre ++ src ++ post).
Proof.
  intros Hlen. unfold overwrite.
  rewrite !length_app. destruct (decide _) as [_|Hn]; [|lia].
  f_equal. rewrite take_app_length. f_equal. f_equal.
  rewrite drop_app_add'; [|done]. rewrite <- Hlen. by rewrite drop_app_length.
Qed.

Lemma overwrite_prefix {A} (h t src : list A) (off : nat) :
  (off + length src <= length h)%nat ->
  overwrite (h ++ t) off src =
  Some ((take off h ++ src ++ drop (off + length src) h) ++ t).
Proof.
  intros Hle. unfold overwrite. rewrite length_app.
  destruct (decide _) as [_|Hn]; [|lia].
  f_equal. rewrite take_app_le by lia. rewrite drop_app_le by lia.
  by rewrite <- !app_assoc.
Qed.

Lemma overwrite_length {A} (target src r : list A) (off : nat) :
  overwrite target off src = Some r -> length r = length target.
Proof.
  unfold overwrite. destruct (decide _) as [Hle|]; [|done].
  intros [= <-]. rewrite !length_app, length_take, length_drop. lia.
Qed.

Import WavFormat Mp3Trace Scenario Component.

Module AR := AudioRecorder.
Module VMR := VoiceMessageRecorder.

Lemma total_length_sum (chunks : list (list number)) (acc : nat) :
  fold_left (fun total c => (total + length c)%nat) chunks acc
  = (acc + length (concat chunks))%nat.
Proof.
  revert acc. induction chunks as [|c cs IH]; intros acc; simpl; [lia|].
  rewrite IH, length_app. lia.
Qed.

Lemma total_length_concat (chunks : list (list number)) :
  AR.total_length chunks = length (concat chunks).
Proof. unfold AR.total_length. by rewrite total_length_sum. Qed.

Lemma copy_chunks_concat (chunks : list (list number)) (pre old : list number) :
  length old = length (concat chunks) ->
  AR.copy_chunks chunks (pre ++ old) (length pre) = Some (pre ++ concat chunks).
Proof.
  revert pre old. induction chunks as [|c cs IH]; intros pre old Hlen; simpl in *.
  - destruct old; [|done]. done.
  - rewrite length_app in Hlen.
    rewrite <- (take_drop (length c) old).
    rewrite overwrite_middle by (rewrite length_take; lia).
    simpl. rewrite app_assoc, <- length_app.
    rewrite IH by (rewrite length_drop; lia).
    by rewrite <- app_assoc.
Qed.

Lemma copy_chunks_ok (chunks : list (list number)) :
  AR.copy_chunks chunks (Float32Array (AR.total_length chunks)) 0
  = Some (concat chunks).
Proof.
  apply (copy_chunks_concat chunks []).
  unfold Float32Array. by rewrite length_replicate, total_length_concat.
Qed.

Lemma quantized_eq (x : number) : ToInt16 (AR.quantize x) = quantized x.
Proof. reflexivity. Qed.

Lemma write_samples_ok (pcm : list number) (pre old : list Z) :
  length old = (2 * length pcm)%nat ->
  AR.write_samples pcm (pre ++ old) (length pre)
  = Some (pre ++ flat_map sample_bytes pcm).
Proof.
  revert pre old. induction pcm as [|x xs IH]; intros pre old Hlen.
  - destruct old; [|done]. simpl. by rewrite !app_nil_r.
  - cbn [AR.write_samples flat_map]. unfold setInt16. simpl in Hlen.
    rewrite <- (take_drop 2 old).
    rewrite overwrite_middle by (rewrite length_take, le_bytes_length; lia).
    cbn [mbind option_bind].
    rewrite quantized_eq. fold (sample_bytes x).
    replace (length pre + 2)%nat with (length (pre ++ sample_bytes x))
      by (unfold sample_bytes; rewrite length_app, le_bytes_length; done).
    rewrite app_assoc.
    rewrite IH by (rewrite length_drop; lia).
    by rewrite <- app_assoc.
Qed.

Lemma overwrite_app {A} (h h' t src : list A) (off : nat) :
  overwrite h off src = Some h' ->
  overwrite (h ++ t) off src = Some (h' ++ t).
Proof.
  unfold overwrite. destruct (decide _) as [Hle|]; [|done]. intros [= <-].
  rewrite length_app. destruct (decide _) as [_|Hn]; [|lia].
  f_equal. rewrite take_app_le by lia. rewrite drop_app_le by lia.
  by rewrite <- !app_assoc.
Qed.

Lemma writeAscii_from_app (text : string) (i off : nat) (h h' t : list Z) :
  AR.writeAscii_from i text h off = Some h' ->
  AR.writeAscii_from i text (h ++ t) off = Some (h' ++ t).
Proof.
  revert i h. induction text as [|c text IH]; intros i h; cbn [AR.writeAscii_from].
  - by intros [= <-].
  - unfold setUint8. destruct (overwrite h _ _) as [h1|] eqn:E; [|done].
    rewrite (overwrite_app _ _ _ _ _ E). cbn [mbind option_bind]. apply IH.
Qed.

Lemma header_chain {B} (t : list Z) (a b c d : Z) (k : list Z -> option B) :
  (view ← AR.writeAscii (replicate 44 0 ++ t) 0 "RIFF";
   view ← setUint32 view 4 (ofZ a);
   view ← AR.writeAscii view 8 "WAVE";
   view ← AR.writeAscii view 12 "fmt ";
   view ← setUint32 view 16 (ofZ 16);
   view ← setUint16 view 20 (ofZ 1);
   view ← setUint16 view 22 (ofZ 1);
   view ← setUint32 view 24 (ofZ b);
   view ← setUint32 view 28 (ofZ c);
   view ← setUint16 view 32 (ofZ 2);
   view ← setUint16 view 34 (ofZ 16);
   view ← AR.writeAscii view 36 "data";
   view ← setUint32 view 40 (ofZ d);
   k view)
  = k (wav_header_fields (a mod 2 ^ 32) (b mod 2 ^ 32) (c mod 2 ^ 32)
         (d mod 2 ^ 32) ++ t).
Proof.
  unfold setUint32. rewrite !ToUint32_ofZ.
  generalize (a mod 2 ^ 32) (b mod 2 ^ 32) (c mod 2 ^ 32) (d mod 2 ^ 32).
  intros a' b' c' d'. lazy -[Z.modulo Z.div]. reflexivity.
Qed.

Lemma buildWav_layout (chunks : list (list number)) (sampleRate : Z) :
  AR.buildWavFromFloat32 chunks sampleRate =
  Some (mkBlob (wav_header (Z.of_nat (length (concat chunks))) sampleRate
                ++ flat_map sample_bytes (concat chunks)) "audio/wav").
Proof.
  unfold AR.buildWavFromFloat32. rewrite copy_chunks_ok. cbn [mbind option_bind].
  set (pcm := concat chunks). set (n := Z.of_nat (length pcm)).
  replace (Z.to_nat (44 + n * 2)) with (44 + 2 * length pcm)%nat by lia.
  unfold ArrayBuffer. rewrite replicate_add.
  set (t := replicate (2 * length pcm) 0).
  change (1 * 2) with 2.
  rewrite (header_chain t _ _ _ _
             (fun view => view ← AR.write_samples pcm view 44;
                          Some (mkBlob view "audio/wav"))).
  change 44%nat with (length (wav_header n sampleRate)).
  unfold wav_header at 2.
  rewrite write_samples_ok; [done|].
  subst t. by rewrite length_replicate.
Qed.


(** ** Sixteen-bit integers *)


Lemma wrap_signed_16_range (n : Z) : -32768 <= wrap_signed 16 n < 32768.
Proof.
  unfold wrap_signed. change (2 ^ 16) with 65536. change (2 ^ (16 - 1)) with 32768.
  pose proof (Z.mod_pos_bound n 65536 ltac:(lia)).
  destruct (Z.ltb_spec (n mod 65536) 32768); lia.
Qed.

Lemma wrap_signed_16_id (v : Z) : -32768 <= v < 32768 -> wrap_signed 16 v = v.
Proof.
  intros Hv. unfold wrap_signed. change (2 ^ 16) with 65536.
  change (2 ^ (16 - 1)) with 32768.
  destruct (Z.ltb_spec (v mod 65536) 32768) as [H|H].
  - destruct (Z_lt_le_dec v 0).
    + rewrite <- (Z.mod_unique v 65536 (-1) (v + 65536)) in H; lia.
    + apply Z.mod_small. lia.
  - destruct (Z_lt_le_dec v 0).
    + rewrite <- (Z.mod_unique v 65536 (-1) (v + 65536)); lia.
    + rewrite Z.mod_small in H; lia.
Qed.

(** ** Decoding *)

Lemma le_bytes_2_read (v : Z) :
  (v mod 256) + 256 * ((v / 256) mod 256) = v mod 65536.
Proof.
  change 65536 with (256 * 256). rewrite Z.rem_mul_r by lia. lia.
Qed.

Lemma int16_roundtrip (v : Z) :
  -32768 <= v < 32768 ->
  wrap_signed 16 (v mod 256 + 256 * ((v / 256) mod 256)) = v.
Proof.
  intros Hv. rewrite le_bytes_2_read.
  rewrite <- (wrap_signed_16_id v Hv) at 2.
  unfold wrap_signed. change (2 ^ 16) with 65536. by rewrite Z.mod_mod by lia.
Qed.

Lemma quantized_range (x : number) : -32768 <= quantized x < 32768.
Proof. apply wrap_signed_16_range. Qed.

Lemma read_int16s_samples (pcm : list number) :
  read_int16s (flat_map sample_bytes pcm) = map quantized pcm.
Proof.
  induction pcm as [|x xs IH]; [done|].
  cbn [flat_map map]. unfold sample_bytes at 1. cbn [le_bytes app read_int16s].
  rewrite IH. f_equal. apply int16_roundtrip, quantized_range.
Qed.

Lemma wav_header_length (n sampleRate : Z) :
  length (wav_header n sampleRate) = 44%nat.
Proof. reflexivity. Qed.

Lemma decode_samples_layout (n sampleRate : Z) (pcm : list number) :
  decode_samples (wav_header n sampleRate ++ flat_map sample_bytes pcm)
  = map quantized pcm.
Proof.
  unfold decode_samples.
  rewrite drop_app_length' by apply (wav_header_length n sampleRate).
  apply read_int16s_samples.
Qed.

Lemma writeString_eq : VMR.writeString = AR.writeAscii.
Proof. reflexivity. Qed.

Lemma VMR_write_samples_eq : VMR.write_samples = AR.write_samples.
Proof. reflexivity. Qed.

Lemma encodeWAV_layout (samples : list (list number)) (sampleRate : Z) :
  VMR.encodeWAV samples sampleRate =
  Some (mkBlob (wav_header (Z.of_nat (length samples)) sampleRate
                ++ flat_map sample_bytes (VMR.Float32Array_from samples))
          "audio/wav").
Proof.
  unfold VMR.encodeWAV. rewrite writeString_eq, VMR_write_samples_eq.
  unfold VMR.Array_flat.
  set (flat := VMR.Float32Array_from samples).
  assert (Hlen : length flat = length samples)
    by (unfold flat, VMR.Float32Array_from; apply length_map).
  rewrite Hlen.
  set (n := Z.of_nat (length samples)).
  replace (Z.to_nat (44 + n * 2)) with (44 + 2 * length flat)%nat by lia.
  unfold ArrayBuffer. rewrite replicate_add.
  set (t := replicate (2 * length flat) 0).
  rewrite (header_chain t _ _ _ _
             (fun view => view ← AR.write_samples flat view 44;
                          Some (mkBlob view "audio/wav"))).
  change 44%nat with (length (wav_header n sampleRate)).
  unfold wav_header at 2.
  rewrite write_samples_ok; [done|].
  subst t. by rewrite length_replicate.
Qed.

(** ** Quantisation *)

Lemma quot_bounds_nonneg (a b : Z) :
  0 <= a -> 0 < b -> b * (a ÷ b) <= a < b * (a ÷ b) + b.
Proof.
  intros Ha Hb. rewrite Z.quot_div_nonneg by lia.
  pose proof (Z.mul_div_le a b Hb). pose proof (Z.mul_succ_div_gt a b Hb). lia.
Qed.

Lemma quot_bounds_nonpos (a b : Z) :
  a <= 0 -> 0 < b -> b * (a ÷ b) - b < a <= b * (a ÷ b).
Proof.
  intros Ha Hb. replace a with (- - a) by lia.
  rewrite Z.quot_opp_l by lia.
  pose proof (quot_bounds_nonneg (- a) b ltac:(lia) Hb). lia.
Qed.

(** The value of [trunc] on a product with an integer constant. *)
Lemma trunc_scale (a : Z) (b : positive) (k : Z) :
  trunc ((a # b) * inject_Z k) = (a * k) ÷ Z.pos b.
Proof. unfold trunc. simpl. by rewrite Pos.mul_1_r. Qed.

Lemma lessThan_true (p q : Q) : (p < q)%Q -> lessThan (Fin p) (Fin q) = true.
Proof.
  intros H. unfold lessThan. by rewrite (proj1 (Qlt_alt p q) H).
Qed.

Lemma lessThan_false (p q : Q) : (q <= p)%Q -> lessThan (Fin p) (Fin q) = false.
Proof.
  intros H. unfold lessThan. destruct (p ?= q)%Q eqn:E; try done.
  exfalso. exact (Qlt_not_le _ _ (proj2 (Qlt_alt p q) E) H).
Qed.

Lemma clamp_low (q : Q) : (q <= -1)%Q -> clamp (Fin q) = ofZ (-1).
Proof.
  intros H. unfold clamp, Math_min, ofZ.
  rewrite lessThan_true by (eapply Qle_lt_trans; [exact H|reflexivity]).
  unfold Math_max. by rewrite lessThan_false.
Qed.

Lemma clamp_mid (q : Q) : (-1 < q)%Q -> (q < 1)%Q -> clamp (Fin q) = Fin q.
Proof.
  intros H1 H2. unfold clamp, Math_min, ofZ.
  rewrite lessThan_true by done. unfold Math_max. by rewrite lessThan_true.
Qed.

Lemma clamp_high (q : Q) : (1 <= q)%Q -> clamp (Fin q) = ofZ 1.
Proof.
  intros H. unfold clamp, Math_min, ofZ.
  rewrite lessThan_false by done. reflexivity.
Qed.

Lemma trunc_small (q : Q) (lo hi : Z) :
  (inject_Z lo <= q)%Q -> (q <= inject_Z hi)%Q -> lo <= 0 <= hi ->
  lo <= trunc q <= hi.
Proof.
  destruct q as [a b]. unfold Qle, trunc. cbn [Qnum Qden inject_Z].
  rewrite !Z.mul_1_r. intros Hlo Hhi H0.
  destruct (Z_lt_le_dec a 0).
  - pose proof (quot_bounds_nonpos a (Z.pos b) ltac:(lia) ltac:(lia)). nia.
  - pose proof (quot_bounds_nonneg a (Z.pos b) ltac:(lia) ltac:(lia)). nia.
Qed.

Lemma ToInt16_Fin (q : Q) :
  (inject_Z (-32768) <= q)%Q -> (q <= inject_Z 32767)%Q ->
  ToInt16 (Fin q) = trunc q.
Proof.
  intros Hlo Hhi. unfold ToInt16. cbn [ToInteger].
  apply wrap_signed_16_id.
  pose proof (trunc_small q (-32768) 32767 Hlo Hhi ltac:(lia)). lia.
Qed.

Ltac q2z :=
  unfold Qle, Qlt, Qmult, Qeq in *; cbn [Qnum Qden inject_Z] in *;
  rewrite ?Pos.mul_1_r, ?Z.mul_1_r, ?Pos2Z.inj_mul in *.

Lemma quantized_below (q : Q) : (q <= -1)%Q -> quantized (Fin q) = -32768.
Proof. intros H. unfold quantized. by rewrite clamp_low. Qed.

Lemma quantized_above (q : Q) : (1 <= q)%Q -> quantized (Fin q) = 32767.
Proof. intros H. unfold quantized. by rewrite clamp_high. Qed.

Lemma quantized_neg (q : Q) :
  (-1 < q)%Q -> (q < 0)%Q -> quantized (Fin q) = trunc (q * inject_Z 32768).
Proof.
  intros H1 H2. unfold quantized.
  rewrite clamp_mid; [|done|by eapply Qlt_trans; [exact H2|]].
  unfold ofZ. rewrite lessThan_true by done. cbn [mul].
  apply ToInt16_Fin; destruct q as [a b]; q2z; lia.
Qed.

Lemma quantized_nonneg (q : Q) :
  (0 <= q)%Q -> (q < 1)%Q -> quantized (Fin q) = trunc (q * inject_Z 32767).
Proof.
  intros H1 H2. unfold quantized.
  rewrite clamp_mid; [|by eapply Qlt_le_trans; [|exact H1]|done].
  unfold ofZ. rewrite lessThan_false by done. cbn [mul].
  apply ToInt16_Fin; destruct q as [a b]; q2z; lia.
Qed.

Lemma toInt16Sample_below (q : Q) :
  (q <= -1)%Q -> AR.toInt16Sample (Fin q) = -32768.
Proof.
  intros H. unfold AR.toInt16Sample, ofZ. cbn [mul].
  unfold Math_min. rewrite lessThan_true by (destruct q as [a b]; q2z; lia).
  unfold Math_max. rewrite lessThan_false by (destruct q as [a b]; q2z; lia).
  reflexivity.
Qed.

Lemma toInt16Sample_mid (q : Q) :
  (-1 < q)%Q -> (q * inject_Z 32768 < inject_Z 32767)%Q ->
  AR.toInt16Sample (Fin q) = trunc (q * inject_Z 32768).
Proof.
  intros H1 H2. unfold AR.toInt16Sample, ofZ. cbn [mul].
  unfold Math_min. rewrite lessThan_true by done.
  unfold Math_max. rewrite lessThan_true by (destruct q as [a b]; q2z; lia).
  apply ToInt16_Fin; destruct q as [a b]; q2z; lia.
Qed.

Lemma toInt16Sample_above (q : Q) :
  (inject_Z 32767 <= q * inject_Z 32768)%Q ->
  AR.toInt16Sample (Fin q) = 32767.
Proof.
  intros H. unfold AR.toInt16Sample, ofZ. cbn [mul].
  unfold Math_min. rewrite lessThan_false by done.
  reflexivity.
Qed.


Lemma mp3_vs_wav_Fin (q : Q) :
  quantized (Fin q) <= AR.toInt16Sample (Fin q) <= quantized (Fin q) + 1 /\
  (~ ((0 < q)%Q /\ (q < 1)%Q) -> AR.toInt16Sample (Fin q) = quantized (Fin q)).
Proof.
  destruct (Qlt_le_dec (-1) q) as [Hlo|Hlo].
  2:{ rewrite quantized_below, toInt16Sample_below by done. split; [lia|done]. }
  destruct (Qlt_le_dec q 0) as [Hneg|Hnn].
  { rewrite quantized_neg by done.
    rewrite toInt16Sample_mid; [split; [lia|done]|done|].
    destruct q as [a b]; q2z; lia. }
  destruct (Qlt_le_dec q 1) as [Hlt|Hge].
  2:{ rewrite quantized_above by done.
      rewrite toInt16Sample_above; [split; [lia|done]|].
      destruct q as [a b]; q2z; lia. }
  rewrite quantized_nonneg by done.
  destruct (Qlt_le_dec (q * inject_Z 32768) (inject_Z 32767)) as [Hm|Hm].
  - rewrite toInt16Sample_mid by done.
    destruct q as [a b]. rewrite !trunc_scale. q2z.
    pose proof (quot_bounds_nonneg (a * 32767) (Z.pos b) ltac:(lia) ltac:(lia)).
    pose proof (quot_bounds_nonneg (a * 32768) (Z.pos b) ltac:(lia) ltac:(lia)).
    split; [nia|]. intros Hn.
    assert (a = 0) as -> by lia. reflexivity.
  - rewrite toInt16Sample_above by done.
    destruct q as [a b]. rewrite !trunc_scale. q2z.
    pose proof (quot_bounds_nonneg (a * 32767) (Z.pos b) ltac:(lia) ltac:(lia)).
    split; [nia|]. intros Hn. lia.
Qed.

Lemma dequantize_error (q : Q) :
  (-1 <= q)%Q -> (q <= 1)%Q ->
  (Qabs (q - dequantize (quantized (Fin q))) < 1 # 32767)%Q /\
  ((q < 0)%Q -> (Qabs (q - dequantize (quantized (Fin q))) < 1 # 32768)%Q).
Proof.
  intros Hlo Hhi.
  assert (Hdq : forall v : Z, (0 <= v -> dequantize v = v # 32767) /\
                         (v < 0 -> dequantize v = v # 32768)).
  { intros v. unfold dequantize. destruct (Z.ltb_spec v 0); split; done || lia. }
  destruct (Qlt_le_dec (-1) q) as [Hlo'|Hlo'].
  2:{ rewrite quantized_below by done. change (dequantize (-32768)) with (-32768 # 32768).
      split; [|intros _]; apply Qabs_Qlt_condition; destruct q as [a b];
        unfold Qminus, Qplus, Qopp; q2z; lia. }
  destruct (Qlt_le_dec q 0) as [Hneg|Hnn].
  { rewrite quantized_neg by done. destruct q as [a b]. rewrite trunc_scale.
    pose proof (quot_bounds_nonpos (a * 32768) (Z.pos b) ltac:(q2z; lia) ltac:(lia)) as Hb.
    set (v := (a * 32768) ÷ Z.pos b) in *.
    destruct (Hdq v) as [Hp Hn].
    destruct (Z_lt_le_dec v 0) as [Hv|Hv].
    - rewrite (Hn Hv). split; [|intros _]; apply Qabs_Qlt_condition;
        unfold Qminus, Qplus, Qopp; q2z; nia.
    - rewrite (Hp Hv). assert (Hv0 : v = 0) by (q2z; nia). rewrite Hv0 in *.
      split; [|intros _]; apply Qabs_Qlt_condition;
        unfold Qminus, Qplus, Qopp; q2z; lia. }
  destruct (Qlt_le_dec q 1) as [Hlt|Hge].
  2:{ rewrite quantized_above by done. change (dequantize 32767) with (32767 # 32767).
      split; [|intros Hc; exfalso; destruct q as [a b]; q2z; lia].
      apply Qabs_Qlt_condition; destruct q as [a b];
        unfold Qminus, Qplus, Qopp; q2z; lia. }
  rewrite quantized_nonneg by done. destruct q as [a b]. rewrite trunc_scale.
  pose proof (quot_bounds_nonneg (a * 32767) (Z.pos b) ltac:(q2z; lia) ltac:(lia)) as Hb.
  set (v := (a * 32767) ÷ Z.pos b) in *.
  destruct (Hdq v) as [Hp _]. rewrite Hp by (q2z; nia).
  split; [|intros Hc; exfalso; q2z; lia].
  apply Qabs_Qlt_condition; unfold Qminus, Qplus, Qopp; q2z; nia.
Qed.

(** ** The WAV encoder of AudioRecorder.tsx *)

(** [buildWavFromFloat32] never throws, and its output is the canonical
    header for the total sample count followed by the samples. *)
Lemma buildWavFromFloat32_layout (chunks : list (list number)) (sampleRate : Z) :
  exists blob,
    AudioRecorder.buildWavFromFloat32 chunks sampleRate = Some blob /\
    type blob = "audio/wav"%string /\
    bytes blob =
      wav_header (Z.of_nat (length (concat chunks))) sampleRate
      ++ flat_map sample_bytes (concat chunks) /\
    length (bytes blob) = (44 + 2 * length (concat chunks))%nat /\
    Forall (fun b => 0 <= b < 256) (bytes blob).
Proof.
  eexists. split; [apply buildWav_layout|]. cbn [type bytes].
  split; [done|]. split; [done|]. split.
  - rewrite length_app, wav_header_length. f_equal.
    induction (concat chunks) as [|x xs IH]; [done|].
    cbn [flat_map]. rewrite length_app. unfold sample_bytes at 1.
    rewrite le_bytes_length. cbn [length]. lia.
  - apply Forall_app. split.
    + unfold wav_header, wav_header_fields.
      repeat (apply Forall_app; split); try apply le_bytes_range;
        repeat constructor; lia.
    + induction (concat chunks) as [|x xs IH]; [constructor|].
      cbn [flat_map]. apply Forall_app. split; [apply le_bytes_range|done].
Qed.

(** The fields of the header, read back, when the sizes fit in 32 bits. *)
Lemma wav_header_fields_read (n sampleRate : Z) :
  0 <= n -> 36 + n * 2 < 2 ^ 32 -> 0 <= sampleRate -> sampleRate * 2 < 2 ^ 32 ->
  let h := wav_header n sampleRate in
  field h 0 4 = ascii_codes "RIFF" /\
  read_le (field h 4 4) = 36 + 2 * n /\
  field h 8 4 = ascii_codes "WAVE" /\
  field h 12 4 = ascii_codes "fmt " /\
  read_le (field h 16 4) = 16 /\
  read_le (field h 20 2) = 1 /\
  read_le (field h 22 2) = 1 /\
  read_le (field h 24 4) = sampleRate /\
  read_le (field h 28 4) = sampleRate * 2 /\
  read_le (field h 32 2) = 2 /\
  read_le (field h 34 2) = 16 /\
  field h 36 4 = ascii_codes "data" /\
  read_le (field h 40 4) = 2 * n.
Proof.
  intros Hn Hfit Hs Hs2.
  assert (Hread : forall v, 0 <= v < 2 ^ 32 -> read_le (le_bytes 4 (v mod 2 ^ 32)) = v).
  { intros v Hv. rewrite Z.mod_small by done. cbn [le_bytes read_le fold_right].
    change (2 ^ 32) with 4294967296 in Hv.
    pose proof (Z.div_mod v 256 ltac:(lia)).
    pose proof (Z.div_mod (v / 256) 256 ltac:(lia)).
    pose proof (Z.div_mod (v / 256 / 256) 256 ltac:(lia)).
    assert (v / 256 / 256 / 256 < 256)
      by (repeat (apply Z.div_lt_upper_bound; [lia|]); lia).
    assert (0 <= v / 256 / 256 / 256) by (repeat apply Z.div_pos; lia).
    rewrite (Z.mod_small (v / 256 / 256 / 256)) by lia. lia. }
  cbv zeta. unfold wav_header, wav_header_fields, field.
  repeat split; try reflexivity.
  - change (read_le (le_bytes 4 ((36 + n * 2) mod 2 ^ 32)) = 36 + 2 * n).
    rewrite Hread; lia.
  - change (read_le (le_bytes 4 (sampleRate mod 2 ^ 32)) = sampleRate).
    rewrite Hread; lia.
  - change (read_le (le_bytes 4 ((sampleRate * 2) mod 2 ^ 32)) = sampleRate * 2).
    rewrite Hread; lia.
  - change (read_le (le_bytes 4 ((n * 2) mod 2 ^ 32)) = 2 * n).
    rewrite Hread; lia.
Qed.

(** ** The claims on the WAV encoders and on the sample conversion *)

(** C1.  The claim describes the output for N = the total sample count.
    [encodeWAV] of the VoiceMessageRecorder component does not produce it:
    its flattening step leaves the chunks whole, so the buffer holds one
    sample per chunk.  On a single chunk of two samples 0.5 it returns 46
    bytes, a data size of 2 and the one sample 0, where
    [buildWavFromFloat32] returns the 48 bytes of the claim. *)
Theorem encodeWAV_one_sample_per_chunk :
  let chunk := [Fin (1 # 2); Fin (1 # 2)] in
  (exists blob,
     VoiceMessageRecorder.encodeWAV [chunk] 44100 = Some blob /\
     length (bytes blob) = 46%nat /\
     read_le (field (bytes blob) 4 4) = 38 /\
     read_le (field (bytes blob) 40 4) = 2 /\
     decode_samples (bytes blob) = [0]) /\
  (exists blob,
     AudioRecorder.buildWavFromFloat32 [chunk] 44100 = Some blob /\
     length (bytes blob) = 48%nat /\
     read_le (field (bytes blob) 4 4) = 40 /\
     read_le (field (bytes blob) 40 4) = 4 /\
     decode_samples (bytes blob) = [16383; 16383]).
Proof.
  split; eexists; (split; [vm_compute; reflexivity|]); vm_compute; auto.
Qed.

(** What [encodeWAV] returns in general: the header for as many samples
    as there are chunks, and one sample per chunk. *)
Lemma encodeWAV_length (samples : list (list number)) (sampleRate : Z) :
  exists blob,
    VoiceMessageRecorder.encodeWAV samples sampleRate = Some blob /\
    length (bytes blob) = (44 + 2 * length samples)%nat.
Proof.
  eexists. split; [apply encodeWAV_layout|]. cbn [bytes].
  rewrite length_app, wav_header_length. f_equal.
  unfold VoiceMessageRecorder.Float32Array_from.
  induction samples as [|c cs IH]; [done|].
  cbn [map flat_map]. rewrite length_app. unfold sample_bytes at 1.
  rewrite le_bytes_length. cbn [length]. lia.
Qed.

(** On an empty typed array, which the component never passes (its
    frames hold 4096 samples), [encodeWAV] writes one sample as for any
    other chunk: 46 bytes, a RIFF size of 38 and a data size of 2. *)
Lemma encodeWAV_empty_chunk (sampleRate : Z) :
  exists blob,
    VoiceMessageRecorder.encodeWAV [[]] sampleRate = Some blob /\
    length (bytes blob) = 46%nat /\
    read_le (field (bytes blob) 4 4) = 38 /\
    read_le (field (bytes blob) 40 4) = 2 /\
    drop 44 (bytes blob) = [0; 0].
Proof.
  eexists. split; [apply encodeWAV_layout|]. cbn [bytes]. repeat split.
Qed.

(** The encoder of AudioRecorder.tsx on any chunks totalling zero
    samples, and [encodeWAV] on no chunks. *)
Lemma buildWavFromFloat32_empty (chunks : list (list number)) (sampleRate : Z) :
  concat chunks = [] ->
  exists blob,
    AudioRecorder.buildWavFromFloat32 chunks sampleRate = Some blob /\
    length (bytes blob) = 44%nat /\
    bytes blob = wav_header 0 sampleRate /\
    read_le (field (bytes blob) 4 4) = 36 /\
    read_le (field (bytes blob) 40 4) = 0.
Proof.
  intros Hempty. eexists. split; [apply buildWav_layout|].
  rewrite Hempty. cbn [bytes length flat_map Z.of_nat]. rewrite app_nil_r.
  repeat split.
Qed.

Lemma encodeWAV_no_chunks (sampleRate : Z) :
  exists blob,
    VoiceMessageRecorder.encodeWAV [] sampleRate = Some blob /\
    bytes blob = wav_header 0 sampleRate /\
    length (bytes blob) = 44%nat.
Proof. eexists. split; [apply encodeWAV_layout|]. repeat split. Qed.






(** C8, as stated, fails on [buildWavFromFloat32]: the sample
    32769/65536 (a binary32 value) is stored as 16383, and both
    16383/32767 and 16383/32768 are farther than 1/32768 from it. *)
Lemma wav_roundtrip_step_exceeded :
  let s := (32769 # 65536)%Q in
  clamped (Fin s) /\
  exists blob,
    AudioRecorder.buildWavFromFloat32 [[Fin s]] 44100 = Some blob /\
    decode_samples (bytes blob) = [16383] /\
    (1 # 32768 < Qabs (s - dequantize 16383))%Q /\
    (1 # 32768 < Qabs (s - dequantize_32768 16383))%Q.
Proof.
  split; [split; discriminate|].
  eexists. split; [vm_compute; reflexivity|]. repeat split.
Qed.

(** C8, amended.  Decoding the output of [buildWavFromFloat32] gives as
    many samples as went in, and each one, scaled back by the constant it
    was multiplied by, is less than 1/32767 away from its input, and less
    than 1/32768 away when the input is negative. *)
Theorem wav_roundtrip (chunks : list (list number)) (sampleRate : Z) :
  Forall clamped (concat chunks) ->
  exists blob,
    AudioRecorder.buildWavFromFloat32 chunks sampleRate = Some blob /\
    length (decode_samples (bytes blob)) = length (concat chunks) /\
    forall (i : nat) (q : Q) (v : Z),
      concat chunks !! i = Some (Fin q) ->
      decode_samples (bytes blob) !! i = Some v ->
      (Qabs (q - dequantize v) < 1 # 32767)%Q /\
      ((q < 0)%Q -> (Qabs (q - dequantize v) < 1 # 32768)%Q).
Proof.
  intros Hclamped. eexists. split; [apply buildWav_layout|]. cbn [bytes].
  rewrite decode_samples_layout. split; [apply length_map|].
  intros i q v Hi Hv. rewrite list_lookup_fmap, Hi in Hv.
  injection Hv as <-.
  rewrite Forall_lookup in Hclamped. specialize (Hclamped i _ Hi).
  destruct Hclamped as [Hlo Hhi]. by apply dequantize_error.
Qed.

Lemma wav_roundtrip_witness :
  let chunks := [[Fin (32769 # 65536)]; [Fin (-1 # 4)]] in
  Forall clamped (concat chunks) /\
  exists blob,
    AudioRecorder.buildWavFromFloat32 chunks 48000 = Some blob /\
    length (decode_samples (bytes blob)) = length (concat chunks) /\
    forall (i : nat) (q : Q) (v : Z),
      concat chunks !! i = Some (Fin q) ->
      decode_samples (bytes blob) !! i = Some v ->
      (Qabs (q - dequantize v) < 1 # 32767)%Q /\
      ((q < 0)%Q -> (Qabs (q - dequantize v) < 1 # 32768)%Q).
Proof.
  assert (H : Forall clamped
                (concat [[Fin (32769 # 65536)]; [Fin (-1 # 4)]]))
    by (repeat constructor; discriminate).
  split; [exact H|]. exact (wav_roundtrip _ 48000 H).
Defined.

(** C5, as stated, fails: for the sample 0.5 the MP3 path stores 16384
    and the WAV rule 16383. *)
Lemma mp3_conversion_differs :
  AudioRecorder.toInt16Sample (Fin (1 # 2)) = 16384 /\
  ToInt16 (AudioRecorder.quantize (Fin (1 # 2))) = 16383 /\
  AudioRecorder.toInt16Sample (Fin (1 # 2))
    <> ToInt16 (AudioRecorder.quantize (Fin (1 # 2))).
Proof. repeat split. discriminate. Qed.

(** C5, amended.  The MP3 path multiplies every sample by 32768, clamps
    the product to [-32768, 32767] and drops the fraction.  The result is
    the integer of the WAV rule for every sample that is not strictly
    between 0 and 1 ([NaN] and the infinities included), and is that
    integer or the next one otherwise. *)
Theorem mp3_conversion_close_to_wav (x : number) :
  AudioRecorder.toInt16Sample x =
    ToInt16 (Math_max (ofZ (-32768)) (Math_min (ofZ 32767) (mul x (ofZ 32768)))) /\
  ToInt16 (AudioRecorder.quantize x) <= AudioRecorder.toInt16Sample x
    <= ToInt16 (AudioRecorder.quantize x) + 1 /\
  (~ strictly_inside_unit x ->
   AudioRecorder.toInt16Sample x = ToInt16 (AudioRecorder.quantize x)).
Proof.
  split; [reflexivity|]. rewrite quantized_eq.
  destruct x as [| | |q].
  - split; [vm_compute; split; discriminate|reflexivity].
  - split; [vm_compute; split; discriminate|reflexivity].
  - split; [vm_compute; split; discriminate|reflexivity].
  - apply mp3_vs_wav_Fin.
Qed.

Lemma mp3_conversion_close_to_wav_witness :
  ~ strictly_inside_unit (Fin (-1 # 2)) /\
  AudioRecorder.toInt16Sample (Fin (-1 # 2))
  = ToInt16 (AudioRecorder.quantize (Fin (-1 # 2))).
Proof.
  split.
  - intros [H _]. discriminate H.
  - apply (mp3_conversion_close_to_wav (Fin (-1 # 2))).
    intros [H _]. discriminate H.
Defined.

(** ** The MP3 path *)

Lemma encode_frames_done `{Mp3Codec} (l r : list Z) (i : nat) (st : AudioRecorder.loop_state) :
  (length l <= i)%nat -> AudioRecorder.encode_frames l r i st = st.
Proof.
  intros Hi. rewrite AudioRecorder.encode_frames_equation_1.
  destruct (decide (i < length l)%nat); [lia|done].
Qed.

Lemma encode_frames_step `{Mp3Codec} (l r : list Z) (i : nat) (st : AudioRecorder.loop_state) :
  (i < length l)%nat ->
  AudioRecorder.encode_frames l r i st =
  let fl := AudioRecorder.subarray l i (i + AudioRecorder.frame) in
  let fr := AudioRecorder.subarray r i (i + AudioRecorder.frame) in
  AudioRecorder.encode_frames l r (i + AudioRecorder.frame)
    (AudioRecorder.mkLoop _ (encodeBuffer (AudioRecorder.enc st) fl fr).1
       (AudioRecorder.push_nonempty (AudioRecorder.mp3Chunks st) (encodeBuffer (AudioRecorder.enc st) fl fr).2)
       (AudioRecorder.calls st ++ [EncodeBufferCall fl fr])).
Proof.
  intros Hi. rewrite AudioRecorder.encode_frames_equation_1.
  destruct (decide (i < length l)%nat); [|lia].
  cbn. by destruct (encodeBuffer _ _ _).
Qed.

Lemma frame_count_spec (n : nat) :
  (n <= frame_count n * AudioRecorder.frame)%nat /\
  (forall k, (k < frame_count n)%nat -> (k * AudioRecorder.frame < n)%nat) /\
  (forall k, (k * AudioRecorder.frame < n)%nat -> (k < frame_count n)%nat).
Proof.
  unfold frame_count, AudioRecorder.frame. change (1152 - 1)%nat with 1151%nat.
  pose proof (Nat.div_mod_eq (n + 1151) 1152) as Hd.
  pose proof (Nat.mod_upper_bound (n + 1151) 1152 ltac:(lia)) as Hm.
  set (c := ((n + 1151) / 1152)%nat) in *. clearbody c.
  repeat split; intros; nia.
Qed.

Lemma push_nonempty_kept (chunks : list (list Z)) (out : list Z) :
  AudioRecorder.push_nonempty chunks out = chunks ++ kept [out].
Proof.
  destruct out as [|b bs]; unfold kept, AudioRecorder.push_nonempty.
  - rewrite filter_cons_False by (intros Hne; by apply Hne).
    rewrite filter_nil. cbn. by rewrite app_nil_r.
  - rewrite filter_cons_True by done. by rewrite filter_nil.
Qed.

Lemma kept_app (a b : list (list Z)) : kept (a ++ b) = kept a ++ kept b.
Proof. unfold kept. by rewrite filter_app, map_app. Qed.

Lemma run_app `{Mp3Codec} (e : encoder) (cs1 cs2 : list codec_call) :
  run e (cs1 ++ cs2) =
  ((run (run e cs1).1 cs2).1, (run e cs1).2 ++ (run (run e cs1).1 cs2).2).
Proof.
  revert e. induction cs1 as [|c cs IH]; intros e; cbn [app run].
  - cbn. by destruct (run e cs2).
  - destruct c as [ch sr kb|l r|].
    + apply IH.
    + destruct (encodeBuffer e l r) as [e' out]. rewrite IH.
      destruct (run e' cs) as [e1 o1]. cbn. by destruct (run e1 cs2).
    + destruct (flush e) as [e' out]. rewrite IH.
      destruct (run e' cs) as [e1 o1]. cbn. by destruct (run e1 cs2).
Qed.

Lemma encode_frames_from `{Mp3Codec} (l r : list Z) (d k : nat) (st : AudioRecorder.loop_state) :
  (k + d = frame_count (length l))%nat ->
  let cs := map (fun j => EncodeBufferCall (nth_frame l j) (nth_frame r j))
                (seq k d) in
  let st' := AudioRecorder.encode_frames l r (k * AudioRecorder.frame) st in
  AudioRecorder.calls st' = AudioRecorder.calls st ++ cs /\
  AudioRecorder.enc st' = (run (AudioRecorder.enc st) cs).1 /\
  AudioRecorder.mp3Chunks st' = AudioRecorder.mp3Chunks st ++ kept (run (AudioRecorder.enc st) cs).2.
Proof.
  revert k st. induction d as [|d IH]; intros k st Hk; cbv zeta.
  - destruct (frame_count_spec (length l)) as (Hle & _ & _).
    rewrite encode_frames_done by lia. cbn. by rewrite !app_nil_r.
  - destruct (frame_count_spec (length l)) as (_ & Hlt & _).
    rewrite encode_frames_step by (apply Hlt; lia).
    cbv zeta. fold (nth_frame l k). fold (nth_frame r k).
    replace (k * AudioRecorder.frame + AudioRecorder.frame)%nat with (S k * AudioRecorder.frame)%nat by lia.
    specialize (IH (S k)
      (AudioRecorder.mkLoop _ (encodeBuffer (AudioRecorder.enc st) (nth_frame l k) (nth_frame r k)).1
         (AudioRecorder.push_nonempty (AudioRecorder.mp3Chunks st)
            (encodeBuffer (AudioRecorder.enc st) (nth_frame l k) (nth_frame r k)).2)
         (AudioRecorder.calls st ++ [EncodeBufferCall (nth_frame l k) (nth_frame r k)]))
      ltac:(lia)).
    cbv zeta in IH. destruct IH as (Hc & He & Hm).
    rewrite Hc, He, Hm. cbn [AudioRecorder.calls AudioRecorder.enc AudioRecorder.mp3Chunks seq map run].
    destruct (encodeBuffer (AudioRecorder.enc st) (nth_frame l k) (nth_frame r k))
      as [e' out]. cbn [fst snd].
    destruct (run e' _) as [e'' outs]. cbn [fst snd].
    rewrite push_nonempty_kept, <- !app_assoc. repeat split.
    f_equal. change (out :: outs) with ([out] ++ outs). by rewrite kept_app.
Qed.

(** *** The conversion loop *)

Lemma convert_loop_length (L R : list number) (idx : list nat) (a b : list Z) :
  length (AudioRecorder.convert_loop L R idx a b).1 = length a /\
  length (AudioRecorder.convert_loop L R idx a b).2 = length b.
Proof.
  revert a b. induction idx as [|i idx IH]; intros a b; cbn [AudioRecorder.convert_loop]; [done|].
  cbv zeta. destruct (IH (<[i:=AudioRecorder.toInt16Sample (AudioRecorder.read L i)]> a)
                         (<[i:=AudioRecorder.toInt16Sample (AudioRecorder.read R i)]> b)) as [H1 H2].
  rewrite H1, H2, !length_insert. done.
Qed.

(** Both arrays are updated by the same rule, each from its own channel. *)
Lemma convert_loop_swap (L R : list number) (idx : list nat) (a b : list Z) :
  (AudioRecorder.convert_loop L R idx a b).2 = (AudioRecorder.convert_loop R L idx b a).1.
Proof.
  revert a b. induction idx as [|i idx IH]; intros a b; cbn [AudioRecorder.convert_loop]; [done|].
  cbv zeta. apply IH.
Qed.

Lemma convert_loop_fst_indep (L R R' : list number) (idx : list nat) (a b b' : list Z) :
  (AudioRecorder.convert_loop L R idx a b).1 = (AudioRecorder.convert_loop L R' idx a b').1.
Proof.
  revert a b b'. induction idx as [|i idx IH]; intros a b b'; cbn [AudioRecorder.convert_loop]; [done|].
  cbv zeta. apply IH.
Qed.

Lemma convert_loop_fst (L R : list number) (d k : nat) (pre zs b : list Z) :
  length pre = k -> (k + d <= length L)%nat -> (k + d <= k + length zs)%nat ->
  (AudioRecorder.convert_loop L R (seq k d) (pre ++ zs) b).1 =
  pre ++ map AudioRecorder.toInt16Sample (take d (drop k L)) ++ drop d zs.
Proof.
  revert k pre zs b. induction d as [|d IH]; intros k pre zs b Hpre HL Hz.
  - cbn. by rewrite drop_0.
  - cbn [seq AudioRecorder.convert_loop]. cbv zeta.
    destruct zs as [|z zs]; [cbn in Hz; lia|].
    destruct (drop k L) as [|x rest] eqn:Hd.
    { apply (f_equal length) in Hd. rewrite length_drop in Hd. cbn in Hd. lia. }
    assert (Hx : AudioRecorder.read L k = x).
    { unfold AudioRecorder.read. pose proof (lookup_drop L k 0) as E.
      rewrite Hd, Nat.add_0_r in E. cbn in E. by rewrite <- E. }
    rewrite Hx.
    replace (<[k:=AudioRecorder.toInt16Sample x]> (pre ++ z :: zs))
      with ((pre ++ [AudioRecorder.toInt16Sample x]) ++ zs).
    2:{ rewrite <- Hpre, insert_app_r_alt by lia. rewrite Nat.sub_diag. cbn.
        by rewrite <- app_assoc. }
    rewrite IH.
    + rewrite <- app_assoc. cbn [take map app drop]. do 3 f_equal.
      replace (S k) with (k + 1)%nat by lia. rewrite <- drop_drop, Hd. done.
    + rewrite length_app. cbn. lia.
    + lia.
    + cbn in Hz. lia.
Qed.

Lemma convert_loop_left (L R : list number) (b : list Z) :
  (AudioRecorder.convert_loop L R (seq 0 (length L)) (AudioRecorder.Int16Array (length L)) b).1
  = map AudioRecorder.toInt16Sample L.
Proof.
  unfold AudioRecorder.Int16Array.
  change (replicate (length L) 0) with ([] ++ replicate (length L) 0) at 1.
  rewrite (convert_loop_fst L R (length L) 0 [] (replicate (length L) 0) b);
    rewrite ?length_replicate; try done; try lia.
  cbn [app]. rewrite drop_0, firstn_all.
  rewrite drop_ge by (rewrite length_replicate; lia). by rewrite app_nil_r.
Qed.

Lemma convert_loop_right (L R : list number) (a : list Z) :
  length R = length L ->
  (AudioRecorder.convert_loop L R (seq 0 (length L)) a (AudioRecorder.Int16Array (length R))).2
  = map AudioRecorder.toInt16Sample R.
Proof.
  intros Hlen. rewrite convert_loop_swap, <- Hlen. apply convert_loop_left.
Qed.

(** *** The frames *)

Lemma nth_frame_take (a : list Z) (k : nat) :
  nth_frame a k = take AudioRecorder.frame (drop (k * AudioRecorder.frame) a).
Proof.
  unfold nth_frame, AudioRecorder.subarray. f_equal. lia.
Qed.

Lemma nth_frame_length (a : list Z) (k : nat) :
  length (nth_frame a k) = (AudioRecorder.frame `min` (length a - k * AudioRecorder.frame))%nat.
Proof. rewrite nth_frame_take, length_take, length_drop. done. Qed.

Lemma frames_concat (a : list Z) (k : nat) :
  concat (map (nth_frame a) (seq 0 k)) = take (k * AudioRecorder.frame) a.
Proof.
  induction k as [|k IH]; [done|].
  rewrite seq_S, map_app, concat_app, IH. cbn [map concat Nat.add].
  rewrite app_nil_r, nth_frame_take, take_take_drop. f_equal. lia.
Qed.

Lemma encode_calls_length (l r : list Z) :
  length (encode_calls l r) = frame_count (length l).
Proof. unfold encode_calls. by rewrite length_map, length_seq. Qed.

Lemma encode_calls_left (l r : list Z) :
  concat (map left_samples (encode_calls l r)) = l.
Proof.
  unfold encode_calls. rewrite map_map. cbn [left_samples].
  rewrite frames_concat. apply take_ge.
  destruct (frame_count_spec (length l)) as (H & _). lia.
Qed.

Lemma encode_calls_lookup (l r : list Z) (k : nat) (c : codec_call) :
  encode_calls l r !! k = Some c ->
  (k < frame_count (length l))%nat /\
  c = EncodeBufferCall (nth_frame l k) (nth_frame r k).
Proof.
  unfold encode_calls. rewrite list_lookup_fmap.
  destruct (seq 0 (frame_count (length l)) !! k) as [j|] eqn:E; [|done].
  apply lookup_seq in E as [-> Hk]. cbn. intros [= <-]. done.
Qed.

Lemma set_chunks_concat (chunks : list (list Z)) (pre old : list Z) :
  length old = length (concat chunks) ->
  AudioRecorder.set_chunks chunks (pre ++ old) (length pre) = Some (pre ++ concat chunks).
Proof.
  revert pre old. induction chunks as [|c cs IH]; intros pre old Hlen; simpl in *.
  - destruct old; [|done]. done.
  - rewrite length_app in Hlen.
    rewrite <- (take_drop (length c) old).
    rewrite overwrite_middle by (rewrite length_take; lia).
    simpl. rewrite app_assoc, <- length_app.
    rewrite IH by (rewrite length_drop; lia).
    by rewrite <- app_assoc.
Qed.

Lemma chunks_length_concat (chunks : list (list Z)) :
  AudioRecorder.chunks_length chunks = length (concat chunks).
Proof.
  unfold AudioRecorder.chunks_length.
  assert (H : forall acc, fold_left (fun total c => (total + length c)%nat) chunks acc
                     = (acc + length (concat chunks))%nat).
  { induction chunks as [|c cs IH]; intros acc; simpl; [lia|].
    rewrite IH, length_app. lia. }
  by rewrite H.
Qed.

Lemma set_chunks_ok (chunks : list (list Z)) :
  AudioRecorder.set_chunks chunks (replicate (AudioRecorder.chunks_length chunks) 0) 0
  = Some (concat chunks).
Proof.
  apply (set_chunks_concat chunks []).
  by rewrite length_replicate, chunks_length_concat.
Qed.

(** *** [getMp3Blob] *)

(** The successful run: the trace and the buffer, in terms of the two
    integer streams the conversion loop leaves. *)
Lemma getMp3Blob_success `{Mp3Codec} (p : AudioRecorder.Platform) (blob : Blob)
    (b : AudioBuffer) (L : list number) :
  AudioRecorder.decodeAudioData p (bytes blob) = inl b ->
  channelData b !! 0%nat = Some L ->
  lamejs_available p = true ->
  let R := right_channel b in
  let ints := AudioRecorder.convert_loop L R (seq 0 (length L))
                (AudioRecorder.Int16Array (length L)) (AudioRecorder.Int16Array (length R)) in
  let work := encode_calls ints.1 ints.2 ++ [FlushCall] in
  let e0 := Mp3Encoder 2 (sampleRate b) 128 in
  AudioRecorder.getMp3Blob p (Some blob) =
  (NewEncoderCall 2 (sampleRate b) 128 :: work,
   inl (mkBlob (concat (kept (run e0 work).2)) "audio/mpeg")).
Proof.
  intros Hdec HL Hlame. cbv zeta.
  unfold AudioRecorder.getMp3Blob. rewrite Hdec. unfold getChannelData. rewrite HL.
  assert (HR : (if decide (1 < numberOfChannels b)%nat
                then match channelData b !! 1%nat with
                     | Some c => inl c
                     | None => inr IndexSizeError
                     end
                else inl L) = (inl (right_channel b) : list number + exn)).
  { unfold right_channel, left_channel, numberOfChannels. rewrite HL. cbn.
    destruct (decide _) as [Hn|Hn].
    - destruct (channelData b !! 1%nat) eqn:E; [done|].
      apply lookup_ge_None in E. lia.
    - rewrite (proj2 (lookup_ge_None _ _)) by lia. done. }
  rewrite HR.
  destruct (AudioRecorder.convert_loop _ _ _ _ _) as [l16 r16] eqn:Hloop. cbn [fst snd].
  unfold lamejs_available in Hlame.
  replace (negb (AudioRecorder.window_lamejs p) && negb (AudioRecorder.lamejs_script_loads p))
    with false by (by destruct (AudioRecorder.window_lamejs p), (AudioRecorder.lamejs_script_loads p)).
  pose proof (encode_frames_from l16 r16 (frame_count (length l16)) 0
    (AudioRecorder.mkLoop _ (Mp3Encoder 2 (sampleRate b) 128) []
       [NewEncoderCall 2 (sampleRate b) 128]) ltac:(lia)) as Hfr.
  cbv zeta in Hfr. cbn [AudioRecorder.calls AudioRecorder.enc AudioRecorder.mp3Chunks Nat.mul] in Hfr.
  fold (encode_calls l16 r16) in Hfr.
  destruct Hfr as (Hc & He & Hm).
  set (st := AudioRecorder.encode_frames l16 r16 0 _) in *.
  rewrite run_app. cbn [fst snd run].
  rewrite <- He.
  destruct (flush (AudioRecorder.enc st)) as [e' end_] eqn:Hflush. cbn [fst snd].
  rewrite push_nonempty_kept, Hm, Hc. cbn [app].
  rewrite set_chunks_ok.
  rewrite kept_app. done.
Qed.

Lemma well_formed_channels (b : AudioBuffer) :
  well_formed b ->
  channelData b !! 0%nat = Some (left_channel b) /\
  length (right_channel b) = length (left_channel b).
Proof.
  intros [Hne Hall]. unfold right_channel, left_channel in *.
  destruct (channelData b) as [|c0 [|c1 cs]] eqn:E; [done| |]; cbn in *.
  - done.
  - split; [done|]. inversion Hall as [|? ? _ Hrest]; subst.
    by inversion Hrest.
Qed.

Lemma encode_calls_all_encode (l r : list Z) :
  Forall (fun c => is_encode c = true) (encode_calls l r).
Proof. unfold encode_calls. apply Forall_forall. intros c Hc.
  apply list_elem_of_fmap in Hc as (k & -> & _). done. Qed.

(** C2.  On a decoded buffer of N samples per channel, with the codec
    available, the trace of [getMp3Blob] is: the construction of the
    encoder, then ceil(N / 1152) encode-frame calls, then one flush.  The
    k-th call carries min(1152, N - 1152 k) > 0 samples of each channel,
    the left frames put end to end are the N converted samples, and the
    buffer returned is the non-empty frame outputs in order followed by
    the flush output. *)
Theorem mp3_frame_coverage (codec : Mp3Codec) (p : AudioRecorder.Platform)
    (blob : Blob) (b : AudioBuffer) :
  AudioRecorder.decodeAudioData p (bytes blob) = inl b ->
  well_formed b ->
  lamejs_available p = true ->
  let N := length (left_channel b) in
  let leftInt16 := map AudioRecorder.toInt16Sample (left_channel b) in
  let rightInt16 := map AudioRecorder.toInt16Sample (right_channel b) in
  let frames := encode_calls leftInt16 rightInt16 in
  let e0 := Mp3Encoder 2 (sampleRate b) 128 in
  exists mp3,
    AudioRecorder.getMp3Blob p (Some blob) =
      (NewEncoderCall 2 (sampleRate b) 128 :: frames ++ [FlushCall], inl mp3) /\
    length frames = frame_count N /\
    (N <= frame_count N * 1152 < N + 1152)%nat /\
    (forall k c, frames !! k = Some c ->
       exists l r, c = EncodeBufferCall l r /\
         length l = (1152 `min` (N - k * 1152))%nat /\
         length r = length l /\ (0 < length l)%nat) /\
    concat (map left_samples frames) = leftInt16 /\
    length leftInt16 = N /\
    type mp3 = "audio/mpeg"%string /\
    bytes mp3 =
      concat (kept (run e0 frames).2)
      ++ AudioRecorder.Uint8Array_of (flush (run e0 frames).1).2.
Proof.
  intros Hdec Hwf Hlame. cbv zeta.
  destruct (well_formed_channels b Hwf) as [HL HR].
  pose proof (getMp3Blob_success p blob b _ Hdec HL Hlame) as Hrun.
  cbv zeta in Hrun.
  rewrite convert_loop_left, convert_loop_right in Hrun by done.
  set (l16 := map AudioRecorder.toInt16Sample (left_channel b)) in *.
  set (r16 := map AudioRecorder.toInt16Sample (right_channel b)) in *.
  assert (Hl16 : length l16 = length (left_channel b)) by apply length_map.
  assert (Hr16 : length r16 = length (left_channel b))
    by (unfold r16; by rewrite length_map).
  destruct (frame_count_spec (length (left_channel b))) as (Hup & Hlt & _).
  eexists. split; [exact Hrun|]. cbn [type bytes].
  split; [by rewrite encode_calls_length, Hl16|].
  split.
  { split; [exact Hup|]. change AudioRecorder.frame with 1152%nat in *.
    destruct (frame_count (length (left_channel b))) as [|c]; [lia|].
    specialize (Hlt c ltac:(lia)). lia. }
  split.
  { intros k c Hk. apply encode_calls_lookup in Hk as [Hk ->].
    rewrite Hl16 in Hk. specialize (Hlt k Hk).
    eexists _, _. split; [done|].
    rewrite !nth_frame_length, Hl16, Hr16. change AudioRecorder.frame with 1152%nat in *.
    repeat split; lia. }
  split; [apply encode_calls_left|]. split; [done|]. split; [done|].
  rewrite run_app. cbn [fst snd run].
  destruct (flush _) as [e' end_]. cbn [fst snd].
  rewrite kept_app, concat_app. f_equal.
  unfold kept. destruct end_ as [|x xs].
  - by rewrite filter_cons_False by (intros Hne; by apply Hne).
  - rewrite filter_cons_True by done. cbn. by rewrite app_nil_r.
Qed.

Lemma mp3_frame_coverage_witness :
  exists mp3,
    @AudioRecorder.getMp3Blob counting_codec decoding_platform
      (Some (mkBlob [] "audio/wav")) =
      (NewEncoderCall 2 44100 128
         :: encode_calls (replicate 1153 16384) (replicate 1153 16384)
         ++ [FlushCall], inl mp3) /\
    length (encode_calls (replicate 1153 16384) (replicate 1153 16384)) = 2%nat.
Proof.
  destruct (mp3_frame_coverage counting_codec decoding_platform
              (mkBlob [] "audio/wav")
              (mkAudioBuffer 44100 [replicate 1153 (Fin (1 # 2))]))
    as (mp3 & Hrun & Hlen & _).
  - reflexivity.
  - split; [discriminate|]. repeat constructor.
  - reflexivity.
  - exists mp3. split; [exact Hrun|exact Hlen].
Defined.

(** Whatever the input, the trace of [getMp3Blob] is empty or is the
    construction of a two-channel encoder, encode-frame calls and one
    flush; and a buffer is returned only with the whole of it. *)
Lemma getMp3Blob_shape `{Mp3Codec} (p : AudioRecorder.Platform) (audioBlob : option Blob) :
  let calls := (AudioRecorder.getMp3Blob p audioBlob).1 in
  let result := (AudioRecorder.getMp3Blob p audioBlob).2 in
  (calls = [] /\ exists e, result = inr e) \/
  (exists sr frames,
     calls = NewEncoderCall 2 sr 128 :: frames ++ [FlushCall] /\
     Forall (fun c => is_encode c = true) frames /\
     forall mp3, result = inl mp3 ->
       bytes mp3 =
         concat (kept (run (Mp3Encoder 2 sr 128) (frames ++ [FlushCall])).2)).
Proof.
  cbv zeta. destruct audioBlob as [blob|]; [|left; cbn; eauto].
  destruct (AudioRecorder.decodeAudioData p (bytes blob)) as [b|err] eqn:Hdec.
  2:{ left. unfold AudioRecorder.getMp3Blob. rewrite Hdec. cbn. eauto. }
  destruct (channelData b !! 0%nat) as [L|] eqn:HL.
  2:{ left. unfold AudioRecorder.getMp3Blob, getChannelData. rewrite Hdec, HL. cbn. eauto. }
  destruct (lamejs_available p) eqn:Hlame.
  - right. rewrite (getMp3Blob_success p blob b L Hdec HL Hlame). cbn [fst snd].
    eexists _, _. split; [reflexivity|]. split; [apply encode_calls_all_encode|].
    by intros mp3 [= <-].
  - left. unfold AudioRecorder.getMp3Blob, getChannelData. rewrite Hdec, HL.
    unfold lamejs_available in Hlame.
    replace (negb (AudioRecorder.window_lamejs p) && negb (AudioRecorder.lamejs_script_loads p))
      with true by (by destruct (AudioRecorder.window_lamejs p), (AudioRecorder.lamejs_script_loads p)).
    destruct (decide _); [destruct (channelData b !! 1%nat)|];
      try destruct (AudioRecorder.convert_loop _ _ _ _ _); cbn; eauto.
Qed.

(** C7.  For a mono buffer the conversion loop fills the two integer
    arrays from the same channel, so they are equal, and every
    encode-frame call receives the same frame twice; and whatever the
    buffer, an encoder is only ever constructed for two channels. *)
Theorem mono_channel_duplicated (codec : Mp3Codec) (p : AudioRecorder.Platform) :
  (forall (blob : Blob) (b : AudioBuffer) (c : list number),
     AudioRecorder.decodeAudioData p (bytes blob) = inl b ->
     channelData b = [c] ->
     lamejs_available p = true ->
     let s := map AudioRecorder.toInt16Sample c in
     AudioRecorder.convert_loop c c (seq 0 (length c))
       (AudioRecorder.Int16Array (length c))
       (AudioRecorder.Int16Array (length c)) = (s, s) /\
     (exists mp3,
        AudioRecorder.getMp3Blob p (Some blob) =
          (NewEncoderCall 2 (sampleRate b) 128
             :: encode_calls s s ++ [FlushCall], inl mp3)) /\
     (forall l r, In (EncodeBufferCall l r) (encode_calls s s) -> l = r)) /\
  (forall (audioBlob : option Blob) (channels sr kbps : Z),
     In (NewEncoderCall channels sr kbps)
        (AudioRecorder.getMp3Blob p audioBlob).1 ->
     channels = 2).
Proof.
  split.
  - intros blob b c Hdec Hc Hlame. cbv zeta.
    assert (Hloop : AudioRecorder.convert_loop c c (seq 0 (length c))
       (AudioRecorder.Int16Array (length c))
       (AudioRecorder.Int16Array (length c))
       = (map AudioRecorder.toInt16Sample c, map AudioRecorder.toInt16Sample c)).
    { apply injective_projections; cbn [fst snd].
      - apply convert_loop_left.
      - by apply convert_loop_right. }
    split; [exact Hloop|]. split.
    + assert (HL : channelData b !! 0%nat = Some c) by (by rewrite Hc).
      pose proof (getMp3Blob_success p blob b c Hdec HL Hlame) as Hrun.
      cbv zeta in Hrun.
      assert (HR : right_channel b = c)
        by (unfold right_channel, left_channel; by rewrite Hc).
      rewrite HR, Hloop in Hrun. cbn [fst snd] in Hrun. eauto.
    + intros l r Hin. apply list_elem_of_In, list_elem_of_lookup in Hin as [k Hk].
      apply encode_calls_lookup in Hk as [_ Hk]. by injection Hk as -> ->.
  - intros audioBlob channels sr kbps Hin.
    destruct (getMp3Blob_shape p audioBlob) as [[Hnil _]|(sr' & frames & Hc & Hall & _)].
    + rewrite Hnil in Hin. destruct Hin.
    + rewrite Hc in Hin. destruct Hin as [Heq|Hin]; [by injection Heq as <- _ _|].
      apply in_app_or in Hin as [Hin|[Heq|[]]]; [|discriminate].
      rewrite Forall_forall in Hall.
      apply list_elem_of_In, Hall in Hin. discriminate.
Qed.

Lemma mono_channel_duplicated_witness :
  let c := replicate 1153 (Fin (1 # 2)) in
  let s := map AudioRecorder.toInt16Sample c in
  AudioRecorder.convert_loop c c (seq 0 (length c))
    (AudioRecorder.Int16Array (length c))
    (AudioRecorder.Int16Array (length c)) = (s, s).
Proof.
  exact (proj1 (proj1 (mono_channel_duplicated counting_codec decoding_platform)
    (mkBlob [] "audio/wav")
    (mkAudioBuffer 44100 [replicate 1153 (Fin (1 # 2))])
    (replicate 1153 (Fin (1 # 2))) eq_refl eq_refl eq_refl)).
Defined.

(** C9.  When the decoder rejects the source, [getMp3Blob] fails with
    that rejection and has made no call on the codec, not even the
    construction of an encoder.  And whatever the input, it returns a
    buffer only after the flush, and the buffer then holds the output of
    every call of the trace: no shorter buffer is ever returned. *)
Theorem decode_failure_aborts (codec : Mp3Codec) (p : AudioRecorder.Platform) :
  (forall (blob : Blob) (err : string),
     AudioRecorder.decodeAudioData p (bytes blob) = inr err ->
     AudioRecorder.getMp3Blob p (Some blob) = ([], inr (DecodeRejected err))) /\
  (forall (audioBlob : option Blob) (calls : list codec_call) (mp3 : Blob),
     AudioRecorder.getMp3Blob p audioBlob = (calls, inl mp3) ->
     exists sr frames,
       calls = NewEncoderCall 2 sr 128 :: frames ++ [FlushCall] /\
       Forall (fun c => is_encode c = true) frames /\
       bytes mp3 =
         concat (kept (run (Mp3Encoder 2 sr 128) (frames ++ [FlushCall])).2)).
Proof.
  split.
  - intros blob err Hdec. unfold AudioRecorder.getMp3Blob. by rewrite Hdec.
  - intros audioBlob calls mp3 Hrun.
    destruct (getMp3Blob_shape p audioBlob) as [[_ [e He]]|(sr & frames & Hc & Hall & Hb)].
    + rewrite Hrun in He. discriminate.
    + rewrite Hrun in Hc, Hb. cbn [fst snd] in *.
      exists sr, frames. split; [done|]. split; [done|]. by apply Hb.
Qed.

Lemma decode_failure_aborts_witness :
  @AudioRecorder.getMp3Blob counting_codec rejecting_platform
    (Some (mkBlob [82; 73; 70; 70] "audio/wav"))
  = ([], inr (DecodeRejected "Unable to decode audio data")).
Proof.
  exact (proj1 (decode_failure_aborts counting_codec rejecting_platform)
           (mkBlob [82; 73; 70; 70] "audio/wav") _ eq_refl).
Defined.

(** ** The recording state machine of AudioRecorder.tsx *)

(** C3, as stated, fails: [requestPermissionAndStart] has no guard.  On a
    stopped recording it issues a second device-access request, empties
    the sample buffers and ends in [recording]. *)
Lemma start_from_stopped_runs :
  let w := recorded decoding_platform in
  let w' := AudioRecorder.requestPermissionAndStart decoding_platform props w in
  AudioRecorder.status (AudioRecorder.state w) = AudioRecorder.stopped /\
  AudioRecorder.status (AudioRecorder.state w') = AudioRecorder.recording /\
  AudioRecorder.deviceRequests (AudioRecorder.outside w) = 1%nat /\
  AudioRecorder.deviceRequests (AudioRecorder.outside w') = 2%nat /\
  AudioRecorder.pcmBuffersRef (AudioRecorder.refs w) = [[Fin (1 # 2); Fin (-1 # 2)]] /\
  AudioRecorder.pcmBuffersRef (AudioRecorder.refs w') = [] /\
  w' <> w.
Proof. vm_compute. repeat split. discriminate. Qed.

(** C3, amended.  The component offers the start operation in the idle
    state and in no other: the start button is drawn only there and the
    imperative handle does not expose it.  The operation itself has no
    guard and no [InvalidState] failure: from any state it sets the
    status to [permission_pending] and issues one device-access request.
    It ends in [recording] when access is granted and the set-up of the
    capture does not throw; when access is refused or a call of the
    set-up throws it ends in [error] with the message
    "Microphone access denied: " followed by what was thrown, and after a
    grant the stream is kept in [mediaStreamRef] either way. *)
Theorem start_offered_only_when_idle (p : AudioRecorder.Platform)
    (props : AudioRecorder.Props) (w : AudioRecorder.World) :
  (In AudioRecorder.op_requestPermissionAndStart
      (AudioRecorder.offered props (AudioRecorder.state w))
   <-> AudioRecorder.status (AudioRecorder.state w) = AudioRecorder.idle) /\
  (let w1 := AudioRecorder.requestPermissionAndStart_request w in
   AudioRecorder.status (AudioRecorder.state w1) = AudioRecorder.permission_pending /\
   AudioRecorder.deviceRequests (AudioRecorder.outside w1)
     = S (AudioRecorder.deviceRequests (AudioRecorder.outside w)) /\
   AudioRecorder.refs w1 = AudioRecorder.refs w) /\
  (let w2 := AudioRecorder.requestPermissionAndStart p props w in
   AudioRecorder.deviceRequests (AudioRecorder.outside w2)
     = S (AudioRecorder.deviceRequests (AudioRecorder.outside w)) /\
   AudioRecorder.status (AudioRecorder.state w2) =
     match AudioRecorder.getUserMedia p, AudioRecorder.setup_failure p with
     | None, None => AudioRecorder.recording
     | _, _ => AudioRecorder.error
     end /\
   (AudioRecorder.getUserMedia p = None ->
    AudioRecorder.mediaStreamRef (AudioRecorder.refs w2)
    = Some (mkStream true)) /\
   (forall thrown : option string,
      AudioRecorder.getUserMedia p = Some thrown \/
      (AudioRecorder.getUserMedia p = None /\
       AudioRecorder.setup_failure p = Some thrown) ->
      AudioRecorder.errorMessage (AudioRecorder.state w2)
      = Some ("Microphone access denied: "
              ++ default "Microphone permission denied." thrown)%string)).
Proof.
  split; [|split].
  - unfold AudioRecorder.offered, AudioRecorder.rendered, AudioRecorder.handle.
    destruct (AudioRecorder.status (AudioRecorder.state w)) eqn:E; cbn.
    + split; [done|auto].
    + split; [|done]. intros [H|[H|[H|[H|[]]]]]; discriminate.
    + split; [|done]. intros [H|[H|[H|[H|[]]]]]; discriminate.
    + split; [|done].
      destruct (AudioRecorder.isProcessing _), (AudioRecorder.onSave props);
        cbn; intuition discriminate.
    + split; [|done]. intros [H|[H|[H|[]]]]; discriminate.
  - done.
  - cbv zeta. unfold AudioRecorder.requestPermissionAndStart,
      AudioRecorder.requestPermissionAndStart_resume,
      AudioRecorder.requestPermissionAndStart_request,
      AudioRecorder.setup_failure, AudioRecorder.start_failed,
      AudioRecorder.report.
    cbn.
    destruct (AudioRecorder.getUserMedia p) as [rej|]; cbn.
    + repeat split; try done.
      * by destruct (AudioRecorder.onError props).
      * intros thrown [[= <-]|[[=] _]]. by destruct rej.
    + destruct (AudioRecorder.window_MediaRecorder p),
        (AudioRecorder.setup_throws p) as [[[] m]|]; cbn;
        (repeat split; try done;
         try (by destruct (AudioRecorder.onError props));
         try (intros thrown [[=]|[_ [= <-]]]; by destruct m);
         try (intros thrown [[=]|[_ [=]]])).
Qed.

Lemma start_offered_only_when_idle_witness :
  let w :=
    AudioRecorder.requestPermissionAndStart contextless_platform props
      AudioRecorder.initial in
  AudioRecorder.status (AudioRecorder.state w) = AudioRecorder.error /\
  AudioRecorder.mediaStreamRef (AudioRecorder.refs w)
  = Some (mkStream true) /\
  AudioRecorder.errorMessage (AudioRecorder.state w)
  = Some "Microphone access denied: AudioContext is not supported"%string.
Proof.
  destruct (start_offered_only_when_idle contextless_platform props
              AudioRecorder.initial) as (_ & _ & _ & Hs & Hm & He).
  split; [exact Hs|]. split; [exact (Hm eq_refl)|].
  exact (He _ (or_intror (conj eq_refl eq_refl))).
Defined.

(** C4, as stated, fails for the wrappers: when the decoder rejects the
    recording, [handleSave] leaves the status [error], not [stopped]. *)
Lemma failed_save_sets_error :
  let w := recorded rejecting_platform in
  let w' := @AudioRecorder.handleSave counting_codec rejecting_platform props w in
  AudioRecorder.status (AudioRecorder.state w) = AudioRecorder.stopped /\
  AudioRecorder.status (AudioRecorder.state w') = AudioRecorder.error /\
  AudioRecorder.status (AudioRecorder.state w') <> AudioRecorder.stopped.
Proof. vm_compute. repeat split. discriminate. Qed.

(** C4, amended.  [getMp3Blob] itself only reads the state and reports a
    failure through its result.  The upload and save wrappers catch that
    failure: they set the status to [error] with the message of the
    failure and end processing, pass the message to the error observer if
    there is one, and leave the audio artifact, its URL and every ref as
    they were; nothing is saved or uploaded. *)
Theorem failed_encode_keeps_artifact (codec : Mp3Codec)
    (p : AudioRecorder.Platform) (props : AudioRecorder.Props)
    (w : AudioRecorder.World) (blob : Blob) (calls : list codec_call) (e : exn) :
  AudioRecorder.status (AudioRecorder.state w) = AudioRecorder.stopped ->
  AudioRecorder.audioBlob (AudioRecorder.state w) = Some blob ->
  AudioRecorder.getMp3Blob p (Some blob) = (calls, inr e) ->
  (is_Some (AudioRecorder.onUpload props) ->
   encode_failure_outcome props (message e) calls w
     (AudioRecorder.uploadMp3 p props w)) /\
  (is_Some (AudioRecorder.onSave props) ->
   encode_failure_outcome props (message e) calls w
     (AudioRecorder.handleSave p props w)).
Proof.
  intros Hst Hblob Hrun. split.
  - intros [upload Hup]. unfold AudioRecorder.uploadMp3.
    rewrite Hblob, Hup, Hrun. unfold encode_failure_outcome,
      AudioRecorder.failed, AudioRecorder.add_calls, AudioRecorder.report.
    cbn. rewrite Hblob.
    destruct (AudioRecorder.onError props); cbn; rewrite ?app_nil_r; repeat split.
  - intros [save Hsave]. unfold AudioRecorder.handleSave.
    rewrite Hblob, Hsave, Hrun. unfold encode_failure_outcome,
      AudioRecorder.failed, AudioRecorder.add_calls, AudioRecorder.report.
    cbn. rewrite Hblob.
    destruct (AudioRecorder.onError props); cbn; rewrite ?app_nil_r; repeat split.
Qed.

Lemma failed_encode_keeps_artifact_witness :
  let w := recorded rejecting_platform in
  encode_failure_outcome props "Unable to decode audio data" [] w
    (@AudioRecorder.handleSave counting_codec rejecting_platform props w).
Proof.
  refine (proj2 (failed_encode_keeps_artifact counting_codec rejecting_platform
            props (recorded rejecting_platform) _ []
            (DecodeRejected "Unable to decode audio data") _ _ _) _).
  - vm_compute. reflexivity.
  - vm_compute. reflexivity.
  - vm_compute. reflexivity.
  - vm_compute. eauto.
Defined.

(** *** Stopping *)

Lemma MediaRecorder_stop_idempotent (r : MediaRecorderObj) :
  MediaRecorder_stop (MediaRecorder_stop r) = MediaRecorder_stop r.
Proof. unfold MediaRecorder_stop. by destruct r as [[] q]. Qed.

Lemma MediaRecorder_stop_idle (r : MediaRecorderObj) :
  rstate r = rs_inactive -> MediaRecorder_stop r = r.
Proof. unfold MediaRecorder_stop. by intros ->. Qed.

Lemma AudioContext_suspend_idempotent (c : AudioContextObj) :
  AudioContext_suspend (AudioContext_suspend c) = AudioContext_suspend c.
Proof. unfold AudioContext_suspend. by destruct c as [[] sr]. Qed.

Lemma AudioRecorder_stopRecording_idempotent (p : AudioRecorder.Platform)
    (w : AudioRecorder.World) :
  AudioRecorder.stopRecording p (AudioRecorder.stopRecording p w)
  = AudioRecorder.stopRecording p w.
Proof.
  destruct w as [[st ab au em ip] [mr ach ctx ms sn pn pcm cm] o].
  destruct st; try reflexivity.
  destruct cm as [[]|].
  - destruct mr as [rec|]; [|reflexivity].
    unfold AudioRecorder.stopRecording. cbn.
    by rewrite MediaRecorder_stop_idempotent.
  - unfold AudioRecorder.stopRecording at 2.
    cbn -[AudioRecorder.buildWavFromFloat32].
    unfold AudioRecorder.handleRecordingStop.
    cbn -[AudioRecorder.buildWavFromFloat32].
    match goal with
    | |- context [AudioRecorder.buildWavFromFloat32 ?c ?sr] =>
        destruct (buildWavFromFloat32_layout c sr) as (blob & -> & _)
    end. reflexivity.
  - unfold AudioRecorder.stopRecording at 2.
    cbn -[AudioRecorder.buildWavFromFloat32].
    unfold AudioRecorder.handleRecordingStop.
    cbn -[AudioRecorder.buildWavFromFloat32].
    match goal with
    | |- context [AudioRecorder.buildWavFromFloat32 ?c ?sr] =>
        destruct (buildWavFromFloat32_layout c sr) as (blob & -> & _)
    end. reflexivity.
Qed.

Lemma AudioRecorder_stopRecording_noop (p : AudioRecorder.Platform)
    (w : AudioRecorder.World) :
  AudioRecorder.status (AudioRecorder.state w) <> AudioRecorder.recording ->
  AudioRecorder.stopRecording p w = w.
Proof.
  intros H. unfold AudioRecorder.stopRecording.
  by destruct (AudioRecorder.status (AudioRecorder.state w)).
Qed.

(** ** The VoiceMessageRecorder component *)

Lemma startRecording_phases (p : VMR.Platform) (w : VMR.World) :
  VMR.startRecording p w
  = VMR.startRecording_settled p (VMR.startRecording_begin p w).
Proof.
  unfold VMR.startRecording, VMR.startRecording_settled,
    VMR.startRecording_begin.
  by destruct (VMR.isAudioRecordingSupported p), (VMR.getUserMedia_grants p),
       (VMR.start_throws p).
Qed.

Lemma VMR_invariant_initial (p : VMR.Platform) : VMR.invariant p VMR.initial.
Proof.
  unfold VMR.invariant, VMR.fallback_released. cbn.
  destruct (VMR.isAudioRecordingSupported p); repeat split; done.
Qed.

Ltac vmr_cases :=
  repeat first
    [ match goal with
      | H : _ /\ _ |- _ => destruct H
      | H : is_Some _ |- _ => destruct H
      | H : true = true -> _ |- _ => specialize (H eq_refl)
      | H : false = true -> _ |- _ => clear H
      | |- _ /\ _ => split
      | |- is_Some (Some _) => eexists; reflexivity
      | H : Some _ = None |- _ => discriminate H
      | H : None = Some _ |- _ => discriminate H
      | H : true = false |- _ => discriminate H
      | H : false = true |- _ => discriminate H
      | |- _ -> _ => intro
      end
    | progress subst
    | progress cbn in * ];
  try done; try congruence; eauto.

Lemma VMR_invariant_handler (p : VMR.Platform) (e : VMR.event)
    (w : VMR.World) :
  VMR.invariant p w -> VMR.invariant p (VMR.handler p e w).
Proof.
  intros Hinv.
  destruct p as [sup andr grants0 throws0 sr0].
  destruct w as [[rec url err pul up fb mime] [mr rs ach ctx inp proc buf ws wsr] objs].
  unfold VMR.invariant, VMR.fallback_released in *.
  cbn -[VMR.encodeWAV] in *.
  destruct e as [|grants throws sr|thrower sr| | |file|data|frame| |msg| |msg|frame];
    cbn -[VMR.encodeWAV VMR.stopRecording].
  - (* start, up to the await *)
    unfold VMR.startRecording_begin. cbn. destruct sup; vmr_cases; auto.
  - (* the request settles *)
    unfold VMR.startRecording_settled. cbn.
    destruct sup, grants, throws; cbn; vmr_cases; auto.
  - (* the fallback set-up throws *)
    destruct sup; [done|]. unfold VMR.startRecording_setup_throws.
    destruct thrower; cbn; vmr_cases.
  - (* stop *)
    unfold VMR.stopRecording. cbn -[VMR.encodeWAV].
    destruct sup; cbn -[VMR.encodeWAV] in *.
    + destruct Hinv as (Hp & -> & (-> & -> & -> & ->)). cbn.
      destruct mr; vmr_cases.
    + destruct Hinv as (Hp & -> & Hrec).
      destruct fb, ctx, proc, inp, ws; cbn -[VMR.encodeWAV];
        rewrite ?encodeWAV_layout;
        cbn [VMR.state VMR.refs VMR.recording VMR.pulse VMR.mediaRecorderRef
             VMR.audioContextRef VMR.procRef VMR.inputRef VMR.wavStreamRef];
        (split; [done|]); (split; [done|]); intros; discriminate.
  - (* reset *)
    unfold VMR.reset. cbn. destruct sup; vmr_cases.
  - (* upload *)
    unfold VMR.handleFileUpload. cbn. destruct sup; vmr_cases; auto.
  - (* dataavailable *)
    unfold VMR.ondataavailable. cbn. destruct mr; cbn; destruct sup;
      vmr_cases; auto.
  - (* audioprocess *)
    unfold VMR.onaudioprocess. cbn. destruct proc; cbn; destruct sup;
      vmr_cases; auto.
  - (* stop event *)
    unfold VMR.onstop. cbn. destruct mr as [[rst q]|]; cbn;
      [destruct q; cbn|]; destruct sup; vmr_cases; auto.
  - (* error event *)
    unfold VMR.onerror. cbn. destruct mr as [[rst q]|]; cbn;
      destruct sup; vmr_cases; auto.
  - (* stop event of a replaced recorder *)
    unfold VMR.detached_onstop. cbn. destruct mr; cbn; destruct sup;
      vmr_cases; auto.
  - (* error event of a replaced recorder *)
    unfold VMR.detached_onerror. cbn. destruct mr; cbn; destruct sup;
      vmr_cases; auto.
  - (* frame of a replaced processor *)
    destruct sup; [done|]. unfold VMR.detached_onaudioprocess. cbn.
    vmr_cases; auto.
Qed.

Lemma VMR_reachable_invariant (p : VMR.Platform) (w : VMR.World) :
  VMR.reachable p w -> VMR.invariant p w.
Proof.
  intros [es ->]. unfold VMR.run_events.
  induction es as [|e es IH] using rev_ind; [apply VMR_invariant_initial|].
  rewrite foldl_app. cbn [foldl]. by apply VMR_invariant_handler.
Qed.

Lemma VMR_stopRecording_noop (p : VMR.Platform) (w : VMR.World) :
  VMR.invariant p w -> VMR.recording (VMR.state w) = false ->
  VMR.recorder_idle (VMR.mediaRecorderRef (VMR.refs w)) ->
  ~ VMR.fallback_engaged w ->
  VMR.stopRecording w = w.
Proof.
  intros Hinv Hrec Hidle Hfb.
  destruct w as [[rec url err pul up fb mime] [mr rs ach ctx inp proc buf ws wsr] objs].
  unfold VMR.invariant, VMR.fallback_engaged, VMR.recorder_idle in *.
  cbn in *. subst rec. destruct Hinv as [-> _].
  unfold VMR.stopRecording. cbn -[VMR.encodeWAV].
  assert (Hmr : MediaRecorder_stop <$> mr = mr).
  { destruct mr as [r|]; cbn; [|done]. by rewrite MediaRecorder_stop_idle. }
  destruct fb, ctx, proc, inp, ws; cbn -[VMR.encodeWAV]; rewrite ?Hmr;
    try done.
  exfalso. apply Hfb. repeat split; eauto.
Qed.

Lemma VMR_stopRecording_idempotent (p : VMR.Platform) (w : VMR.World) :
  VMR.invariant p w ->
  VMR.stopRecording (VMR.stopRecording w) = VMR.stopRecording w.
Proof.
  intros Hinv.
  destruct w as [[rec url err pul up fb mime] [mr rs ach ctx inp proc buf ws wsr] objs].
  unfold VMR.invariant, VMR.fallback_released in Hinv.
  cbn in *. destruct Hinv as [-> Hinv].
  destruct (VMR.isAudioRecordingSupported p).
  - destruct Hinv as (-> & (-> & -> & -> & ->)).
    unfold VMR.stopRecording. cbn.
    destruct mr as [r|]; cbn; [|done]. by rewrite MediaRecorder_stop_idempotent.
  - destruct Hinv as (-> & _).
    destruct fb, ctx, proc, inp, ws;
      try (unfold VMR.stopRecording; cbn; reflexivity).
    unfold VMR.stopRecording at 2. cbn -[VMR.encodeWAV].
    rewrite encodeWAV_layout. reflexivity.
Qed.

Lemma fallback_recorded_reachable :
  VoiceMessageRecorder.reachable fallback_platform fallback_recorded.
Proof.
  exists [VMR.ev_start; VMR.ev_getUserMedia_settled true false 44100;
          VMR.ev_audioprocess [Fin (1 # 2); Fin (-1 # 2)]; VMR.ev_stop].
  unfold fallback_recorded. rewrite startRecording_phases. reflexivity.
Defined.

(** C6, as stated, fails for the VoiceMessageRecorder component, whose
    [stopRecording] has no guard of its own.  After a finished recording:
    Start is clicked, Delete is clicked while device access is pending,
    access is granted, Stop is clicked, and Start is clicked once more.
    Every click is on a control that is drawn and enabled.  The Stop
    click released nothing, as the Delete had cleared the fallback flag;
    the component is then not recording while it holds a running context,
    connected nodes and a live stream, and [stopRecording] there is not
    a no-op: it tears the graph down and publishes a second file. *)
Lemma stop_outside_recording_tears_down :
  let p := fallback_platform in
  let after k :=
    VoiceMessageRecorder.run_events p (take k interrupted_restart_events)
      VoiceMessageRecorder.initial in
  (VoiceMessageRecorder.recording (VoiceMessageRecorder.state (after 4%nat))
   = false /\
   VoiceMessageRecorder.delete_shown p (after 5%nat) = true /\
   VoiceMessageRecorder.recording (VoiceMessageRecorder.state (after 7%nat))
   = true /\
   VoiceMessageRecorder.button_disabled (after 7%nat) = false /\
   VoiceMessageRecorder.recording (VoiceMessageRecorder.state (after 8%nat))
   = false) /\
  (VoiceMessageRecorder.audioContextRef
     (VoiceMessageRecorder.refs (after 8%nat))
   = Some (mkContext ctx_running 44100) /\
   VoiceMessageRecorder.procRef (VoiceMessageRecorder.refs (after 8%nat))
   = Some (mkNode true) /\
   VoiceMessageRecorder.wavStreamRef
     (VoiceMessageRecorder.refs (after 8%nat))
   = Some (mkStream true)) /\
  VoiceMessageRecorder.reachable p interrupted_restart /\
  VoiceMessageRecorder.recording
    (VoiceMessageRecorder.state interrupted_restart) = false /\
  VoiceMessageRecorder.stopRecording interrupted_restart
  <> interrupted_restart /\
  VoiceMessageRecorder.audioContextRef
    (VoiceMessageRecorder.refs
       (VoiceMessageRecorder.stopRecording interrupted_restart)) = None /\
  VoiceMessageRecorder.audioUrl
    (VoiceMessageRecorder.state
       (VoiceMessageRecorder.stopRecording interrupted_restart))
  = Some 1%nat.
Proof.
  cbv zeta. split; [vm_compute; by repeat split|].
  split; [vm_compute; by repeat split|].
  split; [by exists interrupted_restart_events|].
  split; [by vm_compute|].
  split; [vm_compute; discriminate|].
  split; by vm_compute.
Qed.

(** C6, amended.  In AudioRecorder.tsx, [stopRecording] returns at once
    unless the status is [recording], and calling it a second time
    changes nothing more: the state, the artifact and every object the
    refs hold are as one call leaves them.  In the VoiceMessageRecorder
    component, in every state it can reach, calling [stopRecording]
    twice in a row leaves what one call leaves; outside [recording] the
    call changes nothing when the recorder, if there is one, is inactive
    and the fallback is not engaged (the fallback flag set with the
    context, the nodes and the stream held). *)
Theorem stop_twice_is_stop_once :
  (forall (p : AudioRecorder.Platform) (w : AudioRecorder.World),
     AudioRecorder.stopRecording p (AudioRecorder.stopRecording p w)
       = AudioRecorder.stopRecording p w /\
     (AudioRecorder.status (AudioRecorder.state w) <> AudioRecorder.recording ->
      AudioRecorder.stopRecording p w = w)) /\
  (forall (p : VoiceMessageRecorder.Platform) (w : VoiceMessageRecorder.World),
     VoiceMessageRecorder.reachable p w ->
     VoiceMessageRecorder.stopRecording (VoiceMessageRecorder.stopRecording w)
       = VoiceMessageRecorder.stopRecording w /\
     (VoiceMessageRecorder.recording (VoiceMessageRecorder.state w) = false ->
      VoiceMessageRecorder.recorder_idle
        (VoiceMessageRecorder.mediaRecorderRef
           (VoiceMessageRecorder.refs w)) ->
      ~ VoiceMessageRecorder.fallback_engaged w ->
      VoiceMessageRecorder.stopRecording w = w)).
Proof.
  split.
  - intros p w. split.
    + apply AudioRecorder_stopRecording_idempotent.
    + apply AudioRecorder_stopRecording_noop.
  - intros p w Hreach. apply VMR_reachable_invariant in Hreach. split.
    + by apply (VMR_stopRecording_idempotent p).
    + by apply (VMR_stopRecording_noop p).
Qed.

Lemma stop_twice_is_stop_once_witness :
  VoiceMessageRecorder.reachable fallback_platform fallback_recorded /\
  VoiceMessageRecorder.stopRecording fallback_recorded = fallback_recorded /\
  AudioRecorder.stopRecording decoding_platform (recorded decoding_platform)
    = recorded decoding_platform.
Proof.
  split; [exact fallback_recorded_reachable|]. split.
  - apply (proj2 stop_twice_is_stop_once fallback_platform fallback_recorded
             fallback_recorded_reachable).
    + reflexivity.
    + vm_compute. exact I.
    + intros H. vm_compute in H. destruct H as (_ & [c Hc] & _).
      discriminate Hc.
  - apply (proj1 stop_twice_is_stop_once decoding_platform
             (recorded decoding_platform)).
    vm_compute. discriminate.
Defined.

(** * More of the code

    Properties of the functions the claims leave out, and of the ones
    they cite beyond what the claims say. *)

(** ** More on the WAV encoder of AudioRecorder.tsx *)

(** X1.  Whatever the samples, the format chunk written by
    [buildWavFromFloat32] says: chunk size 16, PCM (format 1), the given
    sample rate, a byte rate of twice the sample rate and a block
    alignment of 2, as long as twice the sample rate fits in 32 bits. *)
Theorem wav_format_chunk (chunks : list (list number)) (sampleRate : Z) :
  0 <= sampleRate -> sampleRate * 2 < 2 ^ 32 ->
  exists blob,
    AudioRecorder.buildWavFromFloat32 chunks sampleRate = Some blob /\
    read_le (field (bytes blob) 16 4) = 16 /\
    read_le (field (bytes blob) 20 2) = 1 /\
    read_le (field (bytes blob) 24 4) = sampleRate /\
    read_le (field (bytes blob) 28 4) = sampleRate * 2 /\
    read_le (field (bytes blob) 32 2) = 2.
Proof.
  intros Hs Hs2. eexists. split; [apply buildWav_layout|]. cbn [bytes].
  assert (Hread : forall v, 0 <= v < 2 ^ 32 ->
            read_le (le_bytes 4 (v mod 2 ^ 32)) = v).
  { intros v Hv. rewrite Z.mod_small by done. cbn [le_bytes read_le fold_right].
    change (2 ^ 32) with 4294967296 in Hv.
    pose proof (Z.div_mod v 256 ltac:(lia)).
    pose proof (Z.div_mod (v / 256) 256 ltac:(lia)).
    pose proof (Z.div_mod (v / 256 / 256) 256 ltac:(lia)).
    assert (v / 256 / 256 / 256 < 256)
      by (repeat (apply Z.div_lt_upper_bound; [lia|]); lia).
    assert (0 <= v / 256 / 256 / 256) by (repeat apply Z.div_pos; lia).
    rewrite (Z.mod_small (v / 256 / 256 / 256)) by lia. lia. }
  unfold wav_header, wav_header_fields, field.
  repeat split; try reflexivity.
  - change (read_le (le_bytes 4 (sampleRate mod 2 ^ 32)) = sampleRate).
    rewrite Hread; lia.
  - change (read_le (le_bytes 4 ((sampleRate * 2) mod 2 ^ 32)) = sampleRate * 2).
    rewrite Hread; lia.
Qed.

Lemma wav_format_chunk_witness :
  exists blob,
    AudioRecorder.buildWavFromFloat32 [[Fin (1 # 4)]; []] 48000 = Some blob /\
    read_le (field (bytes blob) 16 4) = 16 /\
    read_le (field (bytes blob) 20 2) = 1 /\
    read_le (field (bytes blob) 24 4) = 48000 /\
    read_le (field (bytes blob) 28 4) = 48000 * 2 /\
    read_le (field (bytes blob) 32 2) = 2.
Proof.
  apply (wav_format_chunk [[Fin (1 # 4)]; []] 48000); [lia|reflexivity].
Defined.

(** X2.  Only the samples matter to [buildWavFromFloat32], not how they
    are cut into chunks: two chunk lists with the same samples in the
    same order give the same file. *)
Theorem wav_chunking_irrelevant (chunks chunks' : list (list number))
    (sampleRate : Z) :
  concat chunks = concat chunks' ->
  AudioRecorder.buildWavFromFloat32 chunks sampleRate
  = AudioRecorder.buildWavFromFloat32 chunks' sampleRate.
Proof. intros H. by rewrite !buildWav_layout, H. Qed.

Lemma wav_chunking_irrelevant_witness :
  AudioRecorder.buildWavFromFloat32 [[Fin (1 # 2); NaN]; []; [PosInf]] 8000
  = AudioRecorder.buildWavFromFloat32 [[Fin (1 # 2)]; [NaN; PosInf]] 8000.
Proof. apply wav_chunking_irrelevant. reflexivity. Defined.

Lemma trunc_nonneg (q : Q) : (0 <= q)%Q -> trunc q = Qfloor q.
Proof.
  destruct q as [a b]. unfold Qle, trunc, Qfloor. cbn [Qnum Qden].
  intros H. apply Z.quot_div_nonneg; lia.
Qed.

Lemma trunc_nonpos (q : Q) : (q <= 0)%Q -> trunc q = Qceiling q.
Proof.
  destruct q as [a b]. unfold Qle, trunc, Qceiling, Qfloor, Qopp. cbn [Qnum Qden].
  intros H. replace a with (- - a) at 1 by lia.
  rewrite Z.quot_opp_l by lia. f_equal. apply Z.quot_div_nonneg; lia.
Qed.

Lemma trunc_le (p q : Q) : (p <= q)%Q -> trunc p <= trunc q.
Proof.
  intros H. destruct (Qlt_le_dec p 0) as [Hp|Hp].
  - destruct (Qlt_le_dec q 0) as [Hq|Hq].
    + rewrite !trunc_nonpos by (by apply Qlt_le_weak).
      by apply Qceiling_resp_le.
    + rewrite (trunc_nonpos p) by (by apply Qlt_le_weak).
      rewrite (trunc_nonneg q) by done.
      etrans; [apply (Qceiling_resp_le p 0); by apply Qlt_le_weak|].
      apply (Qfloor_resp_le 0 q Hq).
  - rewrite !trunc_nonneg; [by apply Qfloor_resp_le| |done].
    by eapply Qle_trans.
Qed.

Lemma quantized_neg_range (q : Q) :
  (-1 < q)%Q -> (q < 0)%Q -> -32768 <= quantized (Fin q) <= 0.
Proof.
  intros H1 H2. rewrite quantized_neg by done.
  apply trunc_small; [| |lia]; destruct q as [a b]; q2z; lia.
Qed.

Lemma quantized_nonneg_range (q : Q) :
  (0 <= q)%Q -> (q < 1)%Q -> 0 <= quantized (Fin q) <= 32767.
Proof.
  intros H1 H2. rewrite quantized_nonneg by done.
  apply trunc_small; [| |lia]; destruct q as [a b]; q2z; lia.
Qed.

(** X3.  The quantisation of [buildWavFromFloat32] keeps the order of the
    samples and never leaves the 16-bit range: a louder sample is never
    stored as a smaller integer, the sign is kept, everything from 1 up
    (and +Infinity) is stored as 32767, everything from -1 down (and
    -Infinity) as -32768, and [NaN] as 0. *)
Theorem wav_quantization_monotone (p q : Q) :
  (p <= q)%Q ->
  ToInt16 (AudioRecorder.quantize (Fin p))
    <= ToInt16 (AudioRecorder.quantize (Fin q)) /\
  -32768 <= ToInt16 (AudioRecorder.quantize (Fin p)) <= 32767 /\
  ((0 <= p)%Q -> 0 <= ToInt16 (AudioRecorder.quantize (Fin p))) /\
  ((p <= 0)%Q -> ToInt16 (AudioRecorder.quantize (Fin p)) <= 0) /\
  ((1 <= p)%Q -> ToInt16 (AudioRecorder.quantize (Fin p)) = 32767) /\
  ((p <= -1)%Q -> ToInt16 (AudioRecorder.quantize (Fin p)) = -32768) /\
  ToInt16 (AudioRecorder.quantize PosInf) = 32767 /\
  ToInt16 (AudioRecorder.quantize NegInf) = -32768 /\
  ToInt16 (AudioRecorder.quantize NaN) = 0.
Proof.
  intros Hpq. rewrite !quantized_eq.
  assert (Hregion : forall r : Q,
    ((r <= -1)%Q /\ quantized (Fin r) = -32768) \/
    ((-1 < r)%Q /\ (r < 0)%Q /\ quantized (Fin r) = trunc (r * inject_Z 32768)
       /\ -32768 <= quantized (Fin r) <= 0) \/
    ((0 <= r)%Q /\ (r < 1)%Q /\ quantized (Fin r) = trunc (r * inject_Z 32767)
       /\ 0 <= quantized (Fin r) <= 32767) \/
    ((1 <= r)%Q /\ quantized (Fin r) = 32767)).
  { intros r. destruct (Qlt_le_dec (-1) r) as [H1|H1];
      [|left; split; [done|by apply quantized_below]].
    destruct (Qlt_le_dec r 0) as [H2|H2].
    { right; left. repeat split; try done;
        [by apply quantized_neg|apply quantized_neg_range..]; done. }
    destruct (Qlt_le_dec r 1) as [H3|H3].
    { right; right; left. repeat split; try done;
        [by apply quantized_nonneg|apply quantized_nonneg_range..]; done. }
    right; right; right. split; [done|by apply quantized_above]. }
  assert (Hscale : forall k : Z, 0 < k ->
            (p * inject_Z k <= q * inject_Z k)%Q).
  { intros k Hk. apply Qmult_le_compat_r; [done|].
    unfold Qle. cbn. lia. }
  split; [|split; [|split; [|split; [|split; [|split]]]]].
  - destruct (Hregion p) as [[Hp Ep]|[(Hp1 & Hp2 & Ep & Rp)|[(Hp1 & Hp2 & Ep & Rp)|[Hp Ep]]]];
    destruct (Hregion q) as [[Hq Eq]|[(Hq1 & Hq2 & Eq & Rq)|[(Hq1 & Hq2 & Eq & Rq)|[Hq Eq]]]];
    try lia;
    try (exfalso; destruct p as [a b], q as [c d]; q2z; nia).
    + rewrite Ep, Eq. apply trunc_le, Hscale. lia.
    + rewrite Ep, Eq. apply trunc_le, Hscale. lia.
  - destruct (Hregion p) as [[Hp Ep]|[(Hp1 & Hp2 & Ep & Rp)|[(Hp1 & Hp2 & Ep & Rp)|[Hp Ep]]]]; lia.
  - intros H0. destruct (Hregion p) as [[Hp Ep]|[(Hp1 & Hp2 & Ep & Rp)|[(Hp1 & Hp2 & Ep & Rp)|[Hp Ep]]]];
      try lia; exfalso; destruct p as [a b]; q2z; lia.
  - intros H0. destruct (Hregion p) as [[Hp Ep]|[(Hp1 & Hp2 & Ep & Rp)|[(Hp1 & Hp2 & Ep & Rp)|[Hp Ep]]]];
      try lia.
    + assert (Hz : (p == 0)%Q) by (by apply Qle_antisym).
      rewrite Ep. destruct p as [a b]. rewrite trunc_scale. q2z.
      assert (a = 0) as -> by lia. done.
    + exfalso; destruct p as [a b]; q2z; lia.
  - apply quantized_above.
  - apply quantized_below.
  - repeat split.
Qed.

Lemma wav_quantization_monotone_witness :
  ToInt16 (AudioRecorder.quantize (Fin (-3 # 4)))
    <= ToInt16 (AudioRecorder.quantize (Fin (2 # 3))).
Proof.
  assert (H : (-3 # 4 <= 2 # 3)%Q) by (unfold Qle; cbn; lia).
  exact (proj1 (wav_quantization_monotone (-3 # 4) (2 # 3) H)).
Defined.

Lemma quantized_dequantize_32768 (v : Z) :
  -32768 <= v <= 32767 ->
  quantized (Fin (dequantize_32768 v)) = if 0 <? v then v - 1 else v.
Proof.
  intros Hv. unfold dequantize_32768.
  destruct (Z.ltb_spec 0 v) as [Hpos|Hneg].
  - rewrite quantized_nonneg by (unfold Qlt, Qle; cbn; lia).
    rewrite trunc_scale.
    change (Z.pos 32768) with 32768.
    rewrite Z.quot_div_nonneg by lia.
    symmetry. apply (Z.div_unique _ _ _ (32768 - v)); lia.
  - destruct (Z.eq_dec v 0) as [->|Hz]; [reflexivity|].
    destruct (Z.eq_dec v (-32768)) as [->|Hne]; [reflexivity|].
    rewrite quantized_neg by (unfold Qlt; cbn; lia).
    rewrite trunc_scale. apply Z.quot_mul. lia.
Qed.

(** X4.  Encoding again what a decoder read lowers the positive samples
    by one step.  Take a file written by [buildWavFromFloat32], read its
    samples with the usual scale (the 16-bit value divided by 32768, a
    value a [Float32Array] holds exactly) and encode them again at the
    same rate: the new file has the same length and the same header,
    zero and negative samples come back as they were, and every positive
    sample comes back one lower. *)
Theorem wav_reencoding_lowers_positive_samples (chunks : list (list number))
    (sampleRate : Z) (blob : Blob) :
  AudioRecorder.buildWavFromFloat32 chunks sampleRate = Some blob ->
  exists blob',
    AudioRecorder.buildWavFromFloat32
      [map (fun v => Fin (dequantize_32768 v)) (decode_samples (bytes blob))]
      sampleRate
    = Some blob' /\
    length (bytes blob') = length (bytes blob) /\
    take 44 (bytes blob') = take 44 (bytes blob) /\
    decode_samples (bytes blob')
    = map (fun v => if 0 <? v then v - 1 else v)
        (decode_samples (bytes blob)).
Proof.
  rewrite buildWav_layout. intros E.
  apply (f_equal (fun o => from_option bytes [] o)) in E as Hb.
  cbn [from_option bytes] in Hb. rewrite <- Hb. clear E Hb blob.
  eexists. split; [apply buildWav_layout|]. cbn [bytes concat].
  rewrite !decode_samples_layout, app_nil_r, !length_map.
  split; [|split].
  - rewrite !length_app, !wav_header_length. f_equal.
    induction (concat chunks) as [|x xs IH]; [done|].
    cbn [map flat_map]. rewrite !length_app, IH. f_equal.
  - by rewrite !take_app_length'
      by apply (wav_header_length (Z.of_nat (length (concat chunks)))
                  sampleRate).
  - rewrite !map_map. apply map_ext. intros x. cbn.
    apply quantized_dequantize_32768.
    pose proof (quantized_range x). lia.
Qed.

Lemma wav_reencoding_lowers_positive_samples_witness :
  exists blob blob',
    AudioRecorder.buildWavFromFloat32 [[Fin (1 # 4); Fin (-3 # 4)]] 44100
      = Some blob /\
    AudioRecorder.buildWavFromFloat32
      [map (fun v => Fin (dequantize_32768 v)) (decode_samples (bytes blob))]
      44100
    = Some blob' /\
    decode_samples (bytes blob) = [8191; -24576] /\
    decode_samples (bytes blob') = [8190; -24576].
Proof.
  destruct (AudioRecorder.buildWavFromFloat32 [[Fin (1 # 4); Fin (-3 # 4)]] 44100)
    as [blob|] eqn:E; [|vm_compute in E; discriminate E].
  destruct (wav_reencoding_lowers_positive_samples _ _ blob E)
    as (blob' & E' & _ & _ & Hd).
  exists blob, blob'. split; [reflexivity|]. split; [exact E'|].
  assert (Hb : decode_samples (bytes blob) = [8191; -24576]).
  { vm_compute in E. injection E as <-. vm_compute. reflexivity. }
  split; [exact Hb|]. rewrite Hd, Hb. reflexivity.
Defined.

(** ** The component of AudioRecorder.tsx along every sequence of events *)

Lemma run_events_app `{Mp3Codec} (props : AR.Props) (es es' : list AR.event)
    (pg : AR.Page) :
  AR.run_events props (es ++ es') pg
  = AR.run_events props es' (AR.run_events props es pg).
Proof. unfold AR.run_events. by rewrite foldl_app. Qed.

Lemma rerender_same (pg : AR.Page) :
  AR.rerender (AR.audioURL (AR.state (AR.world pg))) pg = pg.
Proof. unfold AR.rerender. by rewrite decide_True. Qed.

Lemma dispatch_same `{Mp3Codec} (props : AR.Props) (pg : AR.Page)
    (e : AR.event) :
  AR.audioURL (AR.state (AR.world (AR.handler props e pg)))
  = AR.audioURL (AR.state (AR.world pg)) ->
  AR.dispatch props pg e = AR.handler props e pg.
Proof. intros E. unfold AR.dispatch, AR.rerender. by rewrite decide_True. Qed.

Lemma dispatch_changed `{Mp3Codec} (props : AR.Props) (pg : AR.Page)
    (e : AR.event) :
  AR.audioURL (AR.state (AR.world (AR.handler props e pg)))
  <> AR.audioURL (AR.state (AR.world pg)) ->
  AR.dispatch props pg e
  = AR.cleanup (AR.audioURL (AR.state (AR.world pg))) (AR.handler props e pg).
Proof. intros E. unfold AR.dispatch, AR.rerender. by rewrite decide_False. Qed.

Lemma run_events_snoc `{Mp3Codec} (props : AR.Props) (es : list AR.event)
    (e : AR.event) (pg : AR.Page) :
  AR.run_events props (es ++ [e]) pg
  = AR.dispatch props (AR.run_events props es pg) e.
Proof. unfold AR.run_events. by rewrite foldl_app. Qed.

Lemma page_reachable_ind' `{Mp3Codec} (props : AR.Props)
    (P : AR.Page -> Prop) :
  P AR.initial_page ->
  (forall pg e, P pg -> P (AR.dispatch props pg e)) ->
  forall pg, AR.page_reachable props pg -> P pg.
Proof.
  intros H0 Hstep pg [es ->].
  induction es as [|e es IH] using rev_ind; [done|].
  rewrite run_events_snoc. by apply Hstep.
Qed.


Lemma keeps_artifact_refl (w : AR.World) : keeps_artifact w w.
Proof. repeat split; auto. Qed.

Lemma handleRecordingStop_artifact (p : AR.Platform) (w w0 : AR.World) :
  AR.state w0 = AR.state w -> AR.outside w0 = AR.outside w ->
  keeps_artifact w (AR.handleRecordingStop p w0) \/
  stores_artifact w (AR.handleRecordingStop p w0).
Proof.
  intros Hs Ho. unfold AR.handleRecordingStop.
  destruct (AR.captureModeRef (AR.refs w0)) as [[|]|].
  - right. unfold stores_artifact, AR.finish. cbn. rewrite Ho. eauto.
  - match goal with
    | |- context [AR.buildWavFromFloat32 ?c ?sr] =>
        destruct (AR.buildWavFromFloat32 c sr)
    end.
    + right. unfold stores_artifact, AR.finish. cbn. rewrite Ho. eauto.
    + left. unfold keeps_artifact. rewrite Hs, Ho. repeat split; auto.
  - match goal with
    | |- context [AR.buildWavFromFloat32 ?c ?sr] =>
        destruct (AR.buildWavFromFloat32 c sr)
    end.
    + right. unfold stores_artifact, AR.finish. cbn. rewrite Ho. eauto.
    + left. unfold keeps_artifact. rewrite Hs, Ho. repeat split; auto.
Qed.

Lemma stopRecording_artifact (p : AR.Platform) (w : AR.World) :
  keeps_artifact w (AR.stopRecording p w) \/
  stores_artifact w (AR.stopRecording p w).
Proof.
  unfold AR.stopRecording.
  destruct (AR.status (AR.state w)); try (left; apply keeps_artifact_refl).
  destruct (AR.captureModeRef (AR.refs w)) as [[|]|].
  - destruct (AR.mediaRecorderRef (AR.refs w));
      left; repeat split; auto.
  - by apply handleRecordingStop_artifact.
  - by apply handleRecordingStop_artifact.
Qed.

Ltac keep :=
  unfold keeps_artifact, AR.report; cbn;
  repeat match goal with
         | |- context [AR.onError ?p] => destruct (AR.onError p)
         end;
  cbn; repeat split; eauto 7.

Lemma failed_artifact (props : AR.Props) (msg : string) (w w0 : AR.World) :
  AR.audioBlob (AR.state w0) = AR.audioBlob (AR.state w) ->
  AR.audioURL (AR.state w0) = AR.audioURL (AR.state w) ->
  AR.objectURLs (AR.outside w0) = AR.objectURLs (AR.outside w) ->
  keeps_artifact w (AR.failed props msg w0).
Proof. intros Hb Hu Ho. unfold AR.failed. keep. Qed.

Lemma world_handler_artifact `{Mp3Codec} (props : AR.Props) (e : AR.event)
    (pg : AR.Page) :
  let w' := AR.world (AR.handler props e pg) in
  (keeps_artifact (AR.world pg) w' /\
   AR.revoked (AR.handler props e pg) = AR.revoked pg) \/
  (stores_artifact (AR.world pg) w' /\
   AR.revoked (AR.handler props e pg) = AR.revoked pg) \/
  (e = AR.ev_reset).
Proof.
  cbv zeta. destruct e; cbn [AR.handler AR.on_world AR.on_playback AR.world AR.revoked];
    try (left; split; [apply keeps_artifact_refl|done]); try (by right; right).
  - left. split; [|done]. unfold AR.checkBrowserSupport.
    destruct isSecureContext, hasGetUserMedia; keep.
  - left. split; [|done]. keep.
  - left. split; [|done].
    unfold AR.requestPermissionAndStart_resume, AR.start_failed.
    destruct (AR.getUserMedia p) as [rej|]; [keep|].
    destruct (AR.window_MediaRecorder p),
      (AR.setup_throws p) as [[[] thrown]|]; keep.
  - left. split; [|done]. unfold AR.ondataavailable.
    destruct data; keep.
  - left. split; [|done]. keep.
  - unfold AR.onstop.
    destruct (AR.mediaRecorderRef (AR.refs (AR.world pg))) as [rec|];
      [|left; split; [apply keeps_artifact_refl|done]].
    destruct (stop_event_queued rec);
      [|left; split; [apply keeps_artifact_refl|done]].
    destruct (handleRecordingStop_artifact p (AR.world pg)
                (AR.mkWorld (AR.state (AR.world pg))
                   (AR.mkRefs (Some (mkRecorder (rstate rec) false))
                      (AR.audioChunksRef (AR.refs (AR.world pg)))
                      (AR.audioContextRef (AR.refs (AR.world pg)))
                      (AR.mediaStreamRef (AR.refs (AR.world pg)))
                      (AR.sourceNodeRef (AR.refs (AR.world pg)))
                      (AR.processorRef (AR.refs (AR.world pg)))
                      (AR.pcmBuffersRef (AR.refs (AR.world pg)))
                      (AR.captureModeRef (AR.refs (AR.world pg))))
                   (AR.outside (AR.world pg))) eq_refl eq_refl); auto.
  - destruct (handleRecordingStop_artifact p (AR.world pg) (AR.world pg)
                eq_refl eq_refl); auto.
  - destruct (stopRecording_artifact p (AR.world pg)); auto.
  - unfold AR.autoStop.
    destruct (AR.status (AR.state (AR.world pg))), maxDurationSeconds as [m|];
      try (left; split; [apply keeps_artifact_refl|done]).
    destruct (falsy m); [left; split; [apply keeps_artifact_refl|done]|].
    destruct (greaterEqual (ofZ elapsedSec) m);
      [|left; split; [apply keeps_artifact_refl|done]].
    destruct (stopRecording_artifact p (AR.world pg)); auto.
  - left. split; [|done]. unfold AR.uploadMp3.
    destruct (AR.audioBlob (AR.state (AR.world pg))) as [blob|] eqn:Eb;
      [|apply keeps_artifact_refl].
    destruct (AR.onUpload props) as [upload|]; [|apply keeps_artifact_refl].
    destruct (AR.getMp3Blob p (Some blob)) as [calls [mp3|e]].
    + destruct (upload _).
      * by apply failed_artifact.
      * keep.
    + by apply failed_artifact.
  - left. split; [|done]. unfold AR.handleSave.
    destruct (AR.audioBlob (AR.state (AR.world pg))) as [blob|] eqn:Eb;
      [|apply keeps_artifact_refl].
    destruct (AR.onSave props) as [save|]; [|apply keeps_artifact_refl].
    destruct (AR.getMp3Blob p (Some blob)) as [calls [mp3|e]].
    + destruct (save _).
      * by apply failed_artifact.
      * keep.
    + by apply failed_artifact.
  - left. split; [|done]. keep.
Qed.

Lemma artifact_invariant_initial : artifact_invariant AR.initial_page.
Proof.
  unfold artifact_invariant. cbn. repeat split; try done.
  - lia.
  - intros [H|H]; [by apply elem_of_nil in H|done].
Qed.

Lemma artifact_invariant_dispatch `{Mp3Codec} (props : AR.Props)
    (pg : AR.Page) (e : AR.event) :
  artifact_invariant pg -> artifact_invariant (AR.dispatch props pg e).
Proof.
  intros (Hbu & Hstop & Herr & Hidle & Hurls & Hfresh).
  unfold AR.dispatch.
  destruct (world_handler_artifact props e pg)
    as [[(Kb & Ku & Ko & Ks) Hr]|[[(Ss & Sb & Su & So) Hr]| ->]].
  - unfold AR.rerender. rewrite decide_True by done.
    unfold artifact_invariant. rewrite Kb, Ku, Ko, Hr.
    split; [done|]. split.
    { intros E. destruct Ks as [[Es _]|[Es|[Es|[Es _]]]]; try congruence.
      apply Hstop. congruence. }
    split.
    { intros E. destruct Ks as [[Es Em]|[Es|[Es|[_ Em]]]]; try congruence.
      rewrite Em. apply Herr. congruence. }
    split; [|done].
    intros E. destruct Ks as [[Es Em]|[Es|[Es|[Es _]]]]; try congruence.
    rewrite Em. apply Hidle. congruence.
  - unfold AR.rerender. rewrite decide_False.
    2:{ rewrite Su. intros E. symmetry in E.
        assert (AR.objectURLs (AR.outside (AR.world pg))
                < AR.objectURLs (AR.outside (AR.world pg)))%nat; [|lia].
        apply Hurls. by right. }
    unfold artifact_invariant, AR.cleanup.
    cbn [AR.world AR.state AR.outside AR.revoked].
    rewrite Su, So, Hr, Ss.
    split. { destruct Sb as [b ->]. split; done. }
    split; [done|]. split; [done|]. split; [done|]. split.
    + intros u. rewrite elem_of_app. split.
      * intros Hu. destruct (decide (u = AR.objectURLs (AR.outside (AR.world pg))))
          as [->|Hne]; [by right|].
        left. assert (Hlt : (u < AR.objectURLs (AR.outside (AR.world pg)))%nat) by lia.
        apply Hurls in Hlt as [Hin|Hcur]; [by left|].
        right. rewrite Hcur. cbn. by apply list_elem_of_singleton.
      * intros [[Hin|Hin]|[= ->]]; [| |lia].
        -- assert (u < AR.objectURLs (AR.outside (AR.world pg)))%nat; [|lia].
           apply Hurls. by left.
        -- destruct (AR.audioURL (AR.state (AR.world pg))) as [u0|] eqn:E;
             [|by apply elem_of_nil in Hin].
           apply list_elem_of_singleton in Hin as ->.
           assert (u0 < AR.objectURLs (AR.outside (AR.world pg)))%nat; [|lia].
           apply Hurls. by right.
    + intros u [= <-]. rewrite elem_of_app. intros [Hin|Hin].
      * assert (AR.objectURLs (AR.outside (AR.world pg))
                < AR.objectURLs (AR.outside (AR.world pg)))%nat; [|lia].
        apply Hurls. by left.
      * destruct (AR.audioURL (AR.state (AR.world pg))) as [u0|] eqn:E;
          [|by apply elem_of_nil in Hin].
        apply list_elem_of_singleton in Hin.
        assert (u0 < AR.objectURLs (AR.outside (AR.world pg)))%nat; [|lia].
        apply Hurls. by right.
  - cbn [AR.handler]. unfold AR.rerender, AR.reset.
    cbn [AR.world AR.reset_world AR.state AR.audioURL].
    destruct (AR.audioURL (AR.state (AR.world pg))) as [u0|] eqn:E.
    + rewrite decide_False by done.
      unfold artifact_invariant, AR.cleanup. cbn.
      repeat split; try done.
      * intros Hu. apply Hurls in Hu as [Hin|[= ->]].
        -- left. rewrite !elem_of_app. by left; left.
        -- left. rewrite !elem_of_app. left; right. by apply list_elem_of_singleton.
      * intros [Hin|Hin]; [|done].
        rewrite !elem_of_app in Hin. apply Hurls.
        destruct Hin as [[Hin|Hin]|Hin]; [by left| |];
          apply list_elem_of_singleton in Hin as ->; by right.
    + rewrite decide_True by done.
      unfold artifact_invariant. cbn. rewrite app_nil_r.
      repeat split; try done.
      * intros Hu. apply Hurls in Hu as [Hin|Hin]; [by left|done].
      * intros [Hin|Hin]; [|done]. apply Hurls. by left.
Qed.

(** X5.  Along every sequence of events the recording and its object URL
    come and go together; a [stopped] component holds a recording, one in
    [error] holds a message and an [idle] one holds neither; every object
    URL created so far is the one on display or has been revoked, and
    the one on display has not been revoked. *)
Theorem artifact_and_url_invariant (codec : Mp3Codec) (props : AR.Props)
    (pg : AR.Page) :
  AR.page_reachable props pg ->
  let st := AR.state (AR.world pg) in
  (AR.audioBlob st = None <-> AR.audioURL st = None) /\
  (AR.status st = AR.stopped -> is_Some (AR.audioBlob st)) /\
  (AR.status st = AR.error -> is_Some (AR.errorMessage st)) /\
  (AR.status st = AR.idle ->
   AR.audioBlob st = None /\ AR.errorMessage st = None) /\
  (forall u : nat,
     (u < AR.objectURLs (AR.outside (AR.world pg)))%nat <->
     u ∈ AR.revoked pg \/ AR.audioURL st = Some u) /\
  (forall u : nat, AR.audioURL st = Some u -> u ∉ AR.revoked pg).
Proof.
  intros Hr. change (artifact_invariant pg). revert pg Hr.
  apply page_reachable_ind'.
  - apply artifact_invariant_initial.
  - intros pg e. apply artifact_invariant_dispatch.
Qed.

Lemma artifact_and_url_invariant_witness :
  let pg :=
    AR.run_events (H := counting_codec) props
      [AR.ev_requestPermissionAndStart;
       AR.ev_permission_settled decoding_platform;
       AR.ev_audioprocess [Fin (1 # 2)];
       AR.ev_stopRecording decoding_platform;
       AR.ev_requestPermissionAndStart;
       AR.ev_permission_settled decoding_platform;
       AR.ev_stopRecording decoding_platform]
      AR.initial_page in
  AR.page_reachable (H := counting_codec) props pg /\
  (forall u : nat,
     (u < AR.objectURLs (AR.outside (AR.world pg)))%nat <->
     u ∈ AR.revoked pg \/ AR.audioURL (AR.state (AR.world pg)) = Some u).
Proof.
  intros pg.
  assert (Hr : AR.page_reachable (H := counting_codec) props pg)
    by (eexists; reflexivity).
  split; [exact Hr|].
  exact (proj1 (proj2 (proj2 (proj2 (proj2
           (artifact_and_url_invariant counting_codec props pg Hr)))))).
Defined.

Lemma dispatch_audioprocess `{Mp3Codec} (props : AR.Props)
    (x : list number) st a b c d e f pcm g o pb rv rl :
  AR.dispatch props
    (AR.mkPage (AR.mkWorld st (AR.mkRefs a b c d e f pcm g) o) pb rv rl)
    (AR.ev_audioprocess x)
  = AR.mkPage (AR.mkWorld st (AR.mkRefs a b c d e f (pcm ++ [x]) g) o)
      pb rv rl.
Proof. unfold AR.dispatch, AR.rerender. cbn. by rewrite decide_True. Qed.

Lemma run_audioprocess `{Mp3Codec} (props : AR.Props)
    (frames : list (list number)) st a b c d e f pcm g o pb rv rl :
  AR.run_events props (map AR.ev_audioprocess frames)
    (AR.mkPage (AR.mkWorld st (AR.mkRefs a b c d e f pcm g) o) pb rv rl)
  = AR.mkPage (AR.mkWorld st (AR.mkRefs a b c d e f (pcm ++ frames) g) o)
      pb rv rl.
Proof.
  revert pcm. induction frames as [|x xs IH]; intros pcm.
  - by rewrite app_nil_r.
  - unfold AR.run_events in *. cbn [map foldl].
    rewrite dispatch_audioprocess, IH. by rewrite <- app_assoc.
Qed.

Lemma resume_keeps_url (p : AR.Platform) (props : AR.Props) (w : AR.World) :
  AR.audioURL (AR.state (AR.requestPermissionAndStart_resume p props w))
  = AR.audioURL (AR.state w).
Proof.
  unfold AR.requestPermissionAndStart_resume, AR.start_failed.
  destruct (AR.getUserMedia p) as [rej|]; [done|].
  by destruct (AR.window_MediaRecorder p),
       (AR.setup_throws p) as [[[] thrown]|].
Qed.

Lemma resume_started (p : AR.Platform) (props : AR.Props) (w : AR.World) :
  AR.getUserMedia p = None ->
  AR.setup_failure p = None ->
  AR.requestPermissionAndStart_resume p props w
  = AR.mkWorld (AR.set_status AR.recording (AR.state w))
      (if AR.window_MediaRecorder p
       then
         AR.mkRefs (Some (mkRecorder rs_recording false)) []
           (AR.audioContextRef (AR.refs w)) (Some (mkStream true))
           (AR.sourceNodeRef (AR.refs w)) (AR.processorRef (AR.refs w))
           (AR.pcmBuffersRef (AR.refs w)) (Some AR.mediarecorder)
       else
         AR.mkRefs (AR.mediaRecorderRef (AR.refs w))
           (AR.audioChunksRef (AR.refs w)) (Some (started_context p))
           (Some (mkStream true)) (Some (mkNode true)) (Some (mkNode true))
           [] (Some AR.webaudio))
      (AR.outside w).
Proof.
  intros Hgrant Hsetup.
  unfold AR.requestPermissionAndStart_resume, AR.setup_failure in *.
  rewrite Hgrant.
  destruct (AR.window_MediaRecorder p),
    (AR.setup_throws p) as [[[] thrown]|]; done.
Qed.

Lemma webaudio_started `{Mp3Codec} (props : AR.Props) (p : AR.Platform)
    (frames : list (list number)) :
  AR.getUserMedia p = None ->
  AR.window_MediaRecorder p = false ->
  AR.setup_failure p = None ->
  AR.run_events props
    ([AR.ev_requestPermissionAndStart; AR.ev_permission_settled p]
     ++ map AR.ev_audioprocess frames)
    AR.initial_page
  = AR.mkPage
      (AR.mkWorld (AR.mkState AR.recording None None None false)
         (AR.mkRefs None [] (Some (started_context p))
            (Some (mkStream true)) (Some (mkNode true))
            (Some (mkNode true)) frames (Some AR.webaudio))
         (AR.mkOutside 1 [] [] [] [] 0))
      AR.initial_playback [] [].
Proof.
  intros Hgrant Hmr Hsetup. rewrite run_events_app.
  assert (E0 :
    AR.run_events props
      [AR.ev_requestPermissionAndStart; AR.ev_permission_settled p]
      AR.initial_page
    = AR.mkPage
        (AR.mkWorld (AR.mkState AR.recording None None None false)
           (AR.mkRefs None [] (Some (started_context p))
              (Some (mkStream true)) (Some (mkNode true))
              (Some (mkNode true)) [] (Some AR.webaudio))
           (AR.mkOutside 1 [] [] [] [] 0))
        AR.initial_playback [] []).
  { unfold AR.run_events. cbn [foldl].
    rewrite (dispatch_same props AR.initial_page
               AR.ev_requestPermissionAndStart) by reflexivity.
    rewrite dispatch_same by apply resume_keeps_url.
    cbn [AR.handler]. unfold AR.on_world.
    rewrite resume_started by done. rewrite Hmr. reflexivity. }
  rewrite E0, run_audioprocess. reflexivity.
Qed.

Lemma webaudio_stop `{Mp3Codec} (props : AR.Props) (p : AR.Platform)
    (frames : list (list number)) (e : AR.event) :
  let pg :=
    AR.mkPage
      (AR.mkWorld (AR.mkState AR.recording None None None false)
         (AR.mkRefs None [] (Some (started_context p))
            (Some (mkStream true)) (Some (mkNode true))
            (Some (mkNode true)) frames (Some AR.webaudio))
         (AR.mkOutside 1 [] [] [] [] 0))
      AR.initial_playback [] [] in
  AR.handler props e pg = AR.on_world (AR.stopRecording p) pg ->
  AR.dispatch props pg e = webaudio_stopped p frames.
Proof.
  cbv zeta. intros He.
  assert (Hstop :
    AR.stopRecording p
      (AR.mkWorld (AR.mkState AR.recording None None None false)
         (AR.mkRefs None [] (Some (started_context p))
            (Some (mkStream true)) (Some (mkNode true))
            (Some (mkNode true)) frames (Some AR.webaudio))
         (AR.mkOutside 1 [] [] [] [] 0))
    = AR.mkWorld
        (AR.mkState AR.stopped
           (AR.buildWavFromFloat32 frames
              (if AR.device_sampleRate p =? 0 then 44100
               else AR.device_sampleRate p)) (Some 0%nat) None false)
        (AR.mkRefs None []
           (Some (AudioContext_suspend (started_context p)))
           (Some (mkStream true)) (Some (mkNode false)) (Some (mkNode false))
           frames (Some AR.webaudio))
        (AR.mkOutside 1 [] [] [] [] 1)).
  { unfold AR.stopRecording.
    cbn [AR.world AR.state AR.status AR.refs AR.captureModeRef
         AR.mediaRecorderRef AR.audioChunksRef AR.audioContextRef
         AR.mediaStreamRef AR.sourceNodeRef AR.processorRef AR.pcmBuffersRef
         AR.outside fmap option_fmap option_map].
    unfold AR.handleRecordingStop.
    cbn [AR.world AR.state AR.status AR.refs AR.captureModeRef
         AR.mediaRecorderRef AR.audioChunksRef AR.audioContextRef
         AR.mediaStreamRef AR.sourceNodeRef AR.processorRef AR.pcmBuffersRef
         AR.outside].
    assert (Hrate : ctx_sampleRate (AudioContext_suspend (started_context p))
                    = AR.device_sampleRate p).
    { unfold AudioContext_suspend, started_context. cbn.
      by destruct (AR.new_context_state p), (AR.resume_succeeds p). }
    rewrite Hrate.
    destruct (buildWavFromFloat32_layout frames
                (if AR.device_sampleRate p =? 0 then 44100
                 else AR.device_sampleRate p)) as (blob & -> & _).
    unfold AR.finish. cbn. done. }
  unfold AR.dispatch. rewrite He. unfold AR.on_world, AR.rerender.
  cbn [AR.world AR.playback AR.revoked AR.released].
  rewrite Hstop. rewrite decide_False by done.
  unfold AR.cleanup, webaudio_stopped. cbn.
  unfold AudioContext_close, AudioContext_suspend, started_context. cbn.
  by destruct (AR.new_context_state p), (AR.resume_succeeds p).
Qed.

(** X6.  A recording through the Web Audio path, from the first click to
    the stop: with device access granted, no [MediaRecorder] and a
    set-up that does not throw, the frames delivered by the processor,
    in order, become one WAV file at the rate of the device (44100 when
    the device reports 0), published under the first object URL with the
    status [stopped]; one device request was made, nothing was reported
    or revoked, and afterwards the nodes are disconnected, the context is
    closed and the microphone tracks are stopped. *)
Theorem webaudio_recording (codec : Mp3Codec) (props : AR.Props)
    (p : AR.Platform) (frames : list (list number)) :
  AR.getUserMedia p = None ->
  AR.window_MediaRecorder p = false ->
  AR.setup_failure p = None ->
  let rate :=
    if AR.device_sampleRate p =? 0 then 44100 else AR.device_sampleRate p in
  let pg :=
    AR.run_events props
      ([AR.ev_requestPermissionAndStart; AR.ev_permission_settled p]
       ++ map AR.ev_audioprocess frames ++ [AR.ev_stopRecording p])
      AR.initial_page in
  AR.world pg =
    AR.mkWorld
      (AR.mkState AR.stopped (AR.buildWavFromFloat32 frames rate) (Some 0%nat)
         None false)
      (AR.mkRefs None []
         (Some (mkContext ctx_closed (AR.device_sampleRate p)))
         (Some (mkStream false)) (Some (mkNode false)) (Some (mkNode false))
         frames (Some AR.webaudio))
      (AR.mkOutside 1 [] [] [] [] 1) /\
  AR.revoked pg = [] /\ AR.released pg = [].
Proof.
  intros Hgrant Hmr Hsetup. cbv zeta.
  change ([AR.ev_requestPermissionAndStart; AR.ev_permission_settled p]
          ++ map AR.ev_audioprocess frames ++ [AR.ev_stopRecording p])
    with ([AR.ev_requestPermissionAndStart; AR.ev_permission_settled p]
          ++ (map AR.ev_audioprocess frames ++ [AR.ev_stopRecording p])).
  rewrite app_assoc, run_events_app, webaudio_started by done.
  unfold AR.run_events. cbn [foldl].
  rewrite (webaudio_stop props p frames (AR.ev_stopRecording p)) by done.
  done.
Qed.

Lemma webaudio_recording_witness :
  AR.state (AR.world
    (AR.run_events (H := counting_codec) props
       ([AR.ev_requestPermissionAndStart;
         AR.ev_permission_settled decoding_platform]
        ++ map AR.ev_audioprocess [[Fin (1 # 2)]; []; [NaN; Fin (-2 # 1)]]
        ++ [AR.ev_stopRecording decoding_platform])
       AR.initial_page))
  = AR.mkState AR.stopped
      (AR.buildWavFromFloat32 [[Fin (1 # 2)]; []; [NaN; Fin (-2 # 1)]] 44100)
      (Some 0%nat) None false.
Proof.
  exact (f_equal AR.state
           (proj1 (webaudio_recording counting_codec props decoding_platform
                     [[Fin (1 # 2)]; []; [NaN; Fin (-2 # 1)]]
                     eq_refl eq_refl eq_refl))).
Defined.

Lemma dispatch_dataavailable `{Mp3Codec} (props : AR.Props)
    (x : list Z) st a b c d e f pcm g o pb rv rl :
  AR.dispatch props
    (AR.mkPage (AR.mkWorld st (AR.mkRefs a b c d e f pcm g) o) pb rv rl)
    (AR.ev_dataavailable x)
  = AR.mkPage
      (AR.mkWorld st
         (AR.mkRefs a (b ++ filter (fun c => c <> []) [x]) c d e f pcm g) o)
      pb rv rl.
Proof.
  rewrite dispatch_same by (by destruct x).
  destruct x; cbn; [by rewrite app_nil_r|done].
Qed.

Lemma run_dataavailable `{Mp3Codec} (props : AR.Props)
    (chunks : list (list Z)) st a b c d e f pcm g o pb rv rl :
  AR.run_events props (map AR.ev_dataavailable chunks)
    (AR.mkPage (AR.mkWorld st (AR.mkRefs a b c d e f pcm g) o) pb rv rl)
  = AR.mkPage
      (AR.mkWorld st
         (AR.mkRefs a (b ++ filter (fun c => c <> []) chunks) c d e f pcm g)
         o)
      pb rv rl.
Proof.
  revert b. induction chunks as [|x xs IH]; intros b.
  - by rewrite app_nil_r.
  - unfold AR.run_events in *. cbn [map foldl].
    rewrite dispatch_dataavailable, IH, <- app_assoc.
    by rewrite <- filter_app.
Qed.

Lemma concat_filter_nonempty {A} (l : list (list A)) :
  concat (filter (fun c => c <> []) l) = concat l.
Proof.
  induction l as [|c l IH]; [done|].
  destruct c as [|x c].
  - rewrite filter_cons_False by (intros H; by apply H). done.
  - rewrite filter_cons_True by done. cbn [concat]. by rewrite IH.
Qed.

(** X7.  A recording through [MediaRecorder], from the first click to the
    recorder's [stop] event, when access is granted and the recorder is
    constructed and started without a throw.  [stopRecording] only asks
    the recorder to stop: the status is still [recording] and nothing is
    published.  When the [stop] event arrives, the data delivered before
    and after the request, in order and without the empty pieces, is
    published as one blob under the first object URL, of type audio/mp4
    on iOS and audio/webm elsewhere, and the microphone tracks are
    stopped. *)
Theorem mediarecorder_recording (codec : Mp3Codec) (props : AR.Props)
    (p : AR.Platform) (before after : list (list Z)) :
  AR.getUserMedia p = None ->
  AR.window_MediaRecorder p = true ->
  AR.setup_failure p = None ->
  let asked :=
    AR.run_events props
      ([AR.ev_requestPermissionAndStart; AR.ev_permission_settled p]
       ++ map AR.ev_dataavailable before ++ [AR.ev_stopRecording p])
      AR.initial_page in
  let pg :=
    AR.run_events props
      (map AR.ev_dataavailable after ++ [AR.ev_recorder_stop p]) asked in
  (AR.state (AR.world asked)
   = AR.mkState AR.recording None None None false /\
   AR.mediaRecorderRef (AR.refs (AR.world asked))
   = Some (mkRecorder rs_inactive true) /\
   AR.mediaStreamRef (AR.refs (AR.world asked)) = Some (mkStream true)) /\
  AR.world pg =
    AR.mkWorld
      (AR.mkState AR.stopped
         (Some (mkBlob (concat (before ++ after))
                  (if AR.isIOS p then "audio/mp4" else "audio/webm")))
         (Some 0%nat) None false)
      (AR.mkRefs (Some (mkRecorder rs_inactive false))
         (filter (fun c => c <> []) (before ++ after))
         None (Some (mkStream false)) None None [] (Some AR.mediarecorder))
      (AR.mkOutside 1 [] [] [] [] 1) /\
  AR.revoked pg = [] /\ AR.released pg = [].
Proof.
  intros Hgrant Hmr Hsetup. cbv zeta.
  rewrite !run_events_app.
  set (pg0 := AR.run_events props
                [AR.ev_requestPermissionAndStart; AR.ev_permission_settled p]
                AR.initial_page).
  assert (E0 :
    pg0 = AR.mkPage
            (AR.mkWorld (AR.mkState AR.recording None None None false)
               (AR.mkRefs (Some (mkRecorder rs_recording false)) [] None
                  (Some (mkStream true)) None None [] (Some AR.mediarecorder))
               (AR.mkOutside 1 [] [] [] [] 0))
            AR.initial_playback [] []).
  { subst pg0. unfold AR.run_events. cbn [foldl].
    rewrite (dispatch_same props AR.initial_page
               AR.ev_requestPermissionAndStart) by reflexivity.
    rewrite dispatch_same by apply resume_keeps_url.
    cbn [AR.handler]. unfold AR.on_world.
    rewrite resume_started by done. rewrite Hmr. reflexivity. }
  rewrite E0, run_dataavailable. cbn [app]. clear E0 pg0.
  match goal with
  | |- context [AR.run_events props [AR.ev_stopRecording p] ?pg] =>
      assert (E1 : AR.run_events props [AR.ev_stopRecording p] pg
        = AR.mkPage
            (AR.mkWorld (AR.mkState AR.recording None None None false)
               (AR.mkRefs (Some (mkRecorder rs_inactive true))
                  (filter (fun c => c <> []) before) None
                  (Some (mkStream true)) None None [] (Some AR.mediarecorder))
               (AR.mkOutside 1 [] [] [] [] 0))
            AR.initial_playback [] [])
  end.
  { unfold AR.run_events. cbn [foldl].
    rewrite dispatch_same by reflexivity. reflexivity. }
  rewrite E1. split; [done|].
  rewrite run_dataavailable, <- filter_app.
  unfold AR.run_events. cbn [foldl].
  rewrite dispatch_changed.
  - unfold AR.handler, AR.on_world, AR.cleanup, AR.onstop,
      AR.handleRecordingStop, AR.finish. cbn.
    by rewrite concat_filter_nonempty.
  - unfold AR.handler, AR.on_world, AR.onstop, AR.handleRecordingStop,
      AR.finish. cbn. done.
Qed.

Lemma mediarecorder_recording_witness :
  let p :=
    AR.mkPlatform None true ctx_running 48000 true true
      (fun _ => inr "Unable to decode audio data"%string)
      true true "2025-01-01T00-00-00" "1735689600000" None in
  AR.state (AR.world
    (AR.run_events (H := counting_codec) props
       (map AR.ev_dataavailable [[]; [7]] ++ [AR.ev_recorder_stop p])
       (AR.run_events (H := counting_codec) props
          ([AR.ev_requestPermissionAndStart; AR.ev_permission_settled p]
           ++ map AR.ev_dataavailable [[26; 69]; [223; 163]]
           ++ [AR.ev_stopRecording p])
          AR.initial_page)))
  = AR.mkState AR.stopped
      (Some (mkBlob [26; 69; 223; 163; 7] "audio/mp4")) (Some 0%nat) None
      false.
Proof.
  intros p.
  exact (f_equal AR.state
           (proj1 (proj2 (mediarecorder_recording counting_codec props p
                            [[26; 69]; [223; 163]] [[]; [7]]
                            eq_refl eq_refl eq_refl)))).
Defined.




(** X8.  When device access is refused the component ends in [error]
    with the message "Microphone access denied: " followed by the reason
    (or by "Microphone permission denied." when the rejection is not an
    Error), passes the same message to [onError] when there is one, and
    holds no stream, recorder or context.  The error screen draws no
    control, and stopping, saving and uploading do nothing there. *)
Theorem permission_denied (codec : Mp3Codec) (props : AR.Props)
    (p : AR.Platform) (rejection : option string) :
  AR.getUserMedia p = Some rejection ->
  let msg :=
    ("Microphone access denied: "
     ++ default "Microphone permission denied." rejection)%string in
  let pg :=
    AR.run_events props
      [AR.ev_requestPermissionAndStart; AR.ev_permission_settled p]
      AR.initial_page in
  pg = AR.mkPage
         (AR.mkWorld (AR.mkState AR.error None None (Some msg) false)
            (AR.refs AR.initial)
            (AR.mkOutside 1 (if AR.onError props then [msg] else []) [] [] []
               0))
         AR.initial_playback [] [] /\
  AR.rendered props (AR.state (AR.world pg)) = [] /\
  forall q : AR.Platform,
    AR.dispatch props pg (AR.ev_stopRecording q) = pg /\
    AR.dispatch props pg (AR.ev_handleSave q) = pg /\
    AR.dispatch props pg (AR.ev_uploadMp3 q) = pg.
Proof.
  intros Hrej. cbv zeta.
  assert (E :
    AR.run_events props
      [AR.ev_requestPermissionAndStart; AR.ev_permission_settled p]
      AR.initial_page
    = AR.mkPage
         (AR.mkWorld
            (AR.mkState AR.error None None
               (Some ("Microphone access denied: "
                      ++ default "Microphone permission denied." rejection)%string)
               false)
            (AR.refs AR.initial)
            (AR.mkOutside 1
               (if AR.onError props
                then [("Microphone access denied: "
                       ++ default "Microphone permission denied." rejection)%string]
                else []) [] [] [] 0))
         AR.initial_playback [] []).
  { unfold AR.run_events. cbn [foldl].
    rewrite (dispatch_same props AR.initial_page
               AR.ev_requestPermissionAndStart) by reflexivity.
    rewrite dispatch_same by apply resume_keeps_url.
    unfold AR.handler, AR.on_world, AR.requestPermissionAndStart_resume.
    cbn [AR.world AR.requestPermissionAndStart_request AR.initial_page].
    rewrite Hrej. unfold AR.start_failed, AR.report.
    destruct rejection, (AR.onError props); reflexivity. }
  rewrite E. split; [done|]. split; [done|].
  intros q. repeat split; rewrite dispatch_same; done.
Qed.

Lemma permission_denied_witness :
  let p :=
    AR.mkPlatform (Some (Some "Permission denied"%string)) true ctx_running
      48000 true false (fun _ => inr "Unable to decode audio data"%string)
      true true "2025-01-01T00-00-00" "1735689600000" None in
  AR.state (AR.world
    (AR.run_events (H := counting_codec) props
       [AR.ev_requestPermissionAndStart; AR.ev_permission_settled p]
       AR.initial_page))
  = AR.mkState AR.error None None
      (Some "Microphone access denied: Permission denied"%string) false.
Proof.
  intros p.
  exact (f_equal (fun pg => AR.state (AR.world pg))
           (proj1 (permission_denied counting_codec props p
                     (Some "Permission denied"%string) eq_refl))).
Defined.

(** X9.  [reset] from any state: the recording side is as at the start,
    only the history of what was done outside is kept; playback is
    stopped at position 0 with no frame requested; the object URL on
    display is revoked; the stream, context and nodes that were held are
    let go with the tracks stopped, the context closed and the nodes
    disconnected; and a second reset changes nothing. *)
Theorem reset_releases_everything (codec : Mp3Codec) (props : AR.Props)
    (pg : AR.Page) :
  let pg' := AR.dispatch props pg AR.ev_reset in
  AR.world pg'
  = AR.mkWorld (AR.state AR.initial) (AR.refs AR.initial)
      (AR.outside (AR.world pg)) /\
  (AR.playbackRafIdRef (AR.playback pg') = None /\
   AR.isPlaying (AR.playback pg') = false /\
   AR.playbackSec (AR.playback pg') = ofZ 0 /\
   forall el, AR.audioElRef (AR.playback pg') = Some el ->
              AR.paused el = true /\ AR.currentTime el = ofZ 0) /\
  (forall u, AR.audioURL (AR.state (AR.world pg)) = Some u ->
             u ∈ AR.revoked pg') /\
  (forall s, AR.mediaStreamRef (AR.refs (AR.world pg)) = Some s ->
             AR.released_stream (mkStream false) ∈ AR.released pg') /\
  (forall c, AR.audioContextRef (AR.refs (AR.world pg)) = Some c ->
             AR.released_context (mkContext ctx_closed (ctx_sampleRate c))
               ∈ AR.released pg') /\
  (forall n, AR.processorRef (AR.refs (AR.world pg)) = Some n \/
             AR.sourceNodeRef (AR.refs (AR.world pg)) = Some n ->
             AR.released_node (mkNode false) ∈ AR.released pg') /\
  AR.dispatch props pg' AR.ev_reset = pg'.
Proof.
  cbv zeta.
  assert (Hpb : forall pb rv rl w,
    AR.playback (AR.reset (AR.mkPage w pb rv rl))
    = AR.stopPlaybackTicker
        (AR.mkPlayback
           ((fun el => AR.mkAudio (AR.duration el) (ofZ 0) true
                         (AR.seeked_listeners el)) <$> AR.audioElRef pb)
           (AR.playbackRafIdRef pb) (ofZ 0) (AR.durationSec pb) false
           (AR.framesRequested pb) (AR.framesPending pb))) by done.
  assert (E : AR.dispatch props pg AR.ev_reset
              = AR.mkPage (AR.reset_world (AR.world pg))
                  (AR.playback (AR.reset pg))
                  (AR.revoked (AR.reset pg)
                   ++ AR.option_list (AR.audioURL (AR.state (AR.world pg))))
                  (AR.released (AR.reset pg))).
  { destruct (AR.audioURL (AR.state (AR.world pg))) as [u|] eqn:Eu.
    - rewrite dispatch_changed.
      2:{ cbn. rewrite Eu. discriminate. }
      rewrite Eu. reflexivity.
    - rewrite dispatch_same by (cbn; by rewrite Eu).
      cbn [AR.handler AR.option_list]. rewrite app_nil_r. reflexivity. }
  rewrite E. cbn [AR.world AR.playback AR.revoked AR.released].
  split; [done|]. split.
  { destruct pg as [w pb rv rl]. rewrite Hpb. unfold AR.stopPlaybackTicker.
    assert (Hel : forall el',
      (fun el => AR.mkAudio (AR.duration el) (ofZ 0) true
                   (AR.seeked_listeners el)) <$> AR.audioElRef pb = Some el' ->
      AR.paused el' = true /\ AR.currentTime el' = ofZ 0).
    { intros el'. destruct (AR.audioElRef pb); cbn; [|done].
      by intros [= <-]. }
    cbn. destruct (AR.playbackRafIdRef pb); cbn; done. }
  split.
  { intros u Eu. rewrite Eu. rewrite !elem_of_app. right.
    by apply list_elem_of_singleton. }
  unfold AR.reset at 1 2 3 4.
  cbn [AR.released AR.revoked AR.playback AR.world].
  split.
  { intros s Es. rewrite Es.
    cbn [fmap option_fmap option_map AR.option_list].
    rewrite !elem_of_app. do 4 right. by apply list_elem_of_singleton. }
  split.
  { intros c Ec. rewrite Ec.
    cbn [fmap option_fmap option_map AR.option_list].
    rewrite !elem_of_app. right; right; right; left.
    by apply list_elem_of_singleton. }
  split.
  { intros n [En|En]; rewrite En;
      cbn [fmap option_fmap option_map AR.option_list];
      rewrite !elem_of_app.
    - right; left. by apply list_elem_of_singleton.
    - right; right; left. by apply list_elem_of_singleton. }
  rewrite dispatch_same by done.
  destruct pg as [w pb rv rl]. cbn [AR.handler].
  unfold AR.reset at 1.
  cbn [AR.world AR.playback AR.revoked AR.released AR.reset_world AR.state
       AR.refs AR.outside AR.audioURL AR.mediaRecorderRef AR.audioChunksRef
       AR.audioContextRef AR.mediaStreamRef AR.sourceNodeRef AR.processorRef
       AR.pcmBuffersRef AR.captureModeRef fmap option_fmap option_map
       AR.option_list].
  rewrite !app_nil_r. f_equal.
  rewrite Hpb. unfold AR.stopPlaybackTicker. cbn.
  destruct (AR.playbackRafIdRef pb), (AR.audioElRef pb); cbn; done.
Qed.

Lemma greaterEqual_Fin (e : Z) (q : Q) :
  greaterEqual (ofZ e) (Fin q) = true <-> Qceiling q <= e.
Proof.
  unfold greaterEqual, lessThan, ofZ.
  destruct (Qcompare (inject_Z e) q) eqn:E; cbn [negb].
  - apply Qeq_alt in E. split; [intros _|done].
    rewrite <- (Qceiling_Z e). apply Qceiling_resp_le. rewrite E.
    apply Qle_refl.
  - apply Qlt_alt in E. split; [done|]. intros Hc. exfalso.
    apply (Qlt_irrefl q). eapply Qle_lt_trans; [|exact E].
    eapply Qle_trans; [apply Qle_ceiling|]. by rewrite <- Zle_Qle.
  - apply Qgt_alt in E. split; [intros _|done].
    rewrite <- (Qceiling_Z e). apply Qceiling_resp_le. by apply Qlt_le_weak.
Qed.

(** X10.  The stop at the maximum duration.  The timer's callback leaves
    the count of seconds as it is when the start stamp is missing or 0;
    otherwise the count becomes the whole seconds since the stamp, and
    the effect then stops a running recording exactly when the limit is
    a number other than 0 and [NaN] and at least (the limit rounded up
    to whole seconds) times 1000 ms have passed since the stamp (at once
    for a limit of minus infinity); in every other case it leaves the
    component as it is. *)
Theorem autoStop_threshold (p : AR.Platform) (limit : option number)
    (now : Z) (startedAtRef : option Z) (elapsedSec : Z) (w : AR.World) :
  let counted := AR.onInterval now startedAtRef elapsedSec in
  (startedAtRef = None \/ startedAtRef = Some 0 -> counted = elapsedSec) /\
  (forall startedAt : Z,
     startedAtRef = Some startedAt -> startedAt <> 0 ->
     let due :=
       AR.status (AR.state w) = AR.recording /\
       (limit = Some NegInf \/
        exists q : Q,
          limit = Some (Fin q) /\ ~ (q == 0)%Q /\
          startedAt + 1000 * Qceiling q <= now) in
     (due -> AR.autoStop p limit counted w = AR.stopRecording p w) /\
     (~ due -> AR.autoStop p limit counted w = w)).
Proof.
  cbv zeta. split.
  { intros [->| ->]; reflexivity. }
  intros startedAt -> Hstamp. unfold AR.onInterval.
  rewrite (proj2 (Z.eqb_neq startedAt 0) Hstamp).
  assert (Hdiv : forall m,
    m <= (now - startedAt) / 1000 <-> startedAt + 1000 * m <= now).
  { intros m. split; intros Hm.
    - pose proof (Z.mul_div_le (now - startedAt) 1000 ltac:(lia)). lia.
    - apply Z.div_le_lower_bound; lia. }
  unfold AR.autoStop. split.
  - intros (Hs & [->|(q & -> & Hq & Ht)]); rewrite Hs; [reflexivity|].
    unfold falsy. destruct (Qeq_bool q 0) eqn:Ez.
    { exfalso. apply Hq. by apply Qeq_bool_eq. }
    apply Hdiv, greaterEqual_Fin in Ht. by rewrite Ht.
  - intros Hn. destruct (AR.status (AR.state w)) eqn:Es; try done.
    destruct limit as [[| | |q]|]; try done.
    + exfalso. apply Hn. split; [done|]. by left.
    + unfold falsy. destruct (Qeq_bool q 0) eqn:Ez; [done|].
      destruct (greaterEqual (ofZ ((now - startedAt) / 1000)) (Fin q))
        eqn:Eg; [|done].
      exfalso. apply Hn. split; [done|]. right. exists q.
      split; [done|]. split.
      * intros Hz. apply Qeq_eq_bool in Hz. congruence.
      * by apply Hdiv, greaterEqual_Fin.
Qed.

Lemma playback_invariant_initial : playback_invariant AR.initial_playback.
Proof.
  repeat split. intros id Hid. by apply elem_of_nil in Hid.
Qed.

Lemma filter_ne_singleton (id : nat) :
  filter (fun i => i <> id) [id] = [].
Proof. by rewrite filter_cons_False by (intros H; by apply H). Qed.

Lemma stopPlaybackTicker_invariant (pb : AR.Playback) :
  playback_invariant pb ->
  playback_invariant (AR.stopPlaybackTicker pb) /\
  AR.framesPending (AR.stopPlaybackTicker pb) = [] /\
  AR.playbackRafIdRef (AR.stopPlaybackTicker pb) = None.
Proof.
  intros (Hp & Hlt & Hd). unfold AR.stopPlaybackTicker.
  destruct (AR.playbackRafIdRef pb) as [id|] eqn:E.
  - unfold playback_invariant.
    cbn [AR.framesPending AR.playbackRafIdRef AR.framesRequested
         AR.durationSec].
    rewrite Hp. cbn [AR.option_list].
    rewrite filter_ne_singleton. repeat split; try done.
    intros i Hi. by apply elem_of_nil in Hi.
  - rewrite Hp. repeat split; try done. by rewrite E.
Qed.

Lemma requestFrame_invariant (pb : AR.Playback) :
  AR.isFinite (AR.durationSec pb) = true -> AR.framesPending pb = [] ->
  playback_invariant (AR.requestFrame pb).
Proof.
  intros Hd He. unfold playback_invariant, AR.requestFrame. cbn.
  rewrite He. repeat split; try done.
  intros i Hi. apply list_elem_of_singleton in Hi as ->. lia.
Qed.

Lemma same_ticker_invariant (pb pb' : AR.Playback) :
  AR.framesPending pb' = AR.framesPending pb ->
  AR.playbackRafIdRef pb' = AR.playbackRafIdRef pb ->
  AR.framesRequested pb' = AR.framesRequested pb ->
  AR.isFinite (AR.durationSec pb') = true ->
  playback_invariant pb -> playback_invariant pb'.
Proof.
  intros E1 E2 E3 E4 (Hp & Hlt & Hd). unfold playback_invariant.
  rewrite E1, E2, E3. done.
Qed.

Lemma ensureFiniteDuration_invariant (pb : AR.Playback) :
  playback_invariant pb -> playback_invariant (AR.ensureFiniteDuration pb).
Proof.
  intros Hinv. unfold AR.ensureFiniteDuration.
  destruct (AR.audioElRef pb) as [el|]; [|done].
  destruct (AR.isFinite (AR.duration el)) eqn:Ef; cbn [negb orb].
  - destruct (AR.is_zero (AR.duration el));
      (eapply same_ticker_invariant; [..|exact Hinv]); try done.
    apply Hinv.
  - eapply same_ticker_invariant; [..|exact Hinv]; try done. apply Hinv.
Qed.

Lemma playback_invariant_dispatch `{Mp3Codec} (props : AR.Props)
    (pg : AR.Page) (e : AR.event) :
  playback_invariant (AR.playback pg) ->
  playback_invariant (AR.playback (AR.dispatch props pg e)).
Proof.
  intros Hinv.
  assert (Hre : forall url pg', AR.playback (AR.rerender url pg')
                                = AR.playback pg').
  { intros url pg'. unfold AR.rerender. by destruct (decide _). }
  unfold AR.dispatch. rewrite Hre.
  destruct e; cbn [AR.handler AR.on_world AR.on_playback AR.playback];
    try exact Hinv.
  - (* reset *)
    destruct pg as [w pb rv rl]. unfold AR.reset. cbn [AR.playback] in *.
    apply stopPlaybackTicker_invariant.
    eapply same_ticker_invariant; [..|exact Hinv]; try done. apply Hinv.
  - (* play *)
    destruct pg as [w pb rv rl]. unfold AR.handleAudioPlay.
    cbn [AR.playback] in *.
    apply ensureFiniteDuration_invariant. unfold AR.startPlaybackTicker.
    assert (Hinv' : playback_invariant
              (AR.mkPlayback (AR.audioElRef pb) (AR.playbackRafIdRef pb)
                 (AR.playbackSec pb) (AR.durationSec pb) true
                 (AR.framesRequested pb) (AR.framesPending pb))).
    { eapply same_ticker_invariant; [..|exact Hinv]; try done. apply Hinv. }
    destruct (stopPlaybackTicker_invariant _ Hinv') as (H1 & H2 & _).
    apply requestFrame_invariant; [apply H1|done].
  - (* pause *)
    unfold AR.handleAudioPause. apply stopPlaybackTicker_invariant.
    eapply same_ticker_invariant; [..|exact Hinv]; try done. apply Hinv.
  - (* ended *)
    unfold AR.handleAudioEnded.
    destruct (AR.audioElRef (AR.playback pg)) as [el|]; [|done].
    apply stopPlaybackTicker_invariant.
    eapply same_ticker_invariant; [..|exact Hinv]; try done. apply Hinv.
  - (* toggle *)
    unfold AR.togglePlayPause.
    destruct (AR.audioElRef (AR.playback pg)) as [el|]; [|done].
    eapply same_ticker_invariant; [..|exact Hinv]; try done. apply Hinv.
  - (* frame *)
    unfold AR.tick. destruct (bool_decide_reflect (id ∈ AR.framesPending (AR.playback pg)))
      as [Hin|]; [|done].
    destruct Hinv as (Hp & Hlt & Hd).
    destruct (AR.playbackRafIdRef (AR.playback pg)) as [id'|] eqn:E;
      rewrite Hp in Hin; cbn in Hin; [|by apply elem_of_nil in Hin].
    apply list_elem_of_singleton in Hin as ->.
    apply requestFrame_invariant; [done|].
    cbn [AR.framesPending]. rewrite Hp. cbn [AR.option_list].
    apply filter_ne_singleton.
  - (* seeked *)
    unfold AR.seeked.
    destruct (AR.audioElRef (AR.playback pg)) as [el|]; [|done].
    destruct (AR.seeked_listeners el);
      (eapply same_ticker_invariant; [..|exact Hinv]); try done.
    + apply Hinv.
    + cbn. by destruct measured.
  - (* loadedmetadata *)
    unfold AR.onLoadedMetadata.
    destruct (AR.audioElRef (AR.playback pg)) as [el|] eqn:Eel; [|done].
    destruct (AR.isFinite (AR.duration el)) eqn:Ef; cbn [negb orb].
    + destruct (AR.is_zero (AR.duration el)).
      * by apply ensureFiniteDuration_invariant.
      * eapply same_ticker_invariant; [..|exact Hinv]; done.
    + by apply ensureFiniteDuration_invariant.
  - (* timeupdate *)
    unfold AR.onTimeUpdate.
    destruct (AR.audioElRef (AR.playback pg)) as [el|]; [|done].
    eapply same_ticker_invariant; [..|exact Hinv]; try done. apply Hinv.
Qed.

(** X11.  The playback ticker never doubles: along every sequence of
    events at most one animation frame is pending, and it is the one
    whose id is kept in [playbackRafIdRef]; after a pause, after a reset
    and, with the element mounted, after the end of the playback no frame
    is pending at all. *)
Theorem single_playback_ticker (codec : Mp3Codec) (props : AR.Props)
    (pg : AR.Page) :
  AR.page_reachable props pg ->
  AR.framesPending (AR.playback pg)
  = AR.option_list (AR.playbackRafIdRef (AR.playback pg)) /\
  AR.framesPending (AR.playback (AR.dispatch props pg AR.ev_pause)) = [] /\
  AR.framesPending (AR.playback (AR.dispatch props pg AR.ev_reset)) = [] /\
  (is_Some (AR.audioElRef (AR.playback pg)) ->
   AR.framesPending (AR.playback (AR.dispatch props pg AR.ev_ended)) = []).
Proof.
  intros Hr.
  assert (Hinv : playback_invariant (AR.playback pg)).
  { revert pg Hr. apply page_reachable_ind'.
    - apply playback_invariant_initial.
    - intros pg e. apply playback_invariant_dispatch. }
  assert (Hre : forall url pg', AR.playback (AR.rerender url pg')
                                = AR.playback pg').
  { intros url pg'. unfold AR.rerender. by destruct (decide _). }
  split; [apply Hinv|]. unfold AR.dispatch. rewrite !Hre.
  cbn [AR.handler AR.on_playback AR.playback].
  split; [|split].
  - unfold AR.handleAudioPause. apply stopPlaybackTicker_invariant.
    eapply same_ticker_invariant; [..|exact Hinv]; try done. apply Hinv.
  - destruct pg as [w pb rv rl]. unfold AR.reset. cbn [AR.playback] in *.
    apply stopPlaybackTicker_invariant.
    eapply same_ticker_invariant; [..|exact Hinv]; try done. apply Hinv.
  - intros [el Eel]. unfold AR.handleAudioEnded. rewrite Eel.
    apply stopPlaybackTicker_invariant.
    eapply same_ticker_invariant; [..|exact Hinv]; try done. apply Hinv.
Qed.

(** X12.  The duration on display is always a finite number: whatever
    the element reports ([NaN] or infinite durations included), along
    every sequence of events [durationSec] is neither [NaN] nor
    infinite. *)
Theorem duration_always_finite (codec : Mp3Codec) (props : AR.Props)
    (pg : AR.Page) :
  AR.page_reachable props pg ->
  AR.isFinite (AR.durationSec (AR.playback pg)) = true.
Proof.
  intros Hr.
  assert (Hinv : playback_invariant (AR.playback pg)); [|apply Hinv].
  revert pg Hr. apply page_reachable_ind'.
  - apply playback_invariant_initial.
  - intros pg e. apply playback_invariant_dispatch.
Qed.

Lemma autoStop_threshold_witness :
  let w := AR.requestPermissionAndStart decoding_platform props AR.initial in
  AR.autoStop decoding_platform (Some (ofZ 50))
    (AR.onInterval 1050000 (Some 1000000) 49) w
  = AR.stopRecording decoding_platform w /\
  AR.autoStop decoding_platform (Some (Fin (101 # 2)))
    (AR.onInterval 1050000 (Some 1000000) 49) w
  = w.
Proof.
  intros w.
  pose proof (proj2 (autoStop_threshold decoding_platform (Some (ofZ 50))
                       1050000 (Some 1000000) 49 w) 1000000 eq_refl
                ltac:(lia)) as Hwhole.
  pose proof (proj2 (autoStop_threshold decoding_platform
                       (Some (Fin (101 # 2))) 1050000 (Some 1000000) 49 w)
                1000000 eq_refl ltac:(lia)) as Hhalf.
  split.
  - apply (proj1 Hwhole). split; [reflexivity|]. right. exists (inject_Z 50).
    split; [reflexivity|]. split; [discriminate|].
    change (Qceiling (inject_Z 50)) with 50. lia.
  - apply (proj2 Hhalf). intros [_ [H|(q & Hq & _ & Ht)]]; [discriminate H|].
    injection Hq as <-. change (Qceiling (101 # 2)) with 51 in Ht. lia.
Defined.

Lemma single_playback_ticker_witness :
  let pg :=
    AR.run_events (H := counting_codec) props
      [AR.ev_requestPermissionAndStart;
       AR.ev_permission_settled decoding_platform;
       AR.ev_audioprocess [Fin (1 # 2)];
       AR.ev_stopRecording decoding_platform;
       AR.ev_mount PosInf;
       AR.ev_play decoding_platform;
       AR.ev_frame 0;
       AR.ev_play decoding_platform;
       AR.ev_frame 1;
       AR.ev_frame 2]
      AR.initial_page in
  AR.page_reachable (H := counting_codec) props pg /\
  AR.framesPending (AR.playback pg)
  = AR.option_list (AR.playbackRafIdRef (AR.playback pg)).
Proof.
  intros pg.
  assert (Hr : AR.page_reachable (H := counting_codec) props pg)
    by (eexists; reflexivity).
  split; [exact Hr|].
  exact (proj1 (single_playback_ticker counting_codec props pg Hr)).
Defined.

Lemma duration_always_finite_witness :
  let pg :=
    AR.run_events (H := counting_codec) props
      [AR.ev_requestPermissionAndStart;
       AR.ev_permission_settled decoding_platform;
       AR.ev_audioprocess [Fin (1 # 2)];
       AR.ev_stopRecording decoding_platform;
       AR.ev_mount PosInf;
       AR.ev_loadedmetadata;
       AR.ev_play decoding_platform;
       AR.ev_seeked NaN]
      AR.initial_page in
  AR.page_reachable (H := counting_codec) props pg /\
  AR.isFinite (AR.durationSec (AR.playback pg)) = true.
Proof.
  intros pg.
  assert (Hr : AR.page_reachable (H := counting_codec) props pg)
    by (eexists; reflexivity).
  split; [exact Hr|].
  exact (duration_always_finite counting_codec props pg Hr).
Defined.

(** ** More on the MP3 path *)



Lemma getMp3Blob_channels `{Mp3Codec} (p : AR.Platform) (blob : Blob)
    (b : AudioBuffer) :
  AR.decodeAudioData p (bytes blob) = inl b ->
  AR.getMp3Blob p (Some blob)
  = AR.getMp3Blob
      (AR.mkPlatform (AR.getUserMedia p) (AR.window_MediaRecorder p)
         (AR.new_context_state p) (AR.device_sampleRate p)
         (AR.resume_succeeds p) (AR.isIOS p)
         (fun _ => inl (mkAudioBuffer (sampleRate b) (take 2 (channelData b))))
         (AR.window_lamejs p) (AR.lamejs_script_loads p) (AR.isoTime p)
         (AR.epochMillis p) (AR.setup_throws p))
      (Some blob).
Proof.
  intros Hdec. unfold AR.getMp3Blob at 1 2. rewrite Hdec.
  cbn [AR.decodeAudioData AR.window_lamejs AR.lamejs_script_loads sampleRate].
  unfold getChannelData, numberOfChannels. cbn [channelData].
  destruct (channelData b) as [|c0 [|c1 rest]]; [done| |].
  - cbn [take lookup list_lookup length].
    rewrite !decide_False by (cbn; lia). done.
  - cbn [take lookup list_lookup length].
    rewrite !decide_True by (cbn; lia). done.
Qed.

(** X14.  The conversion reads the sample rate and the first two channels
    of the decoded buffer and nothing else: two recordings whose buffers
    agree on these give the same codec calls and the same result. *)
Theorem mp3_reads_two_channels (codec : Mp3Codec) (p : AR.Platform)
    (blob blob' : Blob) (b b' : AudioBuffer) :
  AR.decodeAudioData p (bytes blob) = inl b ->
  AR.decodeAudioData p (bytes blob') = inl b' ->
  sampleRate b = sampleRate b' ->
  take 2 (channelData b) = take 2 (channelData b') ->
  AR.getMp3Blob p (Some blob) = AR.getMp3Blob p (Some blob').
Proof.
  intros Hdec Hdec' Hsr Hch.
  rewrite (getMp3Blob_channels p blob b Hdec),
          (getMp3Blob_channels p blob' b' Hdec'), Hsr, Hch.
  reflexivity.
Qed.

Lemma mp3_reads_two_channels_witness :
  let p :=
    AR.mkPlatform None false ctx_running 44100 true false
      (fun bs =>
         inl (mkAudioBuffer 8000
                match bs with
                | [] => [[Fin (1 # 2)]; [Fin (-1 # 2)]]
                | _ => [[Fin (1 # 2)]; [Fin (-1 # 2)]; [Fin (1 # 4)]]
                end))
      true true "2025-01-01T00-00-00" "1735689600000" None in
  AR.getMp3Blob (H := counting_codec) p (Some (mkBlob [] "audio/wav"))
  = AR.getMp3Blob (H := counting_codec) p (Some (mkBlob [82] "audio/wav")).
Proof.
  intros p.
  exact (mp3_reads_two_channels counting_codec p (mkBlob [] "audio/wav")
           (mkBlob [82] "audio/wav") _ _ eq_refl eq_refl eq_refl eq_refl).
Defined.

(** ** More on the encoder and the component of VoiceMessageRecorder *)

(** X15.  What [encodeWAV] writes for any list of chunks: a file of
    44 + 2 n bytes for n chunks, holding one sample per chunk; the sample
    is the quantised element of a chunk of one element, and 0 for an
    empty chunk and for a chunk of two elements or more. *)
Theorem encodeWAV_one_value_per_chunk (samples : list (list number))
    (sampleRate : Z) :
  exists blob,
    VMR.encodeWAV samples sampleRate = Some blob /\
    type blob = "audio/wav"%string /\
    length (bytes blob) = (44 + 2 * length samples)%nat /\
    decode_samples (bytes blob)
    = map (fun chunk => match chunk with
                        | [x] => quantized x
                        | _ => 0
                        end) samples.
Proof.
  eexists. split; [apply encodeWAV_layout|]. cbn [bytes type].
  split; [done|]. split.
  - destruct (encodeWAV_length samples sampleRate) as (blob & Hb & Hlen).
    rewrite encodeWAV_layout in Hb. by inversion Hb; subst.
  - rewrite decode_samples_layout. unfold VMR.Float32Array_from.
    rewrite map_map. apply map_ext. by intros [|x [|y rest]].
Qed.

(** X16.  On chunks of exactly one sample each the two encoders agree:
    [encodeWAV] returns the file [buildWavFromFloat32] returns. *)
Theorem encoders_agree_on_unit_chunks (samples : list (list number))
    (sampleRate : Z) :
  Forall (fun chunk => length chunk = 1%nat) samples ->
  VMR.encodeWAV samples sampleRate = AR.buildWavFromFloat32 samples sampleRate.
Proof.
  intros Hunit. rewrite encodeWAV_layout, buildWav_layout.
  assert (E : VMR.Float32Array_from samples = concat samples).
  { induction Hunit as [|c cs Hc _ IH]; [done|].
    destruct c as [|x [|y rest]]; try discriminate Hc.
    cbn. f_equal. exact IH. }
  rewrite E. do 4 f_equal.
  rewrite <- E. unfold VMR.Float32Array_from. by rewrite length_map.
Qed.

Lemma encoders_agree_on_unit_chunks_witness :
  VMR.encodeWAV [[Fin (1 # 2)]; [NaN]; [Fin (-5 # 4)]] 16000
  = AR.buildWavFromFloat32 [[Fin (1 # 2)]; [NaN]; [Fin (-5 # 4)]] 16000.
Proof.
  apply (encoders_agree_on_unit_chunks
           [[Fin (1 # 2)]; [NaN]; [Fin (-5 # 4)]] 16000).
  repeat constructor.
Defined.

(** X17.  In every state the VoiceMessageRecorder component can reach,
    in whatever order its handlers, the two halves of [startRecording]
    and the platform's events follow each other: the pulse shows exactly
    while it records, and the guard that disables the microphone button
    (recording in fallback mode without a context) never applies.  With
    [MediaRecorder] the fallback flag is never set and no context, node
    or fallback stream is ever held; without it no recorder is ever
    held, and while it records the context, both nodes and the stream
    are held. *)
Theorem VMR_button_never_disabled (p : VMR.Platform) (w : VMR.World) :
  VMR.reachable p w ->
  VMR.pulse (VMR.state w) = VMR.recording (VMR.state w) /\
  VMR.button_disabled w = false /\
  (VMR.isAudioRecordingSupported p = true ->
   VMR.isWavFallback (VMR.state w) = false /\
   VMR.audioContextRef (VMR.refs w) = None /\
   VMR.procRef (VMR.refs w) = None /\
   VMR.inputRef (VMR.refs w) = None /\
   VMR.wavStreamRef (VMR.refs w) = None) /\
  (VMR.isAudioRecordingSupported p = false ->
   VMR.mediaRecorderRef (VMR.refs w) = None /\
   (VMR.recording (VMR.state w) = true ->
    is_Some (VMR.audioContextRef (VMR.refs w)) /\
    is_Some (VMR.procRef (VMR.refs w)) /\
    is_Some (VMR.inputRef (VMR.refs w)) /\
    is_Some (VMR.wavStreamRef (VMR.refs w)))).
Proof.
  intros Hr. apply VMR_reachable_invariant in Hr.
  destruct Hr as [Hpulse Hinv]. split; [done|].
  unfold VMR.button_disabled, VMR.fallback_released in *.
  destruct (VMR.isAudioRecordingSupported p).
  - destruct Hinv as (Hfb & Hc & Hp & Hi & Hs).
    split; [rewrite Hfb; by rewrite andb_false_r|].
    split; [done|]. intros [=].
  - destruct Hinv as (Hm & Hrec).
    split; [|split; [intros [=]|done]].
    destruct (VMR.recording (VMR.state w)); [|done].
    destruct (Hrec eq_refl) as (Hc & _).
    rewrite (bool_decide_true _ Hc). by rewrite andb_false_r.
Qed.

Lemma VMR_button_never_disabled_witness :
  VMR.reachable fallback_platform interrupted_restart /\
  VMR.button_disabled interrupted_restart = false.
Proof.
  assert (Hr : VMR.reachable fallback_platform interrupted_restart)
    by (by exists interrupted_restart_events).
  split; [exact Hr|].
  exact (proj1 (proj2 (VMR_button_never_disabled fallback_platform
                         interrupted_restart Hr))).
Defined.

Lemma VMR_run_audioprocess (frames : list (list number)) st a b c d e f buf g
    h objs :
  foldl (fun w frame => VMR.onaudioprocess frame w)
    (VMR.mkWorld st (VMR.mkRefs a b c d e (Some f) buf g h) objs) frames
  = VMR.mkWorld st (VMR.mkRefs a b c d e (Some f) (buf ++ frames) g h) objs.
Proof.
  revert buf. induction frames as [|x xs IH]; intros buf.
  - by rewrite app_nil_r.
  - cbn [foldl]. unfold VMR.onaudioprocess at 2. cbn. rewrite IH.
    by rewrite <- app_assoc.
Qed.

(** X18.  A recording through the fallback of VoiceMessageRecorder, from
    start to stop, where [MediaRecorder] is missing and device access is
    granted: the file published is [encodeWAV] of the frames at the rate
    of the context, under the first object URL, with the mime audio/wav
    and a download name ending in .wav; the context, the nodes and the
    stream are let go and the frame buffer is emptied.  The file holds one
    sample per frame, and when every frame has at least two samples (the
    processor delivers 4096) all of them are 0. *)
Theorem VMR_fallback_recording (p : VMR.Platform)
    (frames : list (list number)) :
  VMR.isAudioRecordingSupported p = false ->
  VMR.getUserMedia_grants p = true ->
  let w :=
    VMR.stopRecording
      (foldl (fun w frame => VMR.onaudioprocess frame w)
         (VMR.startRecording p VMR.initial) frames) in
  exists blob,
    VMR.encodeWAV frames (VMR.context_sampleRate p) = Some blob /\
    w = VMR.mkWorld
          (VMR.mkState false (Some 0%nat) None false None true
             (Some "audio/wav"%string))
          (VMR.mkRefs None None [] None None None [] None
             (VMR.context_sampleRate p))
          [blob] /\
    VMR.fileExt (VMR.state w) = ".wav"%string /\
    length (bytes blob) = (44 + 2 * length frames)%nat /\
    (Forall (fun frame => (2 <= length frame)%nat) frames ->
     drop 44 (bytes blob) = replicate (2 * length frames) 0).
Proof.
  intros Hsup Hgrant. cbv zeta.
  unfold VMR.startRecording. rewrite Hsup, Hgrant.
  cbn [VMR.state VMR.refs VMR.objects VMR.initial VMR.recording VMR.audioUrl
       VMR.error VMR.pulse VMR.uploadSrc VMR.isWavFallback VMR.audioMime
       VMR.mediaRecorderRef VMR.recorderStream VMR.audioChunksRef
       VMR.audioContextRef VMR.inputRef VMR.procRef VMR.bufferRef
       VMR.wavStreamRef VMR.wavSampleRateRef].
  rewrite VMR_run_audioprocess. cbn [app].
  unfold VMR.stopRecording.
  cbn [VMR.state VMR.refs VMR.objects VMR.initial VMR.recording VMR.audioUrl
       VMR.error VMR.pulse VMR.uploadSrc VMR.isWavFallback VMR.audioMime
       VMR.mediaRecorderRef VMR.recorderStream VMR.audioChunksRef
       VMR.audioContextRef VMR.inputRef VMR.procRef VMR.bufferRef
       VMR.wavStreamRef VMR.wavSampleRateRef].
  rewrite encodeWAV_layout. eexists. split; [reflexivity|].
  split; [reflexivity|]. split; [reflexivity|]. cbn [bytes]. split.
  - destruct (encodeWAV_length frames (VMR.context_sampleRate p))
      as (blob & Hb & Hlen).
    rewrite encodeWAV_layout in Hb. by inversion Hb; subst.
  - intros Hlong.
    rewrite drop_app_length'
      by apply (wav_header_length (Z.of_nat (length frames))
                  (VMR.context_sampleRate p)).
    induction Hlong as [|c cs Hc _ IH]; [done|].
    destruct c as [|x [|y rest]]; cbn in Hc; try lia.
    cbn [VMR.Float32Array_from map flat_map length] in *.
    unfold VMR.Float32Array_from in IH. rewrite IH.
    replace (2 * S (length cs))%nat with (S (S (2 * length cs))) by lia.
    reflexivity.
Qed.

Lemma VMR_fallback_recording_witness :
  exists blob,
    VMR.encodeWAV [[Fin (1 # 2); Fin (-1 # 2)]] 44100 = Some blob /\
    fallback_recorded
    = VMR.mkWorld
        (VMR.mkState false (Some 0%nat) None false None true
           (Some "audio/wav"%string))
        (VMR.mkRefs None None [] None None None [] None 44100)
        [blob] /\
    VMR.fileExt (VMR.state fallback_recorded) = ".wav"%string /\
    length (bytes blob) = 46%nat /\
    (Forall (fun frame => (2 <= length frame)%nat)
       [[Fin (1 # 2); Fin (-1 # 2)]] ->
     drop 44 (bytes blob) = [0; 0]).
Proof.
  exact (VMR_fallback_recording fallback_platform
           [[Fin (1 # 2); Fin (-1 # 2)]] eq_refl eq_refl).
Defined.

Lemma VMR_run_dataavailable (chunks : list (list Z)) st a b ach c d e f g h
    objs :
  foldl (fun w data => VMR.ondataavailable data w)
    (VMR.mkWorld st (VMR.mkRefs (Some a) b ach c d e f g h) objs) chunks
  = VMR.mkWorld st (VMR.mkRefs (Some a) b (ach ++ chunks) c d e f g h) objs.
Proof.
  revert ach. induction chunks as [|x xs IH]; intros ach.
  - by rewrite app_nil_r.
  - cbn [foldl]. unfold VMR.ondataavailable at 2. cbn. rewrite IH.
    by rewrite <- app_assoc.
Qed.

(** X19.  A recording through [MediaRecorder] in VoiceMessageRecorder,
    where it is supported, access is granted and the recorder starts.
    [stopRecording] ends the recording state but publishes nothing; the
    recorder's [stop] event then publishes the pieces received before and
    after the stop request, in order and the empty ones included, as one
    blob under the first object URL, typed audio/webm on Android and
    audio/mp4 elsewhere, with the matching download extension, and
    stops the microphone tracks. *)
Theorem VMR_mediarecorder_recording (p : VMR.Platform)
    (before after : list (list Z)) :
  VMR.isAudioRecordingSupported p = true ->
  VMR.getUserMedia_grants p = true ->
  VMR.start_throws p = false ->
  let asked :=
    VMR.stopRecording
      (foldl (fun w data => VMR.ondataavailable data w)
         (VMR.startRecording p VMR.initial) before) in
  let w :=
    VMR.onstop p
      (foldl (fun w data => VMR.ondataavailable data w) asked after) in
  (VMR.recording (VMR.state asked) = false /\
   VMR.audioUrl (VMR.state asked) = None /\
   VMR.objects asked = [] /\
   VMR.mediaRecorderRef (VMR.refs asked)
   = Some (mkRecorder rs_inactive true) /\
   VMR.recorderStream (VMR.refs asked) = Some (mkStream true)) /\
  w = VMR.mkWorld
        (VMR.mkState false (Some 0%nat) None false None false
           (Some (VMR.getBlobType p)))
        (VMR.mkRefs (Some (mkRecorder rs_inactive false))
           (Some (mkStream false)) (before ++ after) None None None [] None
           44100)
        [mkBlob (concat (before ++ after)) (VMR.getBlobType p)] /\
  VMR.fileExt (VMR.state w)
  = (if VMR.isAndroid p then ".webm" else ".mp4")%string.
Proof.
  intros Hsup Hgrant Hthrow. cbv zeta.
  assert (Easked :
    VMR.stopRecording
      (foldl (fun w data => VMR.ondataavailable data w)
         (VMR.startRecording p VMR.initial) before)
    = VMR.mkWorld
        (VMR.mkState false None None false None false None)
        (VMR.mkRefs (Some (mkRecorder rs_inactive true))
           (Some (mkStream true)) before None None None [] None 44100)
        []).
  { unfold VMR.startRecording. rewrite Hsup, Hgrant, Hthrow.
    cbn [VMR.state VMR.refs VMR.objects VMR.initial VMR.recording
         VMR.audioUrl VMR.error VMR.pulse VMR.uploadSrc VMR.isWavFallback
         VMR.audioMime VMR.mediaRecorderRef VMR.recorderStream
         VMR.audioChunksRef VMR.audioContextRef VMR.inputRef VMR.procRef
         VMR.bufferRef VMR.wavStreamRef VMR.wavSampleRateRef].
    rewrite VMR_run_dataavailable. reflexivity. }
  rewrite Easked. split; [done|].
  rewrite VMR_run_dataavailable.
  unfold VMR.onstop, VMR.fileExt, VMR.getBlobType. cbn.
  destruct (VMR.isAndroid p); split; reflexivity.
Qed.

Lemma VMR_mediarecorder_recording_witness :
  VMR.onstop (VMR.mkPlatform true true true false 48000)
    (foldl (fun w data => VMR.ondataavailable data w)
       (VMR.stopRecording
          (foldl (fun w data => VMR.ondataavailable data w)
             (VMR.startRecording (VMR.mkPlatform true true true false 48000)
                VMR.initial)
             []))
       [[26; 69]; []; [223]])
  = VMR.mkWorld
      (VMR.mkState false (Some 0%nat) None false None false
         (Some "audio/webm"%string))
      (VMR.mkRefs (Some (mkRecorder rs_inactive false))
         (Some (mkStream false)) [[26; 69]; []; [223]] None None None []
         None 44100)
      [mkBlob [26; 69; 223] "audio/webm"].
Proof.
  exact (proj1 (proj2 (VMR_mediarecorder_recording
                         (VMR.mkPlatform true true true false 48000)
                         [] [[26; 69]; []; [223]]
                         eq_refl eq_refl eq_refl))).
Defined.

(** X20.  A restart that is refused keeps the previous recording on
    display under a wrong name: when [startRecording] runs on a finished
    recording and device access is refused, the object URL and the blob
    stay, an error is shown, the mime is cleared, and the download name
    therefore ends in .mp4 whatever the type of the blob. *)
Theorem VMR_refused_restart_keeps_preview (p : VMR.Platform) (w : VMR.World)
    (u : ObjectURL) :
  VMR.audioUrl (VMR.state w) = Some u ->
  VMR.recording (VMR.state w) = false ->
  VMR.getUserMedia_grants p = false ->
  let w' := VMR.startRecording p w in
  VMR.audioUrl (VMR.state w') = Some u /\
  VMR.objects w' = VMR.objects w /\
  VMR.recording (VMR.state w') = false /\
  is_Some (VMR.error (VMR.state w')) /\
  VMR.audioMime (VMR.state w') = None /\
  VMR.fileExt (VMR.state w') = ".mp4"%string /\
  VMR.delete_shown p w' = true.
Proof.
  intros Hu Hrec Hgrant. cbv zeta.
  unfold VMR.startRecording, VMR.delete_shown, VMR.fileExt.
  rewrite Hgrant.
  destruct (VMR.isAudioRecordingSupported p); cbn; rewrite Hu, Hrec;
    repeat split; eauto.
Qed.

Lemma VMR_refused_restart_keeps_preview_witness :
  let p := VMR.mkPlatform false false false false 44100 in
  VMR.objects (VMR.startRecording p fallback_recorded)
    = VMR.objects fallback_recorded /\
  VMR.fileExt (VMR.state fallback_recorded) = ".wav"%string /\
  VMR.fileExt (VMR.state (VMR.startRecording p fallback_recorded))
    = ".mp4"%string.
Proof.
  intros p.
  pose proof (VMR_refused_restart_keeps_preview p fallback_recorded 0%nat
                eq_refl eq_refl eq_refl) as H.
  split; [exact (proj1 (proj2 H))|]. split; [reflexivity|].
  exact (proj1 (proj2 (proj2 (proj2 (proj2 (proj2 H)))))).
Defined.
